(** * Rockchip OTP driver (drivers/nvmem/rockchip-otp.c): model and properties

    The driver reads a fuse array through a memory-mapped controller.  Two
    read engines exist: [px30_otp_read] (one byte per user-mode cycle) and
    [rk3308bs_otp_read] (power-mode gated, one 32-bit word per cycle).

    The C code is embedded as functions of a small state-and-log monad: the
    state holds the platform (clock framework, reset line, register window,
    allocator) and the caller's buffer; every call that leaves the driver is
    appended to a log of events, so that ordering properties can be stated on
    the log.  [rockchip_otp_probe], which picks the engine and registers the
    device, is embedded the same way over the services it calls.

    Integer model (LP64, little-endian, as on the ARMv8 SoCs the driver
    serves): [unsigned int] and [u32] are Z modulo 2^32, [size_t] is Z modulo
    2^64, [int] is Z modulo 2^32 read as a signed number. *)

From Stdlib Require Import ZArith String List Bool Lia Arith.
Import ListNotations.
Local Open Scope Z_scope.

(** ** Machine integers *)

Definition u8 (x : Z) : Z := x mod 2 ^ 8.
Definition u32 (x : Z) : Z := x mod 2 ^ 32.
Definition u64 (x : Z) : Z := x mod 2 ^ 64.
(** [int] arithmetic of the kernel wraps (the kernel is built with
    -fno-strict-overflow). *)
Definition s32 (x : Z) : Z := (x + 2 ^ 31) mod 2 ^ 32 - 2 ^ 31.

(** Modelled from the spec: the kernel macros BIT and GENMASK of
    include/linux/bits.h are not part of this file; a mask is the run of set
    bits from position [l] up to position [h]. *)
Definition BIT (n : Z) : Z := Z.shiftl 1 n.
Definition GENMASK (h l : Z) : Z := Z.shiftl (Z.ones (h - l + 1)) l.

(** Modelled from the spec: [rounddown] and [roundup] of
    include/linux/kernel.h are not part of this file; they round a byte
    position down or up to a multiple of [y].  [rounddown] is used at type
    [unsigned int], [roundup] at type [size_t]. *)
Definition rounddown (x y : Z) : Z := u32 (x - x mod y).
Definition roundup (x y : Z) : Z := u64 (u64 (x + (y - 1)) / y * y).

(** Modelled from the spec: the errno values of include/uapi/asm-generic are
    not part of this file. *)
Definition ENOMEM : Z := 12.
Definition ETIMEDOUT : Z := 110.

(** ** Register offsets and bit fields (the #define block) *)

Definition OTPC_SBPI_CTRL : Z := 0x0020.
Definition OTPC_SBPI_CMD_VALID_PRE : Z := 0x0024.
Definition OTPC_SBPI_CS_VALID_PRE : Z := 0x0028.
Definition OTPC_SBPI_STATUS : Z := 0x002C.
Definition OTPC_USER_CTRL : Z := 0x0100.
Definition OTPC_USER_ADDR : Z := 0x0104.
Definition OTPC_USER_ENABLE : Z := 0x0108.
Definition OTPC_USER_Q : Z := 0x0124.
Definition OTPC_INT_STATUS : Z := 0x0304.
Definition OTPC_SBPI_CMD0_OFFSET : Z := 0x1000.
Definition OTPC_SBPI_CMD1_OFFSET : Z := 0x1004.

Definition OTPC_MODE_CTRL : Z := 0x2000.
Definition OTPC_IRQ_ST : Z := 0x2008.
Definition OTPC_ACCESS_ADDR : Z := 0x200c.
Definition OTPC_RD_DATA : Z := 0x2010.
Definition OTPC_REPR_RD_TRANS_NUM : Z := 0x2020.

Definition OTPC_DEEP_STANDBY : Z := 0x0.
Definition OTPC_STANDBY : Z := 0x1.
Definition OTPC_ACTIVE : Z := 0x2.
Definition OTPC_READ_ACCESS : Z := 0x3.
Definition OTPC_TRANS_NUM : Z := 0x1.
Definition OTPC_RDM_IRQ_ST : Z := BIT 0.
Definition OTPC_STB2ACT_IRQ_ST : Z := BIT 7.
Definition OTPC_DP2STB_IRQ_ST : Z := BIT 8.
Definition OTPC_ACT2STB_IRQ_ST : Z := BIT 9.
Definition OTPC_STB2DP_IRQ_ST : Z := BIT 10.
Definition RK3308BS_NBYTES : Z := 4.
Definition RK3308BS_NO_SECURE_OFFSET : Z := 224.

Definition OTPC_USER_ADDR_MASK : Z := GENMASK 31 16.
Definition OTPC_USE_USER : Z := BIT 0.
Definition OTPC_USE_USER_MASK : Z := GENMASK 16 16.
Definition OTPC_USER_FSM_ENABLE : Z := BIT 0.
Definition OTPC_USER_FSM_ENABLE_MASK : Z := GENMASK 16 16.
Definition OTPC_SBPI_DONE : Z := BIT 1.
Definition OTPC_USER_DONE : Z := BIT 2.

Definition SBPI_DAP_ADDR : Z := 0x02.
Definition SBPI_DAP_ADDR_SHIFT : Z := 8.
Definition SBPI_DAP_ADDR_MASK : Z := GENMASK 31 24.
Definition SBPI_CMD_VALID_MASK : Z := GENMASK 31 16.
Definition SBPI_DAP_CMD_WRF : Z := 0xC0.
Definition SBPI_DAP_REG_ECC : Z := 0x3A.
Definition SBPI_ECC_ENABLE : Z := 0x00.
Definition SBPI_ECC_DISABLE : Z := 0x09.
Definition SBPI_ENABLE : Z := BIT 0.
Definition SBPI_ENABLE_MASK : Z := GENMASK 16 16.

Definition OTPC_TIMEOUT : Z := 10000.

(** ** Data model *)

(** The three clock handles of [struct rockchip_otp]. *)
Inductive clk_id : Type := clk | pclk | pclk_phy.

Definition clk_id_eqb (a b : clk_id) : bool :=
  match a, b with
  | clk, clk | pclk, pclk | pclk_phy, pclk_phy => true
  | _, _ => false
  end.

(** The [reg_read] member of [struct rockchip_data] is a function pointer
    with two possible targets. *)
Inductive engine : Type := px30_engine | rk3308bs_engine.

Record rockchip_data : Type := {
  size : Z;
  reg_read : engine
}.

(** [struct rockchip_otp]: the device, register base, clocks and reset line
    are fixed handles served by the platform below; register accesses are
    keyed by their offset from [otp->base]. *)
Record rockchip_otp : Type := {
  data : rockchip_data
}.

Definition px30_data : rockchip_data := {| size := 0x40; reg_read := px30_engine |}.
Definition rk3308bs_data : rockchip_data := {| size := 0x80; reg_read := rk3308bs_engine |}.

(** Everything the driver does to the outside world, in program order. *)
Inductive event : Type :=
| EvClkEnable (c : clk_id) (r : Z)      (* clk_prepare_enable and its result *)
| EvClkDisable (c : clk_id)             (* clk_disable_unprepare *)
| EvResetAssert (r : Z)
| EvResetDeassert (r : Z)
| EvUdelay (us : Z)
| EvReadl (addr v : Z)                  (* readl and the value it returned *)
| EvReadb (addr v : Z)
| EvWritel (v addr : Z)
| EvKzalloc (sz : Z) (ok : bool)
| EvKfree
| EvStore (idx : nat) (b : Z)           (* one byte stored through [val] *)
| EvMemcpy (bytes : list Z)             (* memcpy(val, ..., n) *)
| EvDevErr (msg : string).

(** The outcome of a call: it returns an [int], or it runs into undefined
    behaviour (an access outside the scratch allocation), after which
    nothing more is executed. *)
Inductive outcome : Type :=
| Returned (r : Z)
| Fault.

(** The services the driver calls: clock framework, reset controller, delay,
    register window and allocator.  [HW] is the state of everything outside
    the driver; each service may inspect and change it. *)
Class Platform (HW : Type) : Type := {
  hw_clk_prepare_enable : clk_id -> HW -> Z * HW;
  hw_clk_disable_unprepare : clk_id -> HW -> HW;
  hw_reset_control_assert : HW -> Z * HW;
  hw_reset_control_deassert : HW -> Z * HW;
  hw_udelay : Z -> HW -> HW;
  hw_readl : Z -> HW -> Z * HW;
  hw_readb : Z -> HW -> Z * HW;
  hw_writel : Z -> Z -> HW -> HW;
  hw_kzalloc : Z -> HW -> bool * HW
}.

(** Little-endian bytes of a 32-bit word: what [memcpy(&buf[i], &out_value, 4)]
    stores. *)
Definition le_bytes (w : Z) : list Z :=
  [u8 w; u8 (Z.shiftr w 8); u8 (Z.shiftr w 16); u8 (Z.shiftr w 24)].

(** Overwrite [l] from index [i] on with [d]; [None] when the range leaves
    the allocation. *)
Definition splice (i : Z) (d : list Z) (l : list Z) : option (list Z) :=
  if (0 <=? i) && (i + Z.of_nat (length d) <=? Z.of_nat (length l))
  then Some (firstn (Z.to_nat i) l ++ d ++ skipn (Z.to_nat i + length d) l)
  else None.

(** ** The driver *)

Section Driver.

Context {HW : Type} {P : Platform HW}.

(** [val] is the caller's buffer seen as the memory from [val] on: the driver
    does not know its capacity. *)
Record state : Type := {
  hw : HW;
  val : nat -> Z
}.

Definition M (A : Type) : Type := state -> A * state * list event.

Definition ret {A : Type} (a : A) : M A := fun s => (a, s, []).

Definition bind {A B : Type} (m : M A) (f : A -> M B) : M B :=
  fun s =>
    let '(a, s1, e1) := m s in
    let '(b, s2, e2) := f a s1 in
    (b, s2, e1 ++ e2).

Definition result_of {A : Type} (x : A * state * list event) : A := fst (fst x).
Definition state_of {A : Type} (x : A * state * list event) : state := snd (fst x).
Definition events_of {A : Type} (x : A * state * list event) : list event := snd x.

Notation "x <- m ;; k" := (bind m (fun x => k))
  (at level 61, m at next level, right associativity).
Notation "m ;;; k" := (bind m (fun _ => k))
  (at level 61, right associativity).

(** *** Kernel services *)

Definition clk_prepare_enable (c : clk_id) : M Z :=
  fun s => let (r, h) := hw_clk_prepare_enable c (hw s) in
           (r, {| hw := h; val := val s |}, [EvClkEnable c r]).

Definition clk_disable_unprepare (c : clk_id) : M unit :=
  fun s => (tt, {| hw := hw_clk_disable_unprepare c (hw s); val := val s |},
            [EvClkDisable c]).

Definition reset_control_assert : M Z :=
  fun s => let (r, h) := hw_reset_control_assert (hw s) in
           (r, {| hw := h; val := val s |}, [EvResetAssert r]).

Definition reset_control_deassert : M Z :=
  fun s => let (r, h) := hw_reset_control_deassert (hw s) in
           (r, {| hw := h; val := val s |}, [EvResetDeassert r]).

Definition udelay (us : Z) : M unit :=
  fun s => (tt, {| hw := hw_udelay us (hw s); val := val s |}, [EvUdelay us]).

Definition readl (addr : Z) : M Z :=
  fun s => let (v, h) := hw_readl addr (hw s) in
           (u32 v, {| hw := h; val := val s |}, [EvReadl addr (u32 v)]).

Definition readb (addr : Z) : M Z :=
  fun s => let (v, h) := hw_readb addr (hw s) in
           (u8 v, {| hw := h; val := val s |}, [EvReadb addr (u8 v)]).

Definition writel (v addr : Z) : M unit :=
  fun s => (tt, {| hw := hw_writel v addr (hw s); val := val s |},
            [EvWritel v addr]).

Definition kzalloc (sz : Z) : M bool :=
  fun s => let (ok, h) := hw_kzalloc sz (hw s) in
           (ok, {| hw := h; val := val s |}, [EvKzalloc sz ok]).

Definition kfree : M unit := fun s => (tt, s, [EvKfree]).

(** [msg] is the format string without its trailing newline; the arguments
    are not logged. *)
Definition dev_err (msg : string) : M unit := fun s => (tt, s, [EvDevErr msg]).

(** [*buf = b] for [buf = val + idx]. *)
Definition store_val (idx : nat) (b : Z) : M unit :=
  fun s => (tt, {| hw := hw s;
                   val := fun j => if Nat.eqb j idx then b else val s j |},
            [EvStore idx b]).

(** [memcpy(val, src, n)] once the [n] source bytes [d] are known. *)
Definition memcpy_val (d : list Z) : M unit :=
  fun s => (tt, {| hw := hw s;
                   val := fun j => if Nat.ltb j (length d) then nth j d 0 else val s j |},
            [EvMemcpy d]).

(** Modelled from the spec: [readl_poll_timeout_atomic] of
    include/linux/iopoll.h is not part of this file.  It reads the register,
    returns 0 as soon as the condition holds, and otherwise busy-waits
    [delay_us] between reads until [timeout_us] time-units have been spent,
    then returns [-ETIMEDOUT]. *)
Fixpoint poll_loop (addr : Z) (cond : Z -> bool) (delay_us : Z) (left : nat) : M Z :=
  status <- readl addr ;;
  if cond status then ret 0
  else match left with
       | O => ret (- ETIMEDOUT)
       | S left' => udelay delay_us ;;; poll_loop addr cond delay_us left'
       end.

Definition readl_poll_timeout_atomic (addr : Z) (cond : Z -> bool)
    (delay_us timeout_us : Z) : M Z :=
  poll_loop addr cond delay_us (Z.to_nat (timeout_us / delay_us)).

(** *** rockchip_otp_reset *)

Definition rockchip_otp_reset : M Z :=
  r <- reset_control_assert ;;
  if negb (r =? 0) then
    dev_err "failed to assert otp phy %d" ;;; ret r
  else
    udelay 2 ;;;
    r <- reset_control_deassert ;;
    if negb (r =? 0) then
      dev_err "failed to deassert otp phy %d" ;;; ret r
    else ret 0.

(** *** px30_otp_wait_status *)

Definition px30_otp_wait_status (flag : Z) : M Z :=
  r <- readl_poll_timeout_atomic OTPC_INT_STATUS
         (fun status => negb (Z.land status flag =? 0)) 1 OTPC_TIMEOUT ;;
  if negb (r =? 0) then ret r
  else
    (* clean int status *)
    writel flag OTPC_INT_STATUS ;;;
    ret 0.

(** *** px30_otp_ecc_enable *)

Definition px30_otp_ecc_enable (enable : bool) : M Z :=
  writel (Z.lor SBPI_DAP_ADDR_MASK (Z.shiftl SBPI_DAP_ADDR SBPI_DAP_ADDR_SHIFT))
         OTPC_SBPI_CTRL ;;;
  writel (Z.lor SBPI_CMD_VALID_MASK 0x1) OTPC_SBPI_CMD_VALID_PRE ;;;
  writel (Z.lor SBPI_DAP_CMD_WRF SBPI_DAP_REG_ECC) OTPC_SBPI_CMD0_OFFSET ;;;
  (if enable then writel SBPI_ECC_ENABLE OTPC_SBPI_CMD1_OFFSET
   else writel SBPI_ECC_DISABLE OTPC_SBPI_CMD1_OFFSET) ;;;
  writel (Z.lor SBPI_ENABLE_MASK SBPI_ENABLE) OTPC_SBPI_CTRL ;;;
  r <- px30_otp_wait_status OTPC_SBPI_DONE ;;
  if r <? 0 then dev_err "timeout during ecc_enable" ;;; ret r
  else ret r.

(** *** px30_otp_read *)

(** The exit labels, innermost last. *)
Definition px30_otp_clk (r : Z) : M Z :=
  clk_disable_unprepare clk ;;; ret r.

Definition px30_opt_pclk (r : Z) : M Z :=
  clk_disable_unprepare pclk ;;; px30_otp_clk r.

Definition px30_opt_pclk_phy (r : Z) : M Z :=
  clk_disable_unprepare pclk_phy ;;; px30_opt_pclk r.

Definition px30_read_end (r : Z) : M Z :=
  writel (Z.lor 0x0 OTPC_USE_USER_MASK) OTPC_USER_CTRL ;;; px30_opt_pclk_phy r.

(** [while (bytes--) { ... }]: [offset] and [buf] advance by one per turn;
    the loop is left for [read_end] either at its end or on a time-out, with
    the current [ret]. *)
Fixpoint px30_otp_read_loop (bytes : nat) (offset : Z) (buf : nat) (r : Z) : M Z :=
  match bytes with
  | O => ret r
  | S bytes' =>
      writel (Z.lor offset OTPC_USER_ADDR_MASK) OTPC_USER_ADDR ;;;
      writel (Z.lor OTPC_USER_FSM_ENABLE OTPC_USER_FSM_ENABLE_MASK)
             OTPC_USER_ENABLE ;;;
      r <- px30_otp_wait_status OTPC_USER_DONE ;;
      if r <? 0 then
        dev_err "timeout during read setup" ;;; ret r
      else
        b <- readb OTPC_USER_Q ;;
        store_val buf b ;;;
        px30_otp_read_loop bytes' (u32 (offset + 1)) (S buf) r
  end.

Definition px30_otp_read (otp : rockchip_otp) (offset : Z) (bytes : Z) : M Z :=
  r <- clk_prepare_enable clk ;;
  if r <? 0 then
    dev_err "failed to prepare/enable otp clk" ;;; ret r
  else
  r <- clk_prepare_enable pclk ;;
  if r <? 0 then
    dev_err "failed to prepare/enable otp pclk" ;;; px30_otp_clk r
  else
  r <- clk_prepare_enable pclk_phy ;;
  if r <? 0 then
    dev_err "failed to prepare/enable otp pclk phy" ;;; px30_opt_pclk r
  else
  r <- rockchip_otp_reset ;;
  if negb (r =? 0) then
    dev_err "failed to reset otp phy" ;;; px30_opt_pclk_phy r
  else
  r <- px30_otp_ecc_enable false ;;
  if r <? 0 then
    dev_err "rockchip_otp_ecc_enable err" ;;; px30_opt_pclk_phy r
  else
  writel (Z.lor OTPC_USE_USER OTPC_USE_USER_MASK) OTPC_USER_CTRL ;;;
  udelay 5 ;;;
  r <- px30_otp_read_loop (Z.to_nat bytes) offset 0%nat r ;;
  px30_read_end r.

(** *** rk3308bs_otp_wait_status *)

Definition rk3308bs_otp_wait_status (flag : Z) : M Z :=
  r <- readl_poll_timeout_atomic OTPC_IRQ_ST
         (fun status => negb (Z.land status flag =? 0)) 1 OTPC_TIMEOUT ;;
  if negb (r =? 0) then ret r
  else
    (* clean int status *)
    writel flag OTPC_IRQ_ST ;;;
    ret 0.

(** *** rk3308bs_otp_active *)

(** The body of [case OTPC_STANDBY:], entered directly or by falling through
    from [case OTPC_DEEP_STANDBY:]. *)
Definition rk3308bs_otp_active_from_standby : M Z :=
  writel OTPC_ACTIVE OTPC_MODE_CTRL ;;;
  r <- rk3308bs_otp_wait_status OTPC_STB2ACT_IRQ_ST ;;
  if r <? 0 then dev_err "timeout during wait stb2act" ;;; ret r
  else ret r.

Definition rk3308bs_otp_active : M Z :=
  mode <- readl OTPC_MODE_CTRL ;;
  if mode =? OTPC_DEEP_STANDBY then
    writel OTPC_STANDBY OTPC_MODE_CTRL ;;;
    r <- rk3308bs_otp_wait_status OTPC_DP2STB_IRQ_ST ;;
    if r <? 0 then dev_err "timeout during wait dp2stb" ;;; ret r
    else (* fall through *) rk3308bs_otp_active_from_standby
  else if mode =? OTPC_STANDBY then
    rk3308bs_otp_active_from_standby
  else ret 0.

(** *** rk3308bs_otp_standby *)

Definition rk3308bs_otp_standby_from_standby : M Z :=
  writel OTPC_DEEP_STANDBY OTPC_MODE_CTRL ;;;
  r <- rk3308bs_otp_wait_status OTPC_STB2DP_IRQ_ST ;;
  if r <? 0 then dev_err "timeout during wait stb2dp" ;;; ret r
  else ret r.

Definition rk3308bs_otp_standby : M Z :=
  mode <- readl OTPC_MODE_CTRL ;;
  if mode =? OTPC_ACTIVE then
    writel OTPC_STANDBY OTPC_MODE_CTRL ;;;
    r <- rk3308bs_otp_wait_status OTPC_ACT2STB_IRQ_ST ;;
    if r <? 0 then dev_err "timeout during wait act2stb" ;;; ret r
    else (* fall through *) rk3308bs_otp_standby_from_standby
  else if mode =? OTPC_STANDBY then
    rk3308bs_otp_standby_from_standby
  else ret 0.

(** *** rk3308bs_otp_read *)

Definition rk3308bs_otp_clk (r : Z) : M outcome :=
  clk_disable_unprepare clk ;;; ret (Returned r).

Definition rk3308bs_opt_pclk (r : Z) : M outcome :=
  clk_disable_unprepare pclk ;;; rk3308bs_otp_clk r.

Definition rk3308bs_opt_pclk_phy (r : Z) : M outcome :=
  clk_disable_unprepare pclk_phy ;;; rk3308bs_opt_pclk r.

(** [read_end:] the return value of [rk3308bs_otp_standby] is dropped. *)
Definition rk3308bs_read_end (r : Z) : M outcome :=
  kfree ;;;
  rk3308bs_otp_standby ;;;
  rk3308bs_opt_pclk_phy r.

(** How the word loop is left: at its end with the filled scratch buffer, by
    [goto read_end] on a time-out, or by a store outside the allocation. *)
Inductive loop_exit : Type :=
| LoopDone (r : Z) (buf : list Z)
| LoopAbort (r : Z)
| LoopFault.

(** [while (addr_len--) { ... }]: [addr_start] advances by one word and the
    [int] index [i] by four bytes per turn. *)
Fixpoint rk3308bs_otp_read_loop (addr_len : nat) (addr_start : Z) (i : Z)
    (buf : list Z) (r : Z) : M loop_exit :=
  match addr_len with
  | O => ret (LoopDone r buf)
  | S addr_len' =>
      writel OTPC_TRANS_NUM OTPC_REPR_RD_TRANS_NUM ;;;
      writel addr_start OTPC_ACCESS_ADDR ;;;
      writel OTPC_READ_ACCESS OTPC_MODE_CTRL ;;;
      r <- rk3308bs_otp_wait_status OTPC_RDM_IRQ_ST ;;
      if r <? 0 then
        dev_err "timeout during wait rd" ;;; ret (LoopAbort r)
      else
        out_value <- readl OTPC_RD_DATA ;;
        match splice i (le_bytes out_value) buf with
        | None => ret LoopFault
        | Some buf' =>
            rk3308bs_otp_read_loop addr_len' (u32 (addr_start + 1))
              (s32 (i + RK3308BS_NBYTES)) buf' r
        end
  end.

Definition rk3308bs_otp_read (otp : rockchip_otp) (offset : Z) (bytes : Z)
    : M outcome :=
  if offset >=? size (data otp) then ret (Returned (- ENOMEM))
  else
  let bytes := if u64 (offset + bytes) >? size (data otp)
               then u32 (size (data otp) - offset) else bytes in
  r <- clk_prepare_enable clk ;;
  if r <? 0 then
    dev_err "failed to prepare/enable otp clk" ;;; ret (Returned r)
  else
  r <- clk_prepare_enable pclk ;;
  if r <? 0 then
    dev_err "failed to prepare/enable otp pclk" ;;; rk3308bs_otp_clk r
  else
  r <- clk_prepare_enable pclk_phy ;;
  if r <? 0 then
    dev_err "failed to prepare/enable otp pclk phy" ;;; rk3308bs_opt_pclk r
  else
  r <- rockchip_otp_reset ;;
  if negb (r =? 0) then
    dev_err "failed to reset otp phy" ;;; rk3308bs_opt_pclk_phy r
  else
  r <- rk3308bs_otp_active ;;
  if negb (r =? 0) then rk3308bs_opt_pclk_phy r
  else
  let addr_start := u32 (rounddown offset RK3308BS_NBYTES / RK3308BS_NBYTES) in
  let addr_end :=
    u32 (roundup (u64 (offset + bytes)) RK3308BS_NBYTES / RK3308BS_NBYTES) in
  let addr_offset := offset mod RK3308BS_NBYTES in
  let addr_len := u32 (addr_end - addr_start) in
  let addr_start := u32 (addr_start + RK3308BS_NO_SECURE_OFFSET) in
  let alloc := u64 (1 * addr_len * RK3308BS_NBYTES) in
  ok <- kzalloc alloc ;;
  if negb ok then rk3308bs_read_end (- ENOMEM)
  else
  x <- rk3308bs_otp_read_loop (Z.to_nat addr_len) addr_start 0
         (repeat 0 (Z.to_nat alloc)) r ;;
  match x with
  | LoopFault => ret Fault
  | LoopAbort r => rk3308bs_read_end r
  | LoopDone r buf =>
      (* memcpy(val, buf + addr_offset, bytes) *)
      if addr_offset + bytes <=? Z.of_nat (length buf) then
        memcpy_val (firstn (Z.to_nat bytes) (skipn (Z.to_nat addr_offset) buf)) ;;;
        rk3308bs_read_end r
      else ret Fault
  end.

(** *** rockchip_otp_read: the dispatcher *)


End Driver.

Arguments state : clear implicits.
Arguments M : clear implicits.

(** ** Attaching the device: rockchip_otp_probe *)

(** Modelled from the spec: the errno of include/uapi/asm-generic/errno-base.h
    that the probe returns. *)
Definition EINVAL : Z := 22.

(** [struct of_device_id], as far as the driver fills it: the compatible
    string and the [.data] pointer, which may be NULL. *)
Record of_device_id : Type := {
  compatible : string;
  match_data : option rockchip_data
}.

(** The match table; the empty sentinel that ends the C array is the end of
    the list. *)
Definition rockchip_otp_match : list of_device_id :=
  [ {| compatible := "rockchip,px30-otp"; match_data := Some px30_data |};
    {| compatible := "rockchip,px30s-otp"; match_data := Some rk3308bs_data |};
    {| compatible := "rockchip,rk3308-otp"; match_data := Some px30_data |};
    {| compatible := "rockchip,rk3308bs-otp"; match_data := Some rk3308bs_data |} ].

(** [struct nvmem_config], as far as the driver fills it.  Its [reg_read]
    member is always [rockchip_otp_read]; [priv] is the context that
    function is called with. *)
Record nvmem_config : Type := {
  cfg_name : string;
  cfg_read_only : bool;
  cfg_stride : Z;
  cfg_word_size : Z;
  cfg_size : Z;
  cfg_priv : option rockchip_otp
}.

(** The static initialiser of [otp_config]. *)
Definition otp_config : nvmem_config :=
  {| cfg_name := "rockchip-otp"; cfg_read_only := true; cfg_stride := 1;
     cfg_word_size := 1; cfg_size := 0; cfg_priv := None |}.

(** Modelled from the spec: a pointer returned by one of the kernel's
    acquisition services is valid or is an [ERR_PTR] carrying an errno
    ([IS_ERR] and [PTR_ERR] of include/linux/err.h); [PTR_ERR] of an error
    pointer is the negated errno. *)
Inductive ptr_result : Type :=
| ValidPtr
| ErrPtr (errno : positive).

(** The services the probe calls.  [PD] is the state of the platform
    device and of the kernel around it.  [platform_get_resource] and
    [devm_ioremap_resource] are one service: the driver passes the result of
    the first to the second unchecked. *)
Class ProbePlatform (PD : Type) : Type := {
  pd_of_match_device : list of_device_id -> PD -> option of_device_id;
  pd_soc_is_rk3308bs : PD -> bool;
  pd_soc_is_px30s : PD -> bool;
  pd_devm_kzalloc : PD -> bool * PD;
  pd_devm_ioremap_resource : PD -> ptr_result * PD;
  pd_devm_clk_get : string -> PD -> ptr_result * PD;
  pd_devm_reset_control_get : string -> PD -> ptr_result * PD;
  pd_nvmem_register : nvmem_config -> PD -> ptr_result * PD;
  pd_platform_set_drvdata : PD -> PD
}.

(** What the probe does to the outside world, in program order. *)
Inductive probe_event : Type :=
| PrDevErr (msg : string)
| PrKzalloc (ok : bool)
| PrIoremap (p : ptr_result)
| PrClkGet (id : string) (p : ptr_result)
| PrResetGet (id : string) (p : ptr_result)
| PrNvmemRegister (cfg : nvmem_config) (p : ptr_result)
| PrSetDrvdata.

Section Probe.

Context {PD : Type} {PP : ProbePlatform PD}.

(** The platform and the global [otp_config], which the probe modifies. *)
Record probe_state : Type := {
  pd : PD;
  config : nvmem_config
}.

Definition probe_run : Type := Z * probe_state * list probe_event.

(** [x = service(...); if (IS_ERR(x)) return PTR_ERR(x);] followed by the
    rest of the function. *)
Definition acquire (service : PD -> ptr_result * PD) (ev : ptr_result -> probe_event)
    (rest : probe_state -> probe_run) (st : probe_state) : probe_run :=
  let (p, d) := service (pd st) in
  let st1 := {| pd := d; config := config st |} in
  match p with
  | ErrPtr e => (Z.neg e, st1, [ev p])
  | ValidPtr => let '(r, st2, l) := rest st1 in (r, st2, ev p :: l)
  end.

Definition rockchip_otp_probe (st : probe_state) : probe_run :=
  match pd_of_match_device rockchip_otp_match (pd st) with
  | None => (- EINVAL, st, [PrDevErr "failed to get match data"])
  | Some m =>
  match match_data m with
  | None => (- EINVAL, st, [PrDevErr "failed to get match data"])
  | Some data0 =>
  let data :=
    if pd_soc_is_rk3308bs (pd st) || pd_soc_is_px30s (pd st) then rk3308bs_data
    else data0 in
  let (ok, d) := pd_devm_kzalloc (pd st) in
  let st1 := {| pd := d; config := config st |} in
  if negb ok then (- ENOMEM, st1, [PrKzalloc false])
  else
  let otp := {| data := data |} in
  let '(r, st2, l) :=
    acquire pd_devm_ioremap_resource PrIoremap
      (acquire (pd_devm_clk_get "clk_otp") (PrClkGet "clk_otp")
         (acquire (pd_devm_clk_get "pclk_otp") (PrClkGet "pclk_otp")
            (acquire (pd_devm_clk_get "pclk_otp_phy") (PrClkGet "pclk_otp_phy")
               (acquire (pd_devm_reset_control_get "otp_phy") (PrResetGet "otp_phy")
                  (fun st =>
                     let cfg :=
                       {| cfg_name := cfg_name (config st);
                          cfg_read_only := cfg_read_only (config st);
                          cfg_stride := cfg_stride (config st);
                          cfg_word_size := cfg_word_size (config st);
                          cfg_size := size data;
                          cfg_priv := Some otp |} in
                     let (nvmem, d) := pd_nvmem_register cfg (pd st) in
                     match nvmem with
                     | ErrPtr e =>
                         (Z.neg e, {| pd := d; config := cfg |},
                          [PrNvmemRegister cfg nvmem])
                     | ValidPtr =>
                         (0, {| pd := pd_platform_set_drvdata d; config := cfg |},
                          [PrNvmemRegister cfg nvmem; PrSetDrvdata])
                     end)))))
      st1 in
  (r, st2, PrKzalloc true :: l)
  end
  end.

End Probe.

Arguments probe_state : clear implicits.

(** The events of a probe in which every step succeeds and [cfg] is
    registered. *)
Definition probe_steps (cfg : nvmem_config) : list probe_event :=
  [PrKzalloc true; PrIoremap ValidPtr; PrClkGet "clk_otp" ValidPtr;
   PrClkGet "pclk_otp" ValidPtr; PrClkGet "pclk_otp_phy" ValidPtr;
   PrResetGet "otp_phy" ValidPtr; PrNvmemRegister cfg ValidPtr; PrSetDrvdata].

(** A failed step, with the value the probe returns for it. *)
Definition probe_failure (e : probe_event) : option Z :=
  match e with
  | PrDevErr _ => Some (- EINVAL)
  | PrKzalloc false => Some (- ENOMEM)
  | PrIoremap (ErrPtr n) | PrClkGet _ (ErrPtr n) | PrResetGet _ (ErrPtr n)
  | PrNvmemRegister _ (ErrPtr n) => Some (Z.neg n)
  | _ => None
  end.

(** Two events of the same step, whatever its result. *)
Definition same_step (a b : probe_event) : bool :=
  match a, b with
  | PrKzalloc _, PrKzalloc _ | PrIoremap _, PrIoremap _ | PrSetDrvdata, PrSetDrvdata => true
  | PrClkGet x _, PrClkGet y _ | PrResetGet x _, PrResetGet y _ => String.eqb x y
  | PrNvmemRegister c _, PrNvmemRegister c' _ => true
  | _, _ => false
  end.

(** The descriptor the probe attaches for a matched table entry with data
    [d0] on a platform [p]. *)
Definition effective_data {PD : Type} {PP : ProbePlatform PD} (p : PD)
    (d0 : rockchip_data) : rockchip_data :=
  if pd_soc_is_rk3308bs p || pd_soc_is_px30s p then rk3308bs_data else d0.

(** The configuration the probe registers for a descriptor. *)
Definition registered_config (c0 : nvmem_config) (d : rockchip_data) : nvmem_config :=
  {| cfg_name := cfg_name c0; cfg_read_only := cfg_read_only c0;
     cfg_stride := cfg_stride c0; cfg_word_size := cfg_word_size c0;
     cfg_size := size d; cfg_priv := Some {| data := d |} |}.

(** ** A register-level model of the controller

    Modelled from the spec: the controller itself is hardware behind the
    register window of section 6.  This model gives it the behaviour the spec
    describes: a mode register walking deep-standby, standby, active and
    read-access, status registers whose bits are cleared by writing them
    back, a word data port for the engine of section 4.4 and a byte data
    port for the engine of section 4.3.  It serves as a concrete platform on
    which the driver can be run. *)

Module Mock.

Record otpc : Type := {
  regs : Z -> Z;              (* register file, by offset *)
  cells : list Z;             (* the fuse array, one byte per cell *)
  credit : nat;               (* completions the device still signals *)
  clk_rc : clk_id -> Z;       (* result of enabling each clock *)
  rst_rc : Z * Z;             (* results of assert and deassert *)
  alloc_ok : bool             (* whether kzalloc succeeds *)
}.

Definition set_reg (a v : Z) (m : otpc) : otpc :=
  {| regs := fun x => if x =? a then v else regs m x;
     cells := cells m; credit := credit m; clk_rc := clk_rc m;
     rst_rc := rst_rc m; alloc_ok := alloc_ok m |}.

Definition spend (m : otpc) : otpc :=
  {| regs := regs m; cells := cells m; credit := pred (credit m);
     clk_rc := clk_rc m; rst_rc := rst_rc m; alloc_ok := alloc_ok m |}.

(** Status registers are write-one-to-clear. *)
Definition w1c (pending written : Z) : Z := Z.land pending (Z.lnot written).

(** The device completes an operation and raises [bit] in status register
    [st]; once its credit is used up it no longer responds. *)
Definition complete (st bit : Z) (k : otpc -> otpc) (m : otpc) : otpc :=
  match credit m with
  | O => m
  | S _ => set_reg st (Z.lor (regs m st) bit) (k (spend m))
  end.

Definition cell (m : otpc) (k : Z) : Z :=
  if k <? 0 then 0 else nth (Z.to_nat k) (cells m) 0.

(** The word at word address [a]; the array starts at the non-secure
    offset. *)
Definition word_at (m : otpc) (a : Z) : Z :=
  let k := (a - RK3308BS_NO_SECURE_OFFSET) * 4 in
  cell m k + Z.shiftl (cell m (k + 1)) 8 + Z.shiftl (cell m (k + 2)) 16
  + Z.shiftl (cell m (k + 3)) 24.

Definition mode_write (v : Z) (m : otpc) : otpc :=
  let mode := regs m OTPC_MODE_CTRL in
  if (v =? OTPC_STANDBY) && (mode =? OTPC_DEEP_STANDBY) then
    complete OTPC_IRQ_ST OTPC_DP2STB_IRQ_ST (set_reg OTPC_MODE_CTRL v) m
  else if (v =? OTPC_ACTIVE) && (mode =? OTPC_STANDBY) then
    complete OTPC_IRQ_ST OTPC_STB2ACT_IRQ_ST (set_reg OTPC_MODE_CTRL v) m
  else if (v =? OTPC_STANDBY) && (mode =? OTPC_ACTIVE) then
    complete OTPC_IRQ_ST OTPC_ACT2STB_IRQ_ST (set_reg OTPC_MODE_CTRL v) m
  else if (v =? OTPC_DEEP_STANDBY) && (mode =? OTPC_STANDBY) then
    complete OTPC_IRQ_ST OTPC_STB2DP_IRQ_ST (set_reg OTPC_MODE_CTRL v) m
  else if (v =? OTPC_READ_ACCESS) && (mode =? OTPC_ACTIVE) then
    complete OTPC_IRQ_ST OTPC_RDM_IRQ_ST
      (fun m' => set_reg OTPC_RD_DATA (word_at m' (regs m' OTPC_ACCESS_ADDR)) m') m
  else m.

Definition mock_writel (v addr : Z) (m : otpc) : otpc :=
  if addr =? OTPC_MODE_CTRL then mode_write v m
  else if (addr =? OTPC_IRQ_ST) || (addr =? OTPC_INT_STATUS) then
    set_reg addr (w1c (regs m addr) v) m
  else if addr =? OTPC_SBPI_CTRL then
    if Z.testbit v 0 then complete OTPC_INT_STATUS OTPC_SBPI_DONE (fun m' => m') m
    else m
  else if addr =? OTPC_USER_ADDR then set_reg addr (Z.land v 0xFFFF) m
  else if addr =? OTPC_USER_ENABLE then
    if Z.testbit v 0 then
      complete OTPC_INT_STATUS OTPC_USER_DONE
        (fun m' => set_reg OTPC_USER_Q (cell m' (regs m' OTPC_USER_ADDR)) m') m
    else m
  else set_reg addr v m.

#[export] Instance mock_platform : Platform otpc := {
  hw_clk_prepare_enable c m := (clk_rc m c, m);
  hw_clk_disable_unprepare _ m := m;
  hw_reset_control_assert m := (fst (rst_rc m), m);
  hw_reset_control_deassert m := (snd (rst_rc m), m);
  hw_udelay _ m := m;
  hw_readl addr m := (regs m addr, m);
  hw_readb addr m := (regs m addr, m);
  hw_writel := mock_writel;
  hw_kzalloc _ m := (alloc_ok m, m)
}.

(** A controller in deep-standby holding [fuses], able to signal [n]
    completions, with every service succeeding. *)
Definition device (fuses : list Z) (n : nat) : otpc :=
  {| regs := fun _ => 0; cells := fuses; credit := n;
     clk_rc := fun _ => 0; rst_rc := (0, 0); alloc_ok := true |}.

(** The fuse array used in the examples: cell [k] holds [k + 1]. *)
Definition fuses : list Z := map (fun k => Z.of_nat k + 1) (seq 0 128).

(** A caller whose buffer is filled with 0xEE before the call. *)
Definition caller (m : otpc) : state otpc := {| hw := m; val := fun _ => 0xEE |}.

Definition rk3308bs : rockchip_otp := {| data := rk3308bs_data |}.
Definition px30 : rockchip_otp := {| data := px30_data |}.

(** The first [n] bytes of the caller's buffer. *)
Definition peek {HW : Type} (n : nat) (s : state HW) : list Z := map (val s) (seq 0 n).

(** Whether a read of the word engine, of [len] bytes at [offset] on a
    fresh device, succeeds, puts the requested cells (as many as the array
    has) at the start of the caller's buffer and leaves the next bytes
    alone. *)
Definition list_Z_eqb (a b : list Z) : bool :=
  Nat.eqb (length a) (length b) && forallb (fun p => fst p =? snd p) (combine a b).

Definition word_engine_reads_cells (offset len : nat) : bool :=
  let x := rk3308bs_otp_read rk3308bs (Z.of_nat offset) (Z.of_nat len)
             (caller (device fuses 100)) in
  let n := Nat.min len (128 - offset) in
  match result_of x with
  | Returned 0 =>
      list_Z_eqb (peek n (state_of x)) (firstn n (skipn offset fuses))
      && list_Z_eqb (map (val (state_of x)) (seq n 4)) [0xEE; 0xEE; 0xEE; 0xEE]
  | _ => false
  end.

(** The same for the byte engine. *)
Definition byte_engine_reads_cells (offset len : nat) : bool :=
  let x := px30_otp_read px30 (Z.of_nat offset) (Z.of_nat len)
             (caller (device fuses 100)) in
  match result_of x with
  | 0 =>
      list_Z_eqb (peek len (state_of x)) (firstn len (skipn offset fuses))
      && list_Z_eqb (map (val (state_of x)) (seq len 4)) [0xEE; 0xEE; 0xEE; 0xEE]
  | _ => false
  end.

End Mock.

Import Mock.

(** A board for running the probe: the compatible string of the device
    node, the silicon, and the step that fails, if any (0 is the
    allocation, 1 the register window, 2 to 4 the clocks, 5 the reset line,
    6 the registration). *)
Module Board.

Record board : Type := {
  node_compatible : string;
  rk3308bs_silicon : bool;
  px30s_silicon : bool;
  failing : option nat;
  step : nat;
  drvdata_set : bool
}.





Definition fresh (compat : string) (rk3308bs_si px30s_si : bool) (fail : option nat)
    : probe_state board :=
  {| pd := {| node_compatible := compat; rk3308bs_silicon := rk3308bs_si;
              px30s_silicon := px30s_si; failing := fail; step := 0;
              drvdata_set := false |};
     config := otp_config |}.

End Board.

(** ** Reading the log *)

(** Time spent in [udelay], in time-units. *)
Definition elapsed (evs : list event) : Z :=
  fold_right (fun e acc => match e with EvUdelay us => us + acc | _ => acc end) 0 evs.

(** Values returned by [readl] on register [addr], in order. *)
Definition reads_of (addr : Z) (evs : list event) : list Z :=
  flat_map (fun e => match e with
                     | EvReadl a v => if a =? addr then [v] else []
                     | _ => []
                     end) evs.

(** Values written by [writel] to register [addr], in order. *)
Definition writes_to (addr : Z) (evs : list event) : list Z :=
  flat_map (fun e => match e with
                     | EvWritel v a => if a =? addr then [v] else []
                     | _ => []
                     end) evs.

(** Every register write, as (value, offset). *)
Definition all_writes (evs : list event) : list (Z * Z) :=
  flat_map (fun e => match e with EvWritel v a => [(v, a)] | _ => [] end) evs.

(** Clock events only. *)
Definition clk_events (evs : list event) : list event :=
  flat_map (fun e => match e with
                     | EvClkEnable _ _ | EvClkDisable _ => [e]
                     | _ => []
                     end) evs.

(** The byte lists copied to the caller's buffer by [memcpy]. *)
Definition memcpys (evs : list event) : list (list Z) :=
  flat_map (fun e => match e with EvMemcpy d => [d] | _ => [] end) evs.

(** The single-byte stores to the caller's buffer, as (index, byte). *)
Definition stores (evs : list event) : list (nat * Z) :=
  flat_map (fun e => match e with EvStore i b => [(i, b)] | _ => [] end) evs.

(** Values returned by [readb] on register [addr]. *)
Definition readbs_of (addr : Z) (evs : list event) : list Z :=
  flat_map (fun e => match e with
                     | EvReadb a v => if a =? addr then [v] else []
                     | _ => []
                     end) evs.

(** Allocation requests, as (size, success). *)
Definition allocs (evs : list event) : list (Z * bool) :=
  flat_map (fun e => match e with EvKzalloc sz ok => [(sz, ok)] | _ => [] end) evs.

(** The error messages that mark a time-out inside one of the read loops. *)
Definition loop_timeout (e : event) : bool :=
  match e with
  | EvDevErr m => String.eqb m "timeout during wait rd"
                  || String.eqb m "timeout during read setup"
  | _ => false
  end.

(** Bookkeeping events: reset pulse, delays, status polling and
    acknowledgement, SBPI commands, mode reads and mode writes other than
    read-access, and error messages other than the loop time-outs.  They
    touch neither clocks, allocator, data ports nor the caller's buffer. *)
Definition quiet (e : event) : bool :=
  match e with
  | EvResetAssert _ | EvResetDeassert _ | EvUdelay _ => true
  | EvReadl a _ =>
      (a =? OTPC_INT_STATUS) || (a =? OTPC_IRQ_ST) || (a =? OTPC_MODE_CTRL)
  | EvWritel v a =>
      (a =? OTPC_INT_STATUS) || (a =? OTPC_IRQ_ST) || (a =? OTPC_SBPI_CTRL)
      || (a =? OTPC_SBPI_CMD_VALID_PRE) || (a =? OTPC_SBPI_CMD0_OFFSET)
      || (a =? OTPC_SBPI_CMD1_OFFSET)
      || ((a =? OTPC_MODE_CTRL) && negb (v =? OTPC_READ_ACCESS))
  | EvDevErr _ => negb (loop_timeout e)
  | _ => false
  end.

(** The log without its bookkeeping events. *)
Definition essential (evs : list event) : list event :=
  filter (fun e => negb (quiet e)) evs.

(** One completed cycle of the byte engine per byte of [bs]: address, pulse,
    data read, store at index [buf]; the address counter is an
    [unsigned int]. *)
Fixpoint user_cycles (offset : Z) (buf : nat) (bs : list Z) : list event :=
  match bs with
  | [] => []
  | b :: bs' =>
      [EvWritel (Z.lor offset OTPC_USER_ADDR_MASK) OTPC_USER_ADDR;
       EvWritel (Z.lor OTPC_USER_FSM_ENABLE OTPC_USER_FSM_ENABLE_MASK) OTPC_USER_ENABLE;
       EvReadb OTPC_USER_Q b;
       EvStore buf b]
      ++ user_cycles (u32 (offset + 1)) (S buf) bs'
  end.

(** A cycle of the byte engine whose wait timed out. *)
Definition user_abort (offset : Z) : list event :=
  [EvWritel (Z.lor offset OTPC_USER_ADDR_MASK) OTPC_USER_ADDR;
   EvWritel (Z.lor OTPC_USER_FSM_ENABLE OTPC_USER_FSM_ENABLE_MASK) OTPC_USER_ENABLE;
   EvDevErr "timeout during read setup"].

(** One completed cycle of the word engine per word of [ws]. *)
Fixpoint word_cycles (addr : Z) (ws : list Z) : list event :=
  match ws with
  | [] => []
  | w :: ws' =>
      [EvWritel OTPC_TRANS_NUM OTPC_REPR_RD_TRANS_NUM;
       EvWritel addr OTPC_ACCESS_ADDR;
       EvWritel OTPC_READ_ACCESS OTPC_MODE_CTRL;
       EvReadl OTPC_RD_DATA w]
      ++ word_cycles (u32 (addr + 1)) ws'
  end.

(** A cycle of the word engine whose wait timed out. *)
Definition word_abort (addr : Z) : list event :=
  [EvWritel OTPC_TRANS_NUM OTPC_REPR_RD_TRANS_NUM;
   EvWritel addr OTPC_ACCESS_ADDR;
   EvWritel OTPC_READ_ACCESS OTPC_MODE_CTRL;
   EvDevErr "timeout during wait rd"].

Definition acquired (r1 r2 r3 : Z) : list event :=
  [EvClkEnable clk r1; EvClkEnable pclk r2; EvClkEnable pclk_phy r3].

Definition released : list event :=
  [EvClkDisable pclk_phy; EvClkDisable pclk; EvClkDisable clk].

Definition user_mode_on : event :=
  EvWritel (Z.lor OTPC_USE_USER OTPC_USE_USER_MASK) OTPC_USER_CTRL.

Definition user_mode_off : event :=
  EvWritel (Z.lor 0x0 OTPC_USE_USER_MASK) OTPC_USER_CTRL.

(** The local variables of [rk3308bs_otp_read] once the request has been
    clamped and the window computed, as functions of the declared size and of
    the request. *)
Definition rk3308bs_bytes (sz offset bytes : Z) : Z :=
  if u64 (offset + bytes) >? sz then u32 (sz - offset) else bytes.

Definition rk3308bs_addr_offset (offset : Z) : Z := offset mod RK3308BS_NBYTES.

Definition rk3308bs_addr_len (sz offset bytes : Z) : Z :=
  u32 (u32 (roundup (u64 (offset + rk3308bs_bytes sz offset bytes)) RK3308BS_NBYTES
            / RK3308BS_NBYTES)
       - u32 (rounddown offset RK3308BS_NBYTES / RK3308BS_NBYTES)).

Definition rk3308bs_addr_start (offset : Z) : Z :=
  u32 (u32 (rounddown offset RK3308BS_NBYTES / RK3308BS_NBYTES)
       + RK3308BS_NO_SECURE_OFFSET).

Definition rk3308bs_alloc (sz offset bytes : Z) : Z :=
  u64 (1 * rk3308bs_addr_len sz offset bytes * RK3308BS_NBYTES).

(** The value of an [unsigned int] counter after [k] increments. *)
Fixpoint advance (x : Z) (k : nat) : Z :=
  match k with
  | O => x
  | S k' => advance (u32 (x + 1)) k'
  end.

(** The clock gate as both read functions drive it: the three clocks are
    enabled in the order [clk], [pclk], [pclk_phy]; the first failing enable
    ends the acquisition and the clocks enabled before it are disabled in
    reverse order; after a full acquisition all three are disabled in reverse
    order. *)
Definition gate_discipline (l : list event) : bool :=
  match l with
  | [EvClkEnable clk r1] => r1 <? 0
  | [EvClkEnable clk r1; EvClkEnable pclk r2; EvClkDisable clk] =>
      negb (r1 <? 0) && (r2 <? 0)
  | [EvClkEnable clk r1; EvClkEnable pclk r2; EvClkEnable pclk_phy r3;
     EvClkDisable pclk; EvClkDisable clk] =>
      negb (r1 <? 0) && negb (r2 <? 0) && (r3 <? 0)
  | [EvClkEnable clk r1; EvClkEnable pclk r2; EvClkEnable pclk_phy r3;
     EvClkDisable pclk_phy; EvClkDisable pclk; EvClkDisable clk] =>
      negb (r1 <? 0) && negb (r2 <? 0) && negb (r3 <? 0)
  | _ => false
  end.

Fixpoint remove_clk (c : clk_id) (on : list clk_id) : list clk_id :=
  match on with
  | [] => []
  | x :: on' => if clk_id_eqb x c then on' else x :: remove_clk c on'
  end.

(** The clocks left enabled by a log, starting from the clocks [on]: an
    enable that did not fail adds its clock, a disable removes it. *)
Fixpoint enabled_after (on : list clk_id) (evs : list event) : list clk_id :=
  match evs with
  | [] => on
  | EvClkEnable c r :: l => enabled_after (if r <? 0 then on else c :: on) l
  | EvClkDisable c :: l => enabled_after (remove_clk c on) l
  | _ :: l => enabled_after on l
  end.

(** The result of the first failing clock enable, if any. *)
Fixpoint failed_enable (evs : list event) : option Z :=
  match evs with
  | [] => None
  | EvClkEnable c r :: l => if r <? 0 then Some r else failed_enable l
  | _ :: l => failed_enable l
  end.

(** A write of read-access to the mode register. *)
Definition is_read_access (e : event) : bool :=
  match e with
  | EvWritel v a => (a =? OTPC_MODE_CTRL) && (v =? OTPC_READ_ACCESS)
  | _ => false
  end.

(** What shows in the log that [rk3308bs_otp_active] succeeded: the
    standby-to-active status was acknowledged (which follows the write of
    active to the mode register), or the mode register read neither
    deep-standby nor standby and the routine left it alone. *)
Definition activation_evidence (e : event) : bool :=
  match e with
  | EvWritel v a => (a =? OTPC_IRQ_ST) && (v =? OTPC_STB2ACT_IRQ_ST)
  | EvReadl a v =>
      (a =? OTPC_MODE_CTRL) && negb (v =? OTPC_DEEP_STANDBY)
      && negb (v =? OTPC_STANDBY)
  | _ => false
  end.

(** Every write of read-access comes after evidence of activation. *)
Fixpoint read_access_guarded (armed : bool) (evs : list event) : bool :=
  match evs with
  | [] => true
  | e :: l =>
      if is_read_access e then armed && read_access_guarded armed l
      else read_access_guarded (armed || activation_evidence e) l
  end.

Definition is_clk_disable (e : event) : bool :=
  match e with EvClkDisable _ => true | _ => false end.






(** Pieces of a log with no read-access write, with no clock disable. *)
Definition no_read_access (e : list event) : bool :=
  forallb (fun x => negb (is_read_access x)) e.

Definition no_disable (e : list event) : bool :=
  forallb (fun x => negb (is_clk_disable x)) e.

(** The ways through [px30_otp_read]: result, caller's buffer afterwards
    and essential log, for a caller's buffer [v0] before the call. *)
Inductive px30_shape (offset : Z) (n : nat) (v0 : nat -> Z)
  : Z -> (nat -> Z) -> list event -> Prop :=
| px30_fail_clk r1 :
    r1 < 0 ->
    px30_shape offset n v0 r1 v0 [EvClkEnable clk r1]
| px30_fail_pclk r1 r2 :
    0 <= r1 -> r2 < 0 ->
    px30_shape offset n v0 r2 v0
      [EvClkEnable clk r1; EvClkEnable pclk r2; EvClkDisable clk]
| px30_fail_pclk_phy r1 r2 r3 :
    0 <= r1 -> 0 <= r2 -> r3 < 0 ->
    px30_shape offset n v0 r3 v0
      [EvClkEnable clk r1; EvClkEnable pclk r2; EvClkEnable pclk_phy r3;
       EvClkDisable pclk; EvClkDisable clk]
| px30_fail_setup r1 r2 r3 r :
    (* the reset pulse or the ECC command failed *)
    0 <= r1 -> 0 <= r2 -> 0 <= r3 -> r <> 0 ->
    px30_shape offset n v0 r v0 (acquired r1 r2 r3 ++ released)
| px30_done r1 r2 r3 bs v :
    0 <= r1 -> 0 <= r2 -> 0 <= r3 ->
    length bs = n ->
    (forall j, v j = if (j <? length bs)%nat then nth j bs 0 else v0 j) ->
    px30_shape offset n v0 0 v
      (acquired r1 r2 r3 ++ [user_mode_on] ++ user_cycles offset 0 bs
       ++ [user_mode_off] ++ released)
| px30_timeout r1 r2 r3 bs v :
    0 <= r1 -> 0 <= r2 -> 0 <= r3 ->
    (length bs < n)%nat ->
    (forall j, v j = if (j <? length bs)%nat then nth j bs 0 else v0 j) ->
    px30_shape offset n v0 (- ETIMEDOUT) v
      (acquired r1 r2 r3 ++ [user_mode_on] ++ user_cycles offset 0 bs
       ++ user_abort (advance offset (length bs))
       ++ [user_mode_off] ++ released).

(** The ways through [rk3308bs_otp_read]: outcome, caller's buffer
    afterwards and essential log, for a caller's buffer [v0] before the
    call. *)
Inductive rk3308bs_shape (sz offset bytes : Z) (v0 : nat -> Z)
  : outcome -> (nat -> Z) -> list event -> Prop :=
| rk_out_of_range :
    sz <= offset ->
    rk3308bs_shape sz offset bytes v0 (Returned (- ENOMEM)) v0 []
| rk_fail_clk r1 :
    offset < sz -> r1 < 0 ->
    rk3308bs_shape sz offset bytes v0 (Returned r1) v0 [EvClkEnable clk r1]
| rk_fail_pclk r1 r2 :
    offset < sz -> 0 <= r1 -> r2 < 0 ->
    rk3308bs_shape sz offset bytes v0 (Returned r2) v0
      [EvClkEnable clk r1; EvClkEnable pclk r2; EvClkDisable clk]
| rk_fail_pclk_phy r1 r2 r3 :
    offset < sz -> 0 <= r1 -> 0 <= r2 -> r3 < 0 ->
    rk3308bs_shape sz offset bytes v0 (Returned r3) v0
      [EvClkEnable clk r1; EvClkEnable pclk r2; EvClkEnable pclk_phy r3;
       EvClkDisable pclk; EvClkDisable clk]
| rk_fail_setup r1 r2 r3 r :
    (* the reset pulse or the activation failed *)
    offset < sz -> 0 <= r1 -> 0 <= r2 -> 0 <= r3 -> r <> 0 ->
    rk3308bs_shape sz offset bytes v0 (Returned r) v0
      (acquired r1 r2 r3 ++ released)
| rk_fail_alloc r1 r2 r3 :
    offset < sz -> 0 <= r1 -> 0 <= r2 -> 0 <= r3 ->
    rk3308bs_shape sz offset bytes v0 (Returned (- ENOMEM)) v0
      (acquired r1 r2 r3
       ++ [EvKzalloc (rk3308bs_alloc sz offset bytes) false; EvKfree]
       ++ released)
| rk_timeout r1 r2 r3 ws :
    offset < sz -> 0 <= r1 -> 0 <= r2 -> 0 <= r3 ->
    (length ws < Z.to_nat (rk3308bs_addr_len sz offset bytes))%nat ->
    rk3308bs_shape sz offset bytes v0 (Returned (- ETIMEDOUT)) v0
      (acquired r1 r2 r3
       ++ [EvKzalloc (rk3308bs_alloc sz offset bytes) true]
       ++ word_cycles (rk3308bs_addr_start offset) ws
       ++ word_abort (advance (rk3308bs_addr_start offset) (length ws))
       ++ [EvKfree] ++ released)
| rk_fault r1 r2 r3 ws :
    offset < sz -> 0 <= r1 -> 0 <= r2 -> 0 <= r3 ->
    (length ws <= Z.to_nat (rk3308bs_addr_len sz offset bytes))%nat ->
    rk3308bs_shape sz offset bytes v0 Fault v0
      (acquired r1 r2 r3
       ++ [EvKzalloc (rk3308bs_alloc sz offset bytes) true]
       ++ word_cycles (rk3308bs_addr_start offset) ws)
| rk_done r1 r2 r3 ws d v :
    offset < sz -> 0 <= r1 -> 0 <= r2 -> 0 <= r3 ->
    length ws = Z.to_nat (rk3308bs_addr_len sz offset bytes) ->
    rk3308bs_addr_offset offset + rk3308bs_bytes sz offset bytes
      <= 4 * rk3308bs_addr_len sz offset bytes ->
    d = firstn (Z.to_nat (rk3308bs_bytes sz offset bytes))
          (skipn (Z.to_nat (rk3308bs_addr_offset offset))
             (concat (map le_bytes ws))) ->
    (forall j, v j = if (j <? length d)%nat then nth j d 0 else v0 j) ->
    rk3308bs_shape sz offset bytes v0 (Returned 0) v
      (acquired r1 r2 r3
       ++ [EvKzalloc (rk3308bs_alloc sz offset bytes) true]
       ++ word_cycles (rk3308bs_addr_start offset) ws
       ++ [EvMemcpy d; EvKfree] ++ released).

(** Every delay in the log is of one time-unit. *)
Definition unit_delays (evs : list event) : bool :=
  forallb (fun e => match e with EvUdelay us => us =? 1 | _ => true end) evs.

(** Whether a status value has a bit of the mask set. *)
Definition matches (flag status : Z) : bool := negb (Z.land status flag =? 0).

(** The log of a poll that saw the values [vs] fail the condition, waiting
    [d] after each, and then saw [vlast]. *)
Definition poll_log (addr d : Z) (vs : list Z) (vlast : Z) : list event :=
  flat_map (fun v => [EvReadl addr v; EvUdelay d]) vs ++ [EvReadl addr vlast].

(** [px30_otp_wait_status] and [rk3308bs_otp_wait_status] are the same
    routine on two status registers. *)
Definition wait_status_at {HW : Type} {P : Platform HW} (addr flag : Z) : M HW Z :=
  bind (readl_poll_timeout_atomic addr
          (fun status => negb (Z.land status flag =? 0)) 1 OTPC_TIMEOUT)
       (fun r => if negb (r =? 0) then ret r
                 else bind (writel flag addr) (fun _ => ret 0)).


(** *** Monitors and projections for the further properties *)

(** The scratch buffer of the word engine as the log shows it: not yet
    requested, held after a successful [kzalloc], refused by a failed one,
    or given back by [kfree]. *)
Inductive scratch : Type := NoScratch | ScratchHeld | ScratchRefused | ScratchFreed.

(** The allocator's protocol: [kzalloc] is called at most once and never
    after [kfree]; [kfree] follows a [kzalloc] (kfree of the NULL pointer of
    a refused request is allowed) and is called once; data words are read
    and bytes are copied to the caller only while the scratch buffer is
    held; no clock is disabled while it is held or refused but not yet
    freed.  The result is the state after the log, or [None] when the log
    breaks the protocol. *)
Fixpoint scratch_discipline (st : scratch) (evs : list event) : option scratch :=
  match evs with
  | [] => Some st
  | EvKzalloc _ ok :: l =>
      match st with
      | NoScratch => scratch_discipline (if ok then ScratchHeld else ScratchRefused) l
      | _ => None
      end
  | EvKfree :: l =>
      match st with
      | ScratchHeld | ScratchRefused => scratch_discipline ScratchFreed l
      | _ => None
      end
  | EvReadl a _ :: l =>
      if a =? OTPC_RD_DATA then
        match st with ScratchHeld => scratch_discipline st l | _ => None end
      else scratch_discipline st l
  | EvMemcpy _ :: l =>
      match st with ScratchHeld => scratch_discipline st l | _ => None end
  | EvClkDisable _ :: l =>
      match st with
      | NoScratch | ScratchFreed => scratch_discipline st l
      | _ => None
      end
  | _ :: l => scratch_discipline st l
  end.

(** Events that touch neither a clock nor the reset line. *)
Definition calm (e : event) : bool :=
  match e with
  | EvClkEnable _ _ | EvClkDisable _ | EvResetAssert _ | EvResetDeassert _ => false
  | _ => true
  end.

(** The reset line of the PHY as the log shows it: untouched, asserted,
    asserted and held for at least two time-units, pulsed (deasserted after
    the hold). *)
Inductive reset_phase : Type := ResetIdle | ResetAsserted | ResetHeld | ResetPulsed.

Definition all_enabled (on : list clk_id) : bool :=
  existsb (clk_id_eqb clk) on && existsb (clk_id_eqb pclk) on
  && existsb (clk_id_eqb pclk_phy) on.

(** The register window is used only inside the gate: every [readl],
    [readb] and [writel] comes while the three clocks are enabled and after
    a complete reset pulse; the reset line is driven only while the three
    clocks are enabled, and it is released only after it was asserted and
    held for two time-units. *)
Fixpoint inside_gate (on : list clk_id) (ph : reset_phase) (evs : list event) : bool :=
  match evs with
  | [] => true
  | EvClkEnable c r :: l => inside_gate (if r <? 0 then on else c :: on) ph l
  | EvClkDisable c :: l => inside_gate (remove_clk c on) ph l
  | EvResetAssert r :: l =>
      all_enabled on
      && inside_gate on (if r =? 0 then ResetAsserted else ResetIdle) l
  | EvUdelay us :: l =>
      inside_gate on
        match ph with
        | ResetAsserted => if 2 <=? us then ResetHeld else ResetAsserted
        | _ => ph
        end l
  | EvResetDeassert r :: l =>
      all_enabled on
      && match ph with ResetHeld => true | _ => false end
      && inside_gate on (if r =? 0 then ResetPulsed else ResetIdle) l
  | EvReadl _ _ :: l | EvReadb _ _ :: l | EvWritel _ _ :: l =>
      all_enabled on
      && match ph with ResetPulsed => true | _ => false end
      && inside_gate on ph l
  | _ :: l => inside_gate on ph l
  end.

(** Run a monitor over a log: [step] gives the next state of the monitor, or
    [None] when the event is not allowed in the current state. *)
Fixpoint run_monitor {St : Type} (step : St -> event -> option St) (st : St)
    (evs : list event) : option St :=
  match evs with
  | [] => Some st
  | x :: l =>
      match step st x with
      | Some st' => run_monitor step st' l
      | None => None
      end
  end.

(** The byte engine's use of user mode as the log shows it: nothing done
    yet; an ECC command [cmd] written to the SBPI command register; the
    command acknowledged with ECC switched off; user mode switched on
    ([settled] once five time-units have passed); user mode switched off
    again. *)
Inductive user_phase : Type :=
| UserIdle
| EccCommanded (cmd : Z)
| EccOff
| UserOn (settled : bool)
| UserOff.

(** The protocol of user mode: the SBPI command register is written only
    before anything else; the SBPI completion is acknowledged only for the
    ECC-disable command; user mode is switched on only once ECC is off and
    switched off only when it is on; an address is programmed, a read is
    triggered, the data port is read and a byte is stored to the caller
    only in user mode and after its settle time; no clock is disabled while
    user mode is on. *)
Definition user_step (ph : user_phase) (e : event) : option user_phase :=
  match e with
  | EvWritel v a =>
      if a =? OTPC_SBPI_CMD1_OFFSET then
        match ph with UserIdle => Some (EccCommanded v) | _ => None end
      else if (a =? OTPC_INT_STATUS) && (v =? OTPC_SBPI_DONE) then
        match ph with
        | EccCommanded cmd => if cmd =? SBPI_ECC_DISABLE then Some EccOff else None
        | _ => None
        end
      else if a =? OTPC_USER_CTRL then
        if v =? Z.lor OTPC_USE_USER OTPC_USE_USER_MASK then
          match ph with EccOff => Some (UserOn false) | _ => None end
        else if v =? Z.lor 0x0 OTPC_USE_USER_MASK then
          match ph with UserOn _ => Some UserOff | _ => None end
        else None
      else if (a =? OTPC_USER_ADDR) || (a =? OTPC_USER_ENABLE) then
        match ph with UserOn true => Some ph | _ => None end
      else Some ph
  | EvUdelay us =>
      match ph with
      | UserOn false => Some (UserOn (5 <=? us))
      | _ => Some ph
      end
  | EvReadb a _ =>
      if a =? OTPC_USER_Q then
        match ph with UserOn true => Some ph | _ => None end
      else Some ph
  | EvStore _ _ =>
      match ph with UserOn true => Some ph | _ => None end
  | EvClkDisable _ =>
      match ph with UserOn _ => None | _ => Some ph end
  | _ => Some ph
  end.

Definition user_mode_discipline : user_phase -> list event -> option user_phase :=
  run_monitor user_step.

(** The results returned by the clock framework and the reset controller,
    in order. *)
Definition service_results (evs : list event) : list Z :=
  flat_map (fun e => match e with
                     | EvClkEnable _ r | EvResetAssert r | EvResetDeassert r => [r]
                     | _ => []
                     end) evs.

(** Whether the log holds an error message. *)
Definition reported (evs : list event) : bool :=
  existsb (fun e => match e with EvDevErr _ => true | _ => false end) evs.

(** The register writes of one SBPI command to the ECC register of the
    DAP, with [cmd] the value for the second command word. *)
Definition sbpi_ecc_writes (cmd : Z) : list (Z * Z) :=
  [(Z.lor SBPI_DAP_ADDR_MASK (Z.shiftl SBPI_DAP_ADDR SBPI_DAP_ADDR_SHIFT), OTPC_SBPI_CTRL);
   (Z.lor SBPI_CMD_VALID_MASK 0x1, OTPC_SBPI_CMD_VALID_PRE);
   (Z.lor SBPI_DAP_CMD_WRF SBPI_DAP_REG_ECC, OTPC_SBPI_CMD0_OFFSET);
   (cmd, OTPC_SBPI_CMD1_OFFSET);
   (Z.lor SBPI_ENABLE_MASK SBPI_ENABLE, OTPC_SBPI_CTRL)].

(** The register writes of [k] completed cycles of the byte engine from
    [offset]: address, trigger, acknowledgement. *)
Fixpoint user_cycle_writes (offset : Z) (k : nat) : list (Z * Z) :=
  match k with
  | O => []
  | S k' =>
      [(Z.lor offset OTPC_USER_ADDR_MASK, OTPC_USER_ADDR);
       (Z.lor OTPC_USER_FSM_ENABLE OTPC_USER_FSM_ENABLE_MASK, OTPC_USER_ENABLE);
       (OTPC_USER_DONE, OTPC_INT_STATUS)]
      ++ user_cycle_writes (u32 (offset + 1)) k'
  end.

(** The register writes of [k] completed cycles of the word engine from
    word address [addr]: transfer count, address, read-access,
    acknowledgement. *)
Fixpoint word_cycle_writes (addr : Z) (k : nat) : list (Z * Z) :=
  match k with
  | O => []
  | S k' =>
      [(OTPC_TRANS_NUM, OTPC_REPR_RD_TRANS_NUM);
       (addr, OTPC_ACCESS_ADDR);
       (OTPC_READ_ACCESS, OTPC_MODE_CTRL);
       (OTPC_RDM_IRQ_ST, OTPC_IRQ_ST)]
      ++ word_cycle_writes (u32 (addr + 1)) k'
  end.

(** The register writes of a walk up to active, by where it starts. *)
Definition walk_up_writes : list (list (Z * Z)) :=
  [ [(OTPC_STANDBY, OTPC_MODE_CTRL); (OTPC_DP2STB_IRQ_ST, OTPC_IRQ_ST);
     (OTPC_ACTIVE, OTPC_MODE_CTRL); (OTPC_STB2ACT_IRQ_ST, OTPC_IRQ_ST)];
    [(OTPC_ACTIVE, OTPC_MODE_CTRL); (OTPC_STB2ACT_IRQ_ST, OTPC_IRQ_ST)];
    [] ].

(** The register writes of a walk down to deep-standby, by where it starts
    and by where a time-out ends it. *)
Definition walk_down_writes : list (list (Z * Z)) :=
  [ [(OTPC_STANDBY, OTPC_MODE_CTRL); (OTPC_ACT2STB_IRQ_ST, OTPC_IRQ_ST);
     (OTPC_DEEP_STANDBY, OTPC_MODE_CTRL); (OTPC_STB2DP_IRQ_ST, OTPC_IRQ_ST)];
    [(OTPC_STANDBY, OTPC_MODE_CTRL); (OTPC_ACT2STB_IRQ_ST, OTPC_IRQ_ST);
     (OTPC_DEEP_STANDBY, OTPC_MODE_CTRL)];
    [(OTPC_STANDBY, OTPC_MODE_CTRL)];
    [(OTPC_DEEP_STANDBY, OTPC_MODE_CTRL); (OTPC_STB2DP_IRQ_ST, OTPC_IRQ_ST)];
    [(OTPC_DEEP_STANDBY, OTPC_MODE_CTRL)];
    [] ].

(** ** Basic facts about the monad and the kernel services *)

Section Facts.

Context {HW : Type} {P : Platform HW}.
Implicit Types s : state HW.

Lemma bind_inv {A B : Type} (m : M HW A) (f : A -> M HW B) s b s2 e :
  bind m f s = (b, s2, e) ->
  exists a s1 e1 e2, m s = (a, s1, e1) /\ f a s1 = (b, s2, e2) /\ e = e1 ++ e2.
Proof.
  unfold bind. destruct (m s) as [[a s1] e1].
  destruct (f a s1) as [[b' s2'] e2] eqn:Hf. intros H. inversion H; subst.
  exists a, s1, e1, e2. auto.
Qed.

Lemma ret_inv {A : Type} (a : A) s b s' e :
  ret a s = (b, s', e) -> b = a /\ s' = s /\ e = [].
Proof. unfold ret. intros H. inversion H. auto. Qed.

Lemma clk_prepare_enable_inv c s r s' e :
  clk_prepare_enable c s = (r, s', e) -> val s' = val s /\ e = [EvClkEnable c r].
Proof.
  unfold clk_prepare_enable. destruct (hw_clk_prepare_enable c (hw s)).
  intros H. inversion H; subst. auto.
Qed.

Lemma clk_disable_unprepare_inv c s u s' e :
  clk_disable_unprepare c s = (u, s', e) -> val s' = val s /\ e = [EvClkDisable c].
Proof. unfold clk_disable_unprepare. intros H. inversion H; subst. auto. Qed.

Lemma reset_control_assert_inv s r s' e :
  reset_control_assert s = (r, s', e) -> val s' = val s /\ e = [EvResetAssert r].
Proof.
  unfold reset_control_assert. destruct (hw_reset_control_assert (hw s)).
  intros H. inversion H; subst. auto.
Qed.

Lemma reset_control_deassert_inv s r s' e :
  reset_control_deassert s = (r, s', e) -> val s' = val s /\ e = [EvResetDeassert r].
Proof.
  unfold reset_control_deassert. destruct (hw_reset_control_deassert (hw s)).
  intros H. inversion H; subst. auto.
Qed.

Lemma udelay_inv us s u s' e :
  udelay us s = (u, s', e) -> val s' = val s /\ e = [EvUdelay us].
Proof. unfold udelay. intros H. inversion H; subst. auto. Qed.

Lemma readl_inv addr s v s' e :
  readl addr s = (v, s', e) ->
  val s' = val s /\ e = [EvReadl addr v] /\ 0 <= v < 2 ^ 32.
Proof.
  unfold readl. destruct (hw_readl addr (hw s)) as [x h].
  intros H. inversion H; subst. repeat split; auto;
  unfold u32; apply Z.mod_pos_bound; lia.
Qed.

Lemma readb_inv addr s v s' e :
  readb addr s = (v, s', e) -> val s' = val s /\ e = [EvReadb addr v].
Proof.
  unfold readb. destruct (hw_readb addr (hw s)) as [x h].
  intros H. inversion H; subst. auto.
Qed.

Lemma writel_inv v addr s u s' e :
  writel v addr s = (u, s', e) -> val s' = val s /\ e = [EvWritel v addr].
Proof. unfold writel. intros H. inversion H; subst. auto. Qed.

Lemma kzalloc_inv sz s ok s' e :
  kzalloc sz s = (ok, s', e) -> val s' = val s /\ e = [EvKzalloc sz ok].
Proof.
  unfold kzalloc. destruct (hw_kzalloc sz (hw s)).
  intros H. inversion H; subst. auto.
Qed.

Lemma kfree_inv s u s' e :
  kfree s = (u, s', e) -> s' = s /\ e = [EvKfree].
Proof. unfold kfree. intros H. inversion H; subst. auto. Qed.

Lemma store_val_inv idx b s u s' e :
  store_val idx b s = (u, s', e) ->
  (forall j, val s' j = if Nat.eqb j idx then b else val s j) /\ e = [EvStore idx b].
Proof. unfold store_val. intros H. inversion H; subst. auto. Qed.

Lemma memcpy_val_inv d s u s' e :
  memcpy_val d s = (u, s', e) ->
  (forall j, val s' j = if Nat.ltb j (length d) then nth j d 0 else val s j)
  /\ e = [EvMemcpy d].
Proof. unfold memcpy_val. intros H. inversion H; subst. auto. Qed.

Lemma dev_err_inv msg s u s' e :
  dev_err msg s = (u, s', e) -> s' = s /\ e = [EvDevErr msg].
Proof. unfold dev_err. intros H. inversion H; subst. auto. Qed.

End Facts.

(** Take one monadic step apart. *)
Ltac inv_step H :=
  let a := fresh "a" in let s1 := fresh "s" in
  let e1 := fresh "e" in let e2 := fresh "e" in
  let H1 := fresh "Hm" in let H2 := fresh "Hk" in let He := fresh "He" in
  apply bind_inv in H; destruct H as (a & s1 & e1 & e2 & H1 & H2 & He).

Section Poller.

Context {HW : Type} {P : Platform HW}.
Implicit Types s : state HW.

(** *** The poller *)

Lemma poll_loop_spec addr cond d n s r s' evs :
  poll_loop addr cond d n s = (r, s', evs) ->
  val s' = val s /\
  exists vs vlast,
    evs = poll_log addr d vs vlast /\
    Forall (fun v => cond v = false) vs /\
    ((r = 0 /\ cond vlast = true /\ (length vs <= n)%nat) \/
     (r = - ETIMEDOUT /\ cond vlast = false /\ length vs = n)).
Proof.
  revert s r s' evs. induction n as [|n IH]; intros s r s' evs H; simpl in H.
  - inv_step H. apply readl_inv in Hm. destruct Hm as (Hv & He1 & _).
    destruct (cond a) eqn:Hc; apply ret_inv in Hk; destruct Hk as (-> & -> & ->);
      subst; (split; [assumption|]); exists [], a; simpl;
      (split; [reflexivity|]); (split; [constructor|]); auto.
  - inv_step H. apply readl_inv in Hm. destruct Hm as (Hv & He1 & _).
    destruct (cond a) eqn:Hc.
    + apply ret_inv in Hk; destruct Hk as (-> & -> & ->).
      subst. split; [assumption|]. exists [], a. simpl.
      split; [reflexivity|]. split; [constructor|]. left. repeat split; auto. lia.
    + inv_step Hk. apply udelay_inv in Hm. destruct Hm as (Hv2 & He2).
      apply IH in Hk0. destruct Hk0 as (Hv3 & vs & vlast & Hev & Hall & Hres).
      subst. split; [congruence|]. exists (a :: vs), vlast. simpl.
      split; [reflexivity|]. split; [constructor; assumption|].
      destruct Hres as [(? & ? & ?)|(? & ? & ?)]; [left|right]; repeat split; auto; lia.
Qed.

Lemma wait_status_at_spec addr flag s r s' evs :
  wait_status_at addr flag s = (r, s', evs) ->
  val s' = val s /\
  exists vs vlast,
    Forall (fun v => matches flag v = false) vs /\
    ((r = 0 /\ matches flag vlast = true /\ Z.of_nat (length vs) <= OTPC_TIMEOUT /\
      evs = poll_log addr 1 vs vlast ++ [EvWritel flag addr]) \/
     (r = - ETIMEDOUT /\ matches flag vlast = false /\
      Z.of_nat (length vs) = OTPC_TIMEOUT /\
      evs = poll_log addr 1 vs vlast)).
Proof.
  unfold wait_status_at, readl_poll_timeout_atomic. intros H.
  inv_step H. apply poll_loop_spec in Hm.
  destruct Hm as (Hv & vs & vlast & Hev & Hall & Hres).
  assert (Hn : Z.of_nat (Z.to_nat (OTPC_TIMEOUT / 1)) = OTPC_TIMEOUT) by reflexivity.
  destruct Hres as [(-> & Hc & Hlen)|(-> & Hc & Hlen)].
  - simpl in Hk. inv_step Hk. apply writel_inv in Hm. destruct Hm as (Hv2 & He2).
    apply ret_inv in Hk0. destruct Hk0 as (-> & -> & ->). subst.
    split; [congruence|]. exists vs, vlast. split; [exact Hall|]. left.
    repeat split; auto. lia.
  - simpl in Hk. apply ret_inv in Hk. destruct Hk as (-> & -> & ->). subst.
    split; [assumption|]. exists vs, vlast. split; [exact Hall|]. right.
    rewrite app_nil_r. repeat split; auto. lia.
Qed.

Lemma px30_otp_wait_status_eq flag :
  px30_otp_wait_status flag = wait_status_at OTPC_INT_STATUS flag.
Proof. reflexivity. Qed.

Lemma rk3308bs_otp_wait_status_eq flag :
  rk3308bs_otp_wait_status flag = wait_status_at OTPC_IRQ_ST flag.
Proof. reflexivity. Qed.

(** What a poll log contains. *)
Lemma elapsed_app e1 e2 : elapsed (e1 ++ e2) = elapsed e1 + elapsed e2.
Proof.
  unfold elapsed. induction e1 as [|e l IH]; simpl; [reflexivity|].
  destruct e; rewrite ?IH; lia.
Qed.

Lemma reads_of_app addr e1 e2 :
  reads_of addr (e1 ++ e2) = reads_of addr e1 ++ reads_of addr e2.
Proof. unfold reads_of. apply flat_map_app. Qed.

Lemma writes_to_app addr e1 e2 :
  writes_to addr (e1 ++ e2) = writes_to addr e1 ++ writes_to addr e2.
Proof. unfold writes_to. apply flat_map_app. Qed.

Lemma all_writes_app e1 e2 : all_writes (e1 ++ e2) = all_writes e1 ++ all_writes e2.
Proof. unfold all_writes. apply flat_map_app. Qed.

Lemma poll_log_elapsed addr d vs vlast :
  elapsed (poll_log addr d vs vlast) = d * Z.of_nat (length vs).
Proof.
  unfold poll_log. rewrite elapsed_app. simpl.
  induction vs as [|v vs IH]; [simpl; lia|].
  change (flat_map (fun v0 => [EvReadl addr v0; EvUdelay d]) (v :: vs))
    with ([EvReadl addr v; EvUdelay d]
          ++ flat_map (fun v0 => [EvReadl addr v0; EvUdelay d]) vs).
  rewrite elapsed_app. change (elapsed [EvReadl addr v; EvUdelay d]) with (d + 0).
  simpl length. lia.
Qed.

Lemma poll_log_reads addr d vs vlast :
  reads_of addr (poll_log addr d vs vlast) = vs ++ [vlast].
Proof.
  unfold poll_log. rewrite reads_of_app. f_equal.
  - induction vs as [|v vs IH]; [reflexivity|]. simpl. rewrite Z.eqb_refl.
    simpl. f_equal. exact IH.
  - simpl. rewrite Z.eqb_refl. reflexivity.
Qed.

Lemma poll_log_all_writes addr d vs vlast :
  all_writes (poll_log addr d vs vlast) = [].
Proof.
  unfold poll_log. rewrite all_writes_app. simpl.
  induction vs as [|v vs IH]; [reflexivity|]. simpl. exact IH.
Qed.

End Poller.

(** ** Status poller: timing and acknowledgement *)

Section PollerProperties.

Context {HW : Type} {P : Platform HW}.
Implicit Types s : state HW.

Lemma forallb_nomatch_iff flag vs :
  Forall (fun v => matches flag v = false) vs <->
  forallb (fun v => negb (matches flag v)) vs = true.
Proof.
  rewrite forallb_forall, Forall_forall. split; intros H v Hv.
  - rewrite (H v Hv). reflexivity.
  - apply H in Hv. destruct (matches flag v); [discriminate|reflexivity].
Qed.

Lemma existsb_nomatch flag vs :
  Forall (fun v => matches flag v = false) vs -> existsb (matches flag) vs = false.
Proof.
  induction 1 as [|v l Hv _ IH]; simpl; [reflexivity|]. rewrite Hv, IH. reflexivity.
Qed.

Lemma poll_log_unit_delays addr vs vlast :
  forallb (fun e => match e with EvUdelay us => us =? 1 | _ => true end)
    (poll_log addr 1 vs vlast) = true.
Proof.
  unfold poll_log. rewrite forallb_app. apply andb_true_intro. split; [|reflexivity].
  induction vs as [|v vs IH]; [reflexivity|]. simpl. exact IH.
Qed.

Lemma wait_status_at_timing addr flag s :
  let x := wait_status_at addr flag s in
  let rs := reads_of addr (events_of x) in
  (result_of x = 0 \/ result_of x = - ETIMEDOUT) /\
  (forallb (fun v => negb (matches flag v)) rs = true ->
   result_of x = - ETIMEDOUT /\ elapsed (events_of x) = OTPC_TIMEOUT) /\
  (existsb (matches flag) rs = true ->
   result_of x = 0 /\ elapsed (events_of x) <= OTPC_TIMEOUT) /\
  Z.of_nat (length rs) = elapsed (events_of x) + 1 /\
  unit_delays (events_of x) = true.
Proof.
  intros x rs. subst rs. destruct x as [[r s'] evs] eqn:Hx. subst x.
  apply wait_status_at_spec in Hx. destruct Hx as (_ & vs & vlast & Hall & Hres).
  unfold result_of, events_of; simpl.
  destruct Hres as [(-> & Hc & Hlen & ->)|(-> & Hc & Hlen & ->)].
  - rewrite reads_of_app, elapsed_app, poll_log_reads, poll_log_elapsed, Z.mul_1_l.
    change (reads_of addr [EvWritel flag addr]) with (@nil Z).
    change (elapsed [EvWritel flag addr]) with 0.
    rewrite app_nil_r, forallb_app, existsb_app, length_app.
    cbn [forallb existsb length]. rewrite Hc. cbn [negb andb].
    rewrite andb_false_r.
    unfold unit_delays. rewrite forallb_app, poll_log_unit_delays.
    repeat split; auto; try discriminate; lia.
  - rewrite poll_log_reads, poll_log_elapsed, Z.mul_1_l.
    rewrite forallb_app, existsb_app, length_app.
    cbn [forallb existsb length]. rewrite Hc.
    rewrite (existsb_nomatch _ _ Hall). cbn [orb].
    unfold unit_delays. rewrite poll_log_unit_delays.
    repeat split; auto; try discriminate; lia.
Qed.

Lemma wait_status_at_writes addr flag s :
  let x := wait_status_at addr flag s in
  (result_of x = 0 -> all_writes (events_of x) = [(flag, addr)]) /\
  (result_of x <> 0 -> all_writes (events_of x) = []) /\
  val (state_of x) = val s.
Proof.
  intros x. destruct x as [[r s'] evs] eqn:Hx. subst x.
  apply wait_status_at_spec in Hx. destruct Hx as (Hv & vs & vlast & Hall & Hres).
  unfold result_of, events_of, state_of; simpl.
  destruct Hres as [(-> & Hc & Hlen & ->)|(-> & Hc & Hlen & ->)].
  - rewrite all_writes_app, poll_log_all_writes. simpl.
    repeat split; auto. intros H; contradiction H; reflexivity.
  - rewrite poll_log_all_writes. repeat split; auto. discriminate.
Qed.

End PollerProperties.

(** ** The bookkeeping routines *)

Section Routines.

Context {HW : Type} {P : Platform HW}.
Implicit Types s : state HW.

Lemma poll_log_quiet addr vs vlast :
  addr = OTPC_INT_STATUS \/ addr = OTPC_IRQ_ST ->
  forallb quiet (poll_log addr 1 vs vlast) = true.
Proof.
  intros Ha. unfold poll_log. rewrite forallb_app. apply andb_true_intro. split.
  - induction vs as [|v vs IH]; [reflexivity|].
    destruct Ha as [-> | ->]; simpl; exact IH.
  - destruct Ha as [-> | ->]; reflexivity.
Qed.

Lemma wait_status_at_quiet addr flag s r s' e :
  addr = OTPC_INT_STATUS \/ addr = OTPC_IRQ_ST ->
  wait_status_at addr flag s = (r, s', e) ->
  val s' = val s /\ forallb quiet e = true /\ (r = 0 \/ r = - ETIMEDOUT) /\
  all_writes e = (if r =? 0 then [(flag, addr)] else []).
Proof.
  intros Ha H. apply wait_status_at_spec in H.
  destruct H as (Hv & vs & vlast & _ & Hres). split; [exact Hv|].
  destruct Hres as [(-> & _ & _ & ->)|(-> & _ & _ & ->)].
  - rewrite forallb_app, poll_log_quiet by exact Ha.
    rewrite all_writes_app, poll_log_all_writes.
    split; [|split; [left; reflexivity|reflexivity]].
    destruct Ha as [-> | ->]; reflexivity.
  - rewrite poll_log_quiet by exact Ha. rewrite poll_log_all_writes.
    split; [reflexivity|]. split; [right; reflexivity|reflexivity].
Qed.

Lemma px30_otp_wait_status_quiet flag s r s' e :
  px30_otp_wait_status flag s = (r, s', e) ->
  val s' = val s /\ forallb quiet e = true /\ (r = 0 \/ r = - ETIMEDOUT) /\
  all_writes e = (if r =? 0 then [(flag, OTPC_INT_STATUS)] else []).
Proof. apply wait_status_at_quiet. left; reflexivity. Qed.

Lemma rk3308bs_otp_wait_status_quiet flag s r s' e :
  rk3308bs_otp_wait_status flag s = (r, s', e) ->
  val s' = val s /\ forallb quiet e = true /\ (r = 0 \/ r = - ETIMEDOUT) /\
  all_writes e = (if r =? 0 then [(flag, OTPC_IRQ_ST)] else []).
Proof. apply wait_status_at_quiet. right; reflexivity. Qed.

End Routines.

(** Take a whole routine apart: every monadic step, every service call,
    every branch.  Calls of the driver's own routines stay as equations. *)
Ltac walk_step :=
  match goal with
  | H : bind _ _ _ = _ |- _ => inv_step H
  | H : ret _ _ = _ |- _ =>
      apply ret_inv in H; destruct H as (? & ? & ?)
  | H : clk_prepare_enable _ _ = _ |- _ =>
      apply clk_prepare_enable_inv in H; destruct H as (? & ?)
  | H : clk_disable_unprepare _ _ = _ |- _ =>
      apply clk_disable_unprepare_inv in H; destruct H as (? & ?)
  | H : reset_control_assert _ = _ |- _ =>
      apply reset_control_assert_inv in H; destruct H as (? & ?)
  | H : reset_control_deassert _ = _ |- _ =>
      apply reset_control_deassert_inv in H; destruct H as (? & ?)
  | H : udelay _ _ = _ |- _ => apply udelay_inv in H; destruct H as (? & ?)
  | H : readl _ _ = _ |- _ => apply readl_inv in H; destruct H as (? & ? & ?)
  | H : readb _ _ = _ |- _ => apply readb_inv in H; destruct H as (? & ?)
  | H : writel _ _ _ = _ |- _ => apply writel_inv in H; destruct H as (? & ?)
  | H : kzalloc _ _ = _ |- _ => apply kzalloc_inv in H; destruct H as (? & ?)
  | H : kfree _ = _ |- _ => apply kfree_inv in H; destruct H as (? & ?)
  | H : dev_err _ _ = _ |- _ => apply dev_err_inv in H; destruct H as (? & ?)
  | H : store_val _ _ _ = _ |- _ => apply store_val_inv in H; destruct H as (? & ?)
  | H : memcpy_val _ _ = _ |- _ => apply memcpy_val_inv in H; destruct H as (? & ?)
  | H : px30_otp_wait_status _ _ = _ |- _ =>
      apply px30_otp_wait_status_quiet in H; destruct H as (? & ? & ? & ?)
  | H : rk3308bs_otp_wait_status _ _ = _ |- _ =>
      apply rk3308bs_otp_wait_status_quiet in H; destruct H as (? & ? & ? & ?)
  | H : (if ?c then _ else _) _ = _ |- _ => destruct c eqn:?
  | H : (match ?x with Some _ => _ | None => _ end) _ = _ |- _ => destruct x eqn:?
  | H : (match ?x with LoopDone _ _ => _ | LoopAbort _ => _ | LoopFault => _ end) _ = _
    |- _ => destruct x eqn:?
  end.

Ltac walk := repeat (walk_step; subst).

(** Close a goal [forallb quiet (...) = true] over a concatenation. *)
Ltac quiet_tac :=
  repeat (rewrite forallb_app || (progress cbn [app forallb]));
  repeat match goal with
         | Hq : forallb quiet _ = true |- _ => rewrite Hq; clear Hq
         end;
  reflexivity.

Section Routines2.

Context {HW : Type} {P : Platform HW}.
Implicit Types s : state HW.

Lemma rockchip_otp_reset_quiet s r s' e :
  rockchip_otp_reset s = (r, s', e) ->
  val s' = val s /\ forallb quiet e = true.
Proof.
  unfold rockchip_otp_reset. intros H. walk; split; try congruence; reflexivity.
Qed.

Lemma px30_otp_ecc_enable_quiet enable s r s' e :
  px30_otp_ecc_enable enable s = (r, s', e) ->
  val s' = val s /\ forallb quiet e = true /\ (r = 0 \/ r = - ETIMEDOUT).
Proof.
  unfold px30_otp_ecc_enable. intros H. walk;
    (split; [congruence|]); (split; [|assumption]);
    quiet_tac.
Qed.

Lemma rk3308bs_otp_active_quiet s r s' e :
  rk3308bs_otp_active s = (r, s', e) ->
  val s' = val s /\ forallb quiet e = true /\ (r = 0 \/ r = - ETIMEDOUT).
Proof.
  unfold rk3308bs_otp_active, rk3308bs_otp_active_from_standby. intros H. walk;
    (split; [congruence|]); (split; [|auto]);
    quiet_tac.
Qed.

Lemma rk3308bs_otp_standby_quiet s r s' e :
  rk3308bs_otp_standby s = (r, s', e) ->
  val s' = val s /\ forallb quiet e = true /\ (r = 0 \/ r = - ETIMEDOUT).
Proof.
  unfold rk3308bs_otp_standby, rk3308bs_otp_standby_from_standby. intros H. walk;
    (split; [congruence|]); (split; [|auto]);
    quiet_tac.
Qed.

End Routines2.

(** ** The essential log *)

Lemma essential_app e1 e2 : essential (e1 ++ e2) = essential e1 ++ essential e2.
Proof. unfold essential. apply filter_app. Qed.

Lemma essential_quiet e : forallb quiet e = true -> essential e = [].
Proof.
  unfold essential. induction e as [|x e IH]; simpl; [reflexivity|].
  intros H. apply andb_prop in H. destruct H as [Hx He]. rewrite Hx. simpl. auto.
Qed.

(** Reduce [essential] of a concatenation of explicit events and quiet
    sub-logs. *)
Ltac essential_tac :=
  repeat rewrite essential_app;
  repeat match goal with
         | Hq : forallb quiet ?e = true |- _ => rewrite (essential_quiet e Hq)
         | Hq : essential ?e = _ |- _ => rewrite Hq
         end;
  repeat match goal with
         | |- context [essential (?x :: ?l)] =>
             let b := eval cbv in (negb (quiet x)) in
             match b with
             | true => change (essential (x :: l)) with (x :: essential l)
             | false => change (essential (x :: l)) with (essential l)
             end
         | |- context [essential []] => change (essential []) with (@nil event)
         end;
  cbn [app].

(** ** The byte engine *)

Section ByteEngine.

Context {HW : Type} {P : Platform HW}.
Implicit Types s : state HW.

Lemma px30_otp_read_loop_spec n : forall offset buf r0 s r s' e,
  px30_otp_read_loop n offset buf r0 s = (r, s', e) ->
  exists bs,
    (forall j, val s' j =
               if ((buf <=? j) && (j <? buf + length bs))%nat
               then nth (j - buf) bs 0 else val s j) /\
    ((length bs = n /\ essential e = user_cycles offset buf bs /\
      (n = 0%nat -> r = r0) /\ (n <> 0%nat -> r = 0)) \/
     ((length bs < n)%nat /\ r = - ETIMEDOUT /\
      essential e = user_cycles offset buf bs
                    ++ user_abort (advance offset (length bs)))).
Proof.
  induction n as [|n IH]; intros offset buf r0 s r s' e H; simpl in H.
  - walk. exists []. split.
    + intros j. simpl. rewrite Nat.add_0_r.
      destruct (buf <=? j)%nat eqn:E1, (j <? buf)%nat eqn:E2; try reflexivity.
      apply Nat.leb_le in E1. apply Nat.ltb_lt in E2. lia.
    + left. repeat split; auto. congruence.
  - walk.
    + (* the wait timed out *)
      exists []. split.
      * intros j. simpl. rewrite Nat.add_0_r.
        replace ((buf <=? j)%nat && (j <? buf)%nat) with false; [congruence|].
        destruct (buf <=? j)%nat eqn:E1, (j <? buf)%nat eqn:E2; try reflexivity.
        apply Nat.leb_le in E1. apply Nat.ltb_lt in E2. lia.
      * right. split; [simpl; lia|]. split.
        { match goal with Hr : _ = 0 \/ _ = - ETIMEDOUT |- _ => destruct Hr as [-> | ->] end;
            [discriminate|reflexivity]. }
        essential_tac. reflexivity.
    + (* one byte read, then the rest *)
      match goal with Hl : px30_otp_read_loop _ _ _ _ _ = _ |- _ =>
        apply IH in Hl; destruct Hl as (bs & Hval & Hres) end.
      match goal with
      | Hs : forall j, val _ j = if Nat.eqb j buf then ?b else _ |- _ => exists (b :: bs)
      end.
      split.
      * intros j. rewrite Hval. simpl length.
        match goal with Hs : forall j, val _ j = if Nat.eqb j buf then _ else _ |- _ =>
          rewrite Hs end.
        destruct (Nat.eqb j buf) eqn:Ej.
        { apply Nat.eqb_eq in Ej. subst j.
          replace ((S buf <=? buf)%nat) with false
            by (symmetry; apply Nat.leb_gt; lia).
          replace ((buf <=? buf)%nat) with true by (symmetry; apply Nat.leb_le; lia).
          replace ((buf <? buf + S (length bs))%nat) with true
            by (symmetry; apply Nat.ltb_lt; lia).
          simpl. rewrite Nat.sub_diag. reflexivity. }
        { apply Nat.eqb_neq in Ej.
          destruct (S buf <=? j)%nat eqn:E1.
          - apply Nat.leb_le in E1.
            replace ((buf <=? j)%nat) with true by (symmetry; apply Nat.leb_le; lia).
            replace (buf + S (length bs))%nat with (S buf + length bs)%nat by lia.
            destruct (j <? S buf + length bs)%nat; simpl; [|congruence].
            replace (j - buf)%nat with (S (j - S buf)) by lia. reflexivity.
          - apply Nat.leb_gt in E1.
            replace ((buf <=? j)%nat) with false by (symmetry; apply Nat.leb_gt; lia).
            simpl. congruence. }
      * match goal with Hr : ?x = 0 \/ ?x = - ETIMEDOUT |- _ =>
          destruct Hr as [-> | ->]; [|discriminate] end.
        destruct Hres as [(Hlen & Hess & Hz & Hnz)|(Hlen & Hr & Hess)].
        { left. split; [simpl; lia|]. split.
          - essential_tac. reflexivity.
          - split; [discriminate|]. intros _.
            destruct n; [apply Hz; reflexivity | apply Hnz; discriminate]. }
        { right. split; [simpl; lia|]. split; [exact Hr|].
          essential_tac. reflexivity. }
Qed.

Lemma px30_otp_read_shape otp offset bytes s r s' e :
  px30_otp_read otp offset bytes s = (r, s', e) ->
  px30_shape offset (Z.to_nat bytes) (val s) r (val s') (essential e).
Proof.
  unfold px30_otp_read, px30_read_end, px30_opt_pclk_phy, px30_opt_pclk, px30_otp_clk.
  intros H. walk.
  all: repeat match goal with
         | Hq : rockchip_otp_reset _ = _ |- _ =>
             apply rockchip_otp_reset_quiet in Hq; destruct Hq as (? & ?)
         | Hq : px30_otp_ecc_enable _ _ = _ |- _ =>
             apply px30_otp_ecc_enable_quiet in Hq; destruct Hq as (? & ? & ?)
         | Hq : (_ <? 0) = true |- _ => apply Z.ltb_lt in Hq
         | Hq : (_ <? 0) = false |- _ => apply Z.ltb_ge in Hq
         | Hq : negb (_ =? 0) = true |- _ =>
             apply negb_true_iff in Hq; apply Z.eqb_neq in Hq
         | Hq : negb (_ =? 0) = false |- _ =>
             apply negb_false_iff in Hq; apply Z.eqb_eq in Hq
         end.
  all: essential_tac.
  all: try match goal with
       | |- px30_shape _ _ _ _ (val ?sf) _ =>
           replace (val sf) with (val s) by congruence
       end.
  - apply px30_fail_clk; assumption.
  - apply px30_fail_pclk; assumption.
  - apply px30_fail_pclk_phy; assumption.
  - eapply px30_fail_setup; eassumption.
  - eapply px30_fail_setup; try eassumption. lia.
  - match goal with Hl : px30_otp_read_loop _ _ _ _ _ = _ |- _ =>
      apply px30_otp_read_loop_spec in Hl; destruct Hl as (bs & Hval & Hres) end.
    match goal with
    | |- px30_shape _ _ _ _ ?v _ =>
        assert (Hv : forall j, v j = if (j <? length bs)%nat then nth j bs 0 else val s j)
    end.
    { intros j.
      repeat match goal with Hq : val _ = val _ |- _ => rewrite Hq end.
      rewrite Hval. simpl. rewrite Nat.sub_0_r.
      repeat match goal with Hq : val _ = val _ |- _ => rewrite Hq end.
      reflexivity. }
    destruct Hres as [(Hlen & Hess & Hz & Hnz)|(Hlen & Hr & Hess)].
    + match goal with |- px30_shape _ _ _ ?r _ _ => assert (Hr : r = 0) end.
      { destruct (Z.to_nat bytes) eqn:En; [|apply Hnz; discriminate].
        rewrite Hz by reflexivity.
        match goal with Hx : ?x = 0 \/ ?x = - ETIMEDOUT |- _ =>
          destruct Hx as [-> | ->]; [reflexivity|] end.
        unfold ETIMEDOUT in *. lia. }
      rewrite Hr, Hess.
      match goal with
      | |- px30_shape _ _ _ _ ?v
             (EvClkEnable clk ?r1 :: EvClkEnable pclk ?r2 :: EvClkEnable pclk_phy ?r3 :: _) =>
          apply (px30_done offset _ (val s) r1 r2 r3 bs v); assumption
      end.
    + rewrite Hr, Hess.
      match goal with
      | |- px30_shape _ _ _ _ ?v
             (EvClkEnable clk ?r1 :: EvClkEnable pclk ?r2 :: EvClkEnable pclk_phy ?r3 :: _) =>
          pose proof (px30_timeout offset (Z.to_nat bytes) (val s) r1 r2 r3 bs v) as Hsh
      end.
      rewrite <- !app_assoc. apply Hsh; assumption.
Qed.

End ByteEngine.

(** ** The word engine *)

Lemma s32_range x : - 2 ^ 31 <= s32 x < 2 ^ 31.
Proof. unfold s32. pose proof (Z.mod_pos_bound (x + 2 ^ 31) (2 ^ 32)). lia. Qed.

Lemma s32_step i : 0 <= i < 2 ^ 31 -> 0 <= s32 (i + 4) -> s32 (i + 4) = i + 4.
Proof.
  unfold s32. intros Hi Hs.
  destruct (Z_lt_ge_dec (i + 4) (2 ^ 31)) as [Hlt|Hge].
  - rewrite Z.mod_small by lia. lia.
  - exfalso.
    replace (i + 4 + 2 ^ 31) with ((i + 4 - 2 ^ 31) + 1 * 2 ^ 32) in Hs by lia.
    rewrite Z.mod_add in Hs by lia. rewrite Z.mod_small in Hs by lia. lia.
Qed.

Lemma le_bytes_length w : length (le_bytes w) = 4%nat.
Proof. reflexivity. Qed.

Lemma splice_some i d l l' :
  splice i d l = Some l' ->
  0 <= i /\ i + Z.of_nat (length d) <= Z.of_nat (length l) /\
  l' = firstn (Z.to_nat i) l ++ d ++ skipn (Z.to_nat i + length d) l.
Proof.
  unfold splice. destruct ((0 <=? i) && (i + Z.of_nat (length d) <=? Z.of_nat (length l))) eqn:E;
    [|discriminate].
  intros H. inversion H; subst. apply andb_prop in E. destruct E as [E1 E2].
  apply Z.leb_le in E1. apply Z.leb_le in E2. auto.
Qed.

Lemma splice_length i d l l' : splice i d l = Some l' -> length l' = length l.
Proof.
  intros H. apply splice_some in H. destruct H as (H0 & H1 & ->).
  rewrite !length_app, length_firstn, length_skipn. lia.
Qed.

(** Two adjacent overwrites are one overwrite. *)
Lemma splice_chain (l b d : list Z) (k m : nat) :
  (k + length b <= length l)%nat ->
  let l1 := firstn k l ++ b ++ skipn (k + length b) l in
  firstn (k + length b) l1 ++ d ++ skipn (k + length b + m) l1
  = firstn k l ++ (b ++ d) ++ skipn (k + (length b + m)) l.
Proof.
  intros Hk l1. subst l1.
  assert (Hf : length (firstn k l) = k) by (rewrite length_firstn; lia).
  rewrite (app_assoc (firstn k l) b).
  remember (firstn k l ++ b) as ab eqn:Eab.
  assert (Hab : length ab = (k + length b)%nat)
    by (subst ab; rewrite length_app; lia).
  remember (skipn (k + length b) l) as c eqn:Ec.
  replace (firstn (k + length b) (ab ++ c)) with ab.
  2:{ replace (k + length b)%nat with (length ab + 0)%nat by lia.
      rewrite firstn_app_2. simpl. rewrite app_nil_r. reflexivity. }
  replace (skipn (k + length b + m) (ab ++ c)) with (skipn m c).
  2:{ rewrite skipn_app, (skipn_all2 ab) by lia. simpl. f_equal. lia. }
  subst ab c. rewrite skipn_skipn, <- !app_assoc.
  replace (m + (k + length b))%nat with (k + (length b + m))%nat by lia.
  reflexivity.
Qed.

Section WordEngine.

Context {HW : Type} {P : Platform HW}.
Implicit Types s : state HW.

Lemma rk3308bs_otp_read_loop_spec n : forall addr i buf r0 s x s' e,
  - 2 ^ 31 <= i < 2 ^ 31 ->
  rk3308bs_otp_read_loop n addr i buf r0 s = (x, s', e) ->
  val s' = val s /\
  exists ws,
    match x with
    | LoopDone r buf' =>
        length ws = n /\ essential e = word_cycles addr ws /\
        (n = 0%nat -> r = r0 /\ buf' = buf) /\
        (n <> 0%nat ->
         r = 0 /\ 0 <= i /\ i + 4 * Z.of_nat n <= Z.of_nat (length buf) /\
         buf' = firstn (Z.to_nat i) buf ++ concat (map le_bytes ws)
                ++ skipn (Z.to_nat i + 4 * n) buf)
    | LoopAbort r =>
        (length ws < n)%nat /\ r = - ETIMEDOUT /\
        essential e = word_cycles addr ws ++ word_abort (advance addr (length ws))
    | LoopFault =>
        (length ws <= n)%nat /\ essential e = word_cycles addr ws
    end.
Proof.
  induction n as [|n IH]; intros addr i buf r0 s x s' e Hi H; simpl in H.
  - walk. split; [reflexivity|]. exists [].
    split; [reflexivity|]. split; [reflexivity|]. split; [auto|].
    intros Hn. contradiction Hn. reflexivity.
  - walk.
    + (* the wait timed out *)
      split; [congruence|]. exists []. split; [simpl; lia|]. split.
      * match goal with Hr : _ = 0 \/ _ = - ETIMEDOUT |- _ => destruct Hr as [-> | ->] end;
          [discriminate|reflexivity].
      * essential_tac. reflexivity.
    + (* a word was read and stored *)
      match goal with Hr : ?x = 0 \/ ?x = - ETIMEDOUT |- _ =>
        destruct Hr as [-> | ->]; [|discriminate] end.
      match goal with Hs : splice _ (le_bytes ?w) _ = Some _ |- _ =>
        rename Hs into Hsp; set (w0 := w) in * end.
      pose proof (splice_length _ _ _ _ Hsp) as Hlen1.
      apply splice_some in Hsp. destruct Hsp as (Hi0 & Hi4 & Hbuf1).
      rewrite le_bytes_length in Hi4, Hbuf1.
      match goal with Hl : rk3308bs_otp_read_loop _ _ _ _ _ _ = _ |- _ =>
        apply IH in Hl; [|apply s32_range]; destruct Hl as (Hv & ws & Hx) end.
      split; [congruence|]. exists (w0 :: ws). destruct x as [r buf'| r |].
      * destruct Hx as (Hlen & Hess & Hz & Hnz).
        split; [simpl; lia|]. split; [essential_tac; reflexivity|].
        split; [discriminate|]. intros _.
        destruct n as [|n'].
        { destruct (Hz eq_refl) as (-> & ->). repeat split; auto; try lia.
          destruct ws; [|discriminate]. rewrite Hbuf1. reflexivity. }
        { destruct Hnz as (-> & Hi' & Hle & Hb'); [discriminate|].
          change RK3308BS_NBYTES with 4 in *.
          assert (Hs32 : s32 (i + 4) = i + 4) by (apply s32_step; lia).
          rewrite Hs32 in Hi', Hle, Hb'.
          rewrite Hlen1 in Hle.
          repeat split; auto; try lia.
          rewrite Hb', Hbuf1. simpl concat.
          replace (Z.to_nat (i + 4)) with (Z.to_nat i + length (le_bytes w0))%nat
            by (rewrite le_bytes_length; lia).
          rewrite splice_chain by (rewrite le_bytes_length; lia).
          rewrite le_bytes_length. f_equal. f_equal. f_equal. lia. }
      * destruct Hx as (Hlen & Hr & Hess).
        split; [simpl; lia|]. split; [exact Hr|]. essential_tac. reflexivity.
      * destruct Hx as (Hlen & Hess).
        split; [simpl; lia|]. essential_tac. reflexivity.
    + (* the store left the allocation *)
      match goal with Hr : ?x = 0 \/ ?x = - ETIMEDOUT |- _ =>
        destruct Hr as [-> | ->]; [|discriminate] end.
      split; [congruence|].
      match goal with Hs : splice _ (le_bytes ?w) _ = None |- _ => exists [w] end.
      split; [simpl; lia|]. essential_tac. reflexivity.
Qed.

Lemma u32_range x : 0 <= u32 x < 2 ^ 32.
Proof. unfold u32. apply Z.mod_pos_bound. lia. Qed.

Lemma rk3308bs_alloc_eq sz offset bytes :
  rk3308bs_alloc sz offset bytes = 4 * rk3308bs_addr_len sz offset bytes.
Proof.
  assert (Hr : 0 <= rk3308bs_addr_len sz offset bytes < 2 ^ 32) by apply u32_range.
  unfold rk3308bs_alloc, RK3308BS_NBYTES, u64. rewrite Z.mod_small; lia.
Qed.

Lemma concat_le_bytes_length ws :
  length (concat (map le_bytes ws)) = (4 * length ws)%nat.
Proof.
  induction ws as [|w ws IH]; [reflexivity|].
  change (concat (map le_bytes (w :: ws)))
    with (le_bytes w ++ concat (map le_bytes ws)).
  rewrite length_app, le_bytes_length, IH. simpl. lia.
Qed.

(** A zeroed scratch buffer overwritten word by word from its start holds
    the words' bytes and nothing else. *)
Lemma scratch_filled (n : nat) (ws : list Z) (buf : list Z) :
  length ws = n ->
  buf = firstn (Z.to_nat 0) (repeat 0 (4 * n)) ++ concat (map le_bytes ws)
        ++ skipn (Z.to_nat 0 + 4 * n) (repeat 0 (4 * n)) ->
  buf = concat (map le_bytes ws).
Proof.
  intros Hlen ->. change (Z.to_nat 0) with 0%nat. simpl firstn.
  rewrite skipn_all2 by (rewrite repeat_length; lia).
  rewrite app_nil_r. reflexivity.
Qed.

Lemma rk3308bs_otp_read_shape otp offset bytes s o s' e :
  rk3308bs_otp_read otp offset bytes s = (o, s', e) ->
  rk3308bs_shape (size (data otp)) offset bytes (val s) o (val s') (essential e).
Proof.
  unfold rk3308bs_otp_read, rk3308bs_read_end, rk3308bs_opt_pclk_phy,
    rk3308bs_opt_pclk, rk3308bs_otp_clk.
  fold (rk3308bs_bytes (size (data otp)) offset bytes).
  fold (rk3308bs_addr_len (size (data otp)) offset bytes).
  fold (rk3308bs_addr_start offset).
  fold (rk3308bs_addr_offset offset).
  fold (rk3308bs_alloc (size (data otp)) offset bytes).
  intros H. walk.
  all: repeat match goal with
         | Hq : rockchip_otp_reset _ = _ |- _ =>
             apply rockchip_otp_reset_quiet in Hq; destruct Hq as (? & ?)
         | Hq : rk3308bs_otp_active _ = _ |- _ =>
             apply rk3308bs_otp_active_quiet in Hq; destruct Hq as (? & ? & ?)
         | Hq : rk3308bs_otp_standby _ = _ |- _ =>
             apply rk3308bs_otp_standby_quiet in Hq; destruct Hq as (? & ? & ?)
         | Hq : rk3308bs_otp_read_loop _ _ _ _ _ _ = _ |- _ =>
             apply rk3308bs_otp_read_loop_spec in Hq;
             [destruct Hq as (? & ? & ?)
             | split; [apply Z.leb_le | apply Z.ltb_lt]; reflexivity]
         | Hq : (_ <? 0) = true |- _ => apply Z.ltb_lt in Hq
         | Hq : (_ <? 0) = false |- _ => apply Z.ltb_ge in Hq
         | Hq : (_ >=? _) = true |- _ => apply Z.geb_le in Hq
         | Hq : (_ >=? _) = false |- _ => rewrite Z.geb_leb in Hq; apply Z.leb_gt in Hq
         | Hq : negb (_ =? 0) = true |- _ =>
             apply negb_true_iff in Hq; apply Z.eqb_neq in Hq
         | Hq : negb (_ =? 0) = false |- _ =>
             apply negb_false_iff in Hq; apply Z.eqb_eq in Hq
         | Hq : negb ?b = true |- _ => apply negb_true_iff in Hq; subst b
         | Hq : negb ?b = false |- _ => apply negb_false_iff in Hq; subst b
         end.
  all: essential_tac.
  all: try match goal with
       | |- rk3308bs_shape _ _ _ _ _ (val ?sf) _ =>
           replace (val sf) with (val s) by congruence
       end.
  - apply rk_out_of_range; assumption.
  - apply rk_fail_clk; assumption.
  - apply rk_fail_pclk; assumption.
  - apply rk_fail_pclk_phy; assumption.
  - eapply rk_fail_setup; eassumption.
  - eapply rk_fail_setup; eassumption.
  - match goal with
    | |- rk3308bs_shape _ _ _ _ _ _
           (EvClkEnable clk ?r1 :: EvClkEnable pclk ?r2 :: EvClkEnable pclk_phy ?r3 :: _) =>
        apply (rk_fail_alloc _ _ _ _ r1 r2 r3); assumption
    end.
  - (* the loop ran to its end and the copy stayed inside the scratch buffer *)
    match goal with
    | Hx : length ?ws = _ /\ _ |- _ =>
        rename ws into words; destruct Hx as (Hlen & Hess & Hz & Hnz)
    end.
    pose proof (rk3308bs_alloc_eq (size (data otp)) offset bytes) as Halloc.
    assert (Hal : 0 <= rk3308bs_addr_len (size (data otp)) offset bytes < 2 ^ 32)
      by apply u32_range.
    assert (Hn : Z.to_nat (rk3308bs_alloc (size (data otp)) offset bytes)
                 = (4 * Z.to_nat (rk3308bs_addr_len (size (data otp)) offset bytes))%nat)
      by (rewrite Halloc; lia).
    rewrite Hn in *.
    assert (Hrb : r = 0 /\ buf = concat (map le_bytes words)).
    { destruct (Z.to_nat (rk3308bs_addr_len (size (data otp)) offset bytes)) eqn:En.
      - destruct (Hz eq_refl) as (-> & ->). split; [assumption|].
        destruct words; [reflexivity|discriminate].
      - destruct Hnz as (-> & _ & _ & Hb); [discriminate|]. split; [reflexivity|].
        apply (scratch_filled (S n)); assumption. }
    destruct Hrb as (-> & ->).
    rewrite Hess.
    match goal with
    | |- rk3308bs_shape _ _ _ _ _ ?v
           (EvClkEnable clk ?r1 :: EvClkEnable pclk ?r2 :: EvClkEnable pclk_phy ?r3 :: _) =>
        apply (rk_done _ _ _ _ r1 r2 r3 words _ v); try assumption; try reflexivity
    end.
    + match goal with Hg : (_ <=? _) = true |- _ => apply Z.leb_le in Hg; rename Hg into Hguard end.
      rewrite concat_le_bytes_length in Hguard. lia.
    + intros j.
      repeat match goal with Hq : val _ = val _ |- _ => rewrite Hq end.
      match goal with Hq : forall j, val _ j = _ |- _ => rewrite Hq end.
      repeat match goal with Hq : val _ = val _ |- _ => rewrite Hq end.
      reflexivity.
  - (* the copy would leave the scratch buffer *)
    match goal with
    | Hx : length ?ws = _ /\ _ |- _ => destruct Hx as (Hlen & Hess & _)
    end.
    rewrite Hess, app_nil_r.
    match goal with
    | |- rk3308bs_shape _ _ _ _ _ _
           (EvClkEnable clk ?r1 :: EvClkEnable pclk ?r2 :: EvClkEnable pclk_phy ?r3
            :: _ :: word_cycles _ ?ws) =>
        apply (rk_fault _ _ _ _ r1 r2 r3 ws); try assumption; lia
    end.
  - (* a wait inside the loop timed out *)
    match goal with
    | Hx : (length ?ws < _)%nat /\ _ |- _ => destruct Hx as (Hlen & -> & Hess)
    end.
    rewrite Hess, <- !app_assoc.
    match goal with
    | |- rk3308bs_shape _ _ _ _ _ _
           (EvClkEnable clk ?r1 :: EvClkEnable pclk ?r2 :: EvClkEnable pclk_phy ?r3
            :: _ :: word_cycles _ ?ws ++ _) =>
        apply (rk_timeout _ _ _ _ r1 r2 r3 ws); assumption
    end.
  - (* a store inside the loop left the scratch buffer *)
    match goal with
    | Hx : (length ?ws <= _)%nat /\ _ |- _ => destruct Hx as (Hlen & Hess)
    end.
    rewrite Hess, app_nil_r.
    match goal with
    | |- rk3308bs_shape _ _ _ _ _ _
           (EvClkEnable clk ?r1 :: EvClkEnable pclk ?r2 :: EvClkEnable pclk_phy ?r3
            :: _ :: word_cycles _ ?ws) =>
        apply (rk_fault _ _ _ _ r1 r2 r3 ws); assumption
    end.
Qed.

End WordEngine.

(** ** Projections of the essential log *)

Lemma flat_map_essential {X : Type} (sel : event -> list X) :
  (forall x, quiet x = true -> sel x = []) ->
  forall e, flat_map sel e = flat_map sel (essential e).
Proof.
  intros Hq e. unfold essential. induction e as [|x e IH]; [reflexivity|].
  simpl. destruct (quiet x) eqn:E; simpl.
  - rewrite (Hq x E). exact IH.
  - rewrite IH. reflexivity.
Qed.

Lemma clk_events_essential e : clk_events e = clk_events (essential e).
Proof. apply flat_map_essential. intros [] H; try reflexivity; discriminate. Qed.

Lemma memcpys_essential e : memcpys e = memcpys (essential e).
Proof. apply flat_map_essential. intros [] H; try reflexivity; discriminate. Qed.

Lemma stores_essential e : stores e = stores (essential e).
Proof. apply flat_map_essential. intros [] H; try reflexivity; discriminate. Qed.

Lemma allocs_essential e : allocs e = allocs (essential e).
Proof. apply flat_map_essential. intros [] H; try reflexivity; discriminate. Qed.

Lemma readbs_of_essential addr e : readbs_of addr e = readbs_of addr (essential e).
Proof. apply flat_map_essential. intros [] H; try reflexivity; discriminate. Qed.

Lemma reads_of_rd_data_essential e :
  reads_of OTPC_RD_DATA e = reads_of OTPC_RD_DATA (essential e).
Proof.
  apply flat_map_essential. intros [] H; try reflexivity.
  destruct (addr =? OTPC_RD_DATA) eqn:E; [|reflexivity].
  apply Z.eqb_eq in E. subst. discriminate.
Qed.

Lemma writes_to_access_addr_essential e :
  writes_to OTPC_ACCESS_ADDR e = writes_to OTPC_ACCESS_ADDR (essential e).
Proof.
  apply flat_map_essential. intros [] H; try reflexivity.
  destruct (addr =? OTPC_ACCESS_ADDR) eqn:E; [|reflexivity].
  apply Z.eqb_eq in E. subst. discriminate.
Qed.

Lemma writes_to_user_addr_essential e :
  writes_to OTPC_USER_ADDR e = writes_to OTPC_USER_ADDR (essential e).
Proof.
  apply flat_map_essential. intros [] H; try reflexivity.
  destruct (addr =? OTPC_USER_ADDR) eqn:E; [|reflexivity].
  apply Z.eqb_eq in E. subst. discriminate.
Qed.

Lemma loop_timeout_essential e :
  existsb loop_timeout e = existsb loop_timeout (essential e).
Proof.
  unfold essential. induction e as [|x e IH]; [reflexivity|].
  simpl. destruct (quiet x) eqn:E; simpl.
  - rewrite IH. destruct x; try reflexivity; try discriminate.
    simpl in E. apply negb_true_iff in E. simpl. rewrite E. reflexivity.
  - rewrite IH. reflexivity.
Qed.

Lemma enabled_after_essential e : forall on,
  enabled_after on e = enabled_after on (essential e).
Proof.
  unfold essential. induction e as [|x e IH]; intros on; [reflexivity|].
  simpl. destruct (quiet x) eqn:E.
  - destruct x; try discriminate; simpl; apply IH.
  - destruct x; simpl; apply IH.
Qed.

Lemma failed_enable_essential e : failed_enable e = failed_enable (essential e).
Proof.
  unfold essential. induction e as [|x e IH]; [reflexivity|].
  simpl. destruct (quiet x) eqn:E.
  - destruct x; try discriminate; simpl; apply IH.
  - destruct x; simpl; try apply IH. rewrite IH. reflexivity.
Qed.

(** What the cycles of the two engines contain. *)

Lemma clk_events_app e1 e2 : clk_events (e1 ++ e2) = clk_events e1 ++ clk_events e2.
Proof. apply flat_map_app. Qed.

Lemma memcpys_app e1 e2 : memcpys (e1 ++ e2) = memcpys e1 ++ memcpys e2.
Proof. apply flat_map_app. Qed.

Lemma stores_app e1 e2 : stores (e1 ++ e2) = stores e1 ++ stores e2.
Proof. apply flat_map_app. Qed.

Lemma allocs_app e1 e2 : allocs (e1 ++ e2) = allocs e1 ++ allocs e2.
Proof. apply flat_map_app. Qed.

Lemma readbs_of_app addr e1 e2 :
  readbs_of addr (e1 ++ e2) = readbs_of addr e1 ++ readbs_of addr e2.
Proof. apply flat_map_app. Qed.

Lemma word_cycles_clk a ws : clk_events (word_cycles a ws) = [].
Proof. revert a. induction ws as [|w ws IH]; intros a; simpl; auto. Qed.

Lemma word_cycles_memcpys a ws : memcpys (word_cycles a ws) = [].
Proof. revert a. induction ws as [|w ws IH]; intros a; simpl; auto. Qed.

Lemma word_cycles_allocs a ws : allocs (word_cycles a ws) = [].
Proof. revert a. induction ws as [|w ws IH]; intros a; simpl; auto. Qed.

Lemma word_cycles_stores a ws : stores (word_cycles a ws) = [].
Proof. revert a. induction ws as [|w ws IH]; intros a; simpl; auto. Qed.

Lemma word_cycles_timeout a ws : existsb loop_timeout (word_cycles a ws) = false.
Proof. revert a. induction ws as [|w ws IH]; intros a; simpl; auto. Qed.

Lemma word_cycles_reads a ws : reads_of OTPC_RD_DATA (word_cycles a ws) = ws.
Proof.
  revert a. induction ws as [|w ws IH]; intros a; [reflexivity|].
  simpl. f_equal. apply IH.
Qed.

Lemma word_cycles_addrs a ws :
  writes_to OTPC_ACCESS_ADDR (word_cycles a ws) = map (advance a) (seq 0 (length ws)).
Proof.
  revert a. induction ws as [|w ws IH]; intros a; [reflexivity|].
  simpl. f_equal. rewrite IH, <- seq_shift, map_map. reflexivity.
Qed.

Lemma word_cycles_enabled a ws on : enabled_after on (word_cycles a ws) = on.
Proof. revert a. induction ws as [|w ws IH]; intros a; simpl; auto. Qed.

Lemma word_cycles_failed a ws l :
  failed_enable (word_cycles a ws ++ l) = failed_enable l.
Proof. revert a. induction ws as [|w ws IH]; intros a; simpl; auto. Qed.

Lemma user_cycles_clk o b bs : clk_events (user_cycles o b bs) = [].
Proof. revert o b. induction bs as [|x bs IH]; intros o b; simpl; auto. Qed.

Lemma user_cycles_timeout o b bs : existsb loop_timeout (user_cycles o b bs) = false.
Proof. revert o b. induction bs as [|x bs IH]; intros o b; simpl; auto. Qed.

Lemma user_cycles_readbs o b bs : readbs_of OTPC_USER_Q (user_cycles o b bs) = bs.
Proof.
  revert o b. induction bs as [|x bs IH]; intros o b; [reflexivity|].
  simpl. f_equal. apply IH.
Qed.

Lemma user_cycles_stores o b bs :
  stores (user_cycles o b bs) = combine (seq b (length bs)) bs.
Proof.
  revert o b. induction bs as [|x bs IH]; intros o b; [reflexivity|].
  simpl. f_equal. apply IH.
Qed.

Lemma user_cycles_addrs o b bs :
  writes_to OTPC_USER_ADDR (user_cycles o b bs)
  = map (fun k => Z.lor (advance o k) OTPC_USER_ADDR_MASK) (seq 0 (length bs)).
Proof.
  revert o b. induction bs as [|x bs IH]; intros o b; [reflexivity|].
  simpl. f_equal. rewrite IH, <- seq_shift, map_map. reflexivity.
Qed.

Lemma user_cycles_enabled o b bs on : enabled_after on (user_cycles o b bs) = on.
Proof. revert o b. induction bs as [|x bs IH]; intros o b; simpl; auto. Qed.

Lemma user_cycles_failed o b bs l :
  failed_enable (user_cycles o b bs ++ l) = failed_enable l.
Proof. revert o b. induction bs as [|x bs IH]; intros o b; simpl; auto. Qed.

Lemma enabled_after_app e1 e2 on :
  enabled_after on (e1 ++ e2) = enabled_after (enabled_after on e1) e2.
Proof.
  revert on. induction e1 as [|x e1 IH]; intros on; [reflexivity|].
  destruct x; simpl; apply IH.
Qed.

(** An [unsigned int] counter that does not wrap. *)
Lemma advance_small x k :
  0 <= x -> x + Z.of_nat k < 2 ^ 32 -> advance x k = x + Z.of_nat k.
Proof.
  revert x. induction k as [|k IH]; intros x Hx Hk; simpl advance; [lia|].
  rewrite IH.
  - unfold u32. rewrite Z.mod_small by lia. lia.
  - unfold u32. rewrite Z.mod_small by lia. lia.
  - unfold u32. rewrite Z.mod_small by lia. lia.
Qed.

Lemma advance_u32 x k : 0 <= x < 2 ^ 32 -> advance x k = u32 (x + Z.of_nat k).
Proof.
  revert x. induction k as [|k IH]; intros x Hx; simpl advance.
  - rewrite Z.add_0_r. unfold u32. rewrite Z.mod_small; [reflexivity|exact Hx].
  - rewrite IH by apply u32_range. unfold u32.
    rewrite Zplus_mod_idemp_l. f_equal. lia.
Qed.

(** ** Clock gate *)

Ltac sign_tac :=
  repeat match goal with
         | H : _ < 0 |- _ => apply Z.ltb_lt in H
         | H : 0 <= _ |- _ => apply Z.ltb_ge in H
         end;
  repeat match goal with
         | H : (_ <? 0) = _ |- _ => rewrite !H
         end.

Lemma clk_events_cons x l :
  clk_events (x :: l)
  = match x with EvClkEnable _ _ | EvClkDisable _ => [x] | _ => [] end ++ clk_events l.
Proof. reflexivity. Qed.

Lemma clk_events_nil : clk_events [] = [].
Proof. reflexivity. Qed.

Ltac gate_tac :=
  unfold acquired, released, user_mode_on, user_mode_off, user_abort, word_abort;
  repeat (progress cbn [app enabled_after failed_enable]
          || rewrite clk_events_cons || rewrite clk_events_nil
          || rewrite clk_events_app
          || rewrite enabled_after_app
          || rewrite user_cycles_clk || rewrite word_cycles_clk
          || rewrite user_cycles_enabled || rewrite word_cycles_enabled
          || rewrite user_cycles_failed || rewrite word_cycles_failed);
  cbn [gate_discipline];
  sign_tac;
  cbn [negb andb remove_clk clk_id_eqb enabled_after].

Lemma px30_shape_gate offset n v0 r v l :
  px30_shape offset n v0 r v l ->
  gate_discipline (clk_events l) = true /\
  enabled_after [] l = [] /\
  (forall r', failed_enable l = Some r' -> r = r').
Proof.
  intros H. destruct H; gate_tac;
    (split; [reflexivity|]); (split; [reflexivity|]);
    intros r' Hr'; congruence.
Qed.

Lemma rk3308bs_shape_gate sz offset bytes v0 o v l :
  rk3308bs_shape sz offset bytes v0 o v l ->
  o = Fault \/
  ((gate_discipline (clk_events l) = true \/ (sz <= offset /\ clk_events l = [])) /\
   enabled_after [] l = [] /\
   (forall r', failed_enable l = Some r' -> o = Returned r')).
Proof.
  intros H. destruct H; [right; split; [right; auto|]; split; [reflexivity|discriminate]
                        | .. ];
    try (left; reflexivity); right; gate_tac;
    (split; [left; reflexivity|]); (split; [reflexivity|]);
    intros r' Hr'; congruence.
Qed.

(** ** The window of the word engine *)

Lemma rk3308bs_window sz offset bytes :
  0 <= offset < sz -> sz < 2 ^ 32 -> 0 <= bytes < 2 ^ 64 ->
  rk3308bs_addr_offset offset + rk3308bs_bytes sz offset bytes
    <= 4 * rk3308bs_addr_len sz offset bytes ->
  let n := Z.min bytes (sz - offset) in
  rk3308bs_bytes sz offset bytes = n /\
  rk3308bs_addr_offset offset = offset mod 4 /\
  rk3308bs_addr_start offset = offset / 4 + 224 /\
  rk3308bs_addr_len sz offset bytes = (offset + n + 3) / 4 - offset / 4.
Proof.
  intros Ho Hs Hb Hguard n.
  assert (Hal : 0 <= rk3308bs_addr_len sz offset bytes < 2 ^ 32) by apply u32_range.
  assert (Hao : 0 <= rk3308bs_addr_offset offset < 4)
    by (unfold rk3308bs_addr_offset, RK3308BS_NBYTES; apply Z.mod_pos_bound; lia).
  change (2 ^ 32) with 4294967296 in *. change (2 ^ 64) with 18446744073709551616 in *.
  assert (Hn : rk3308bs_bytes sz offset bytes = n).
  { unfold rk3308bs_bytes in *. subst n.
    destruct (Z_lt_ge_dec (offset + bytes) 18446744073709551616) as [Hw|Hw].
    - unfold u64 in *. change (2 ^ 64) with 18446744073709551616 in *.
      rewrite Z.mod_small in * by lia.
      destruct (offset + bytes >? sz) eqn:E.
      + apply Z.gtb_lt in E. unfold u32. change (2 ^ 32) with 4294967296.
        rewrite Z.mod_small by lia. lia.
      + rewrite Z.gtb_ltb in E. apply Z.ltb_ge in E. lia.
    - exfalso. unfold u64 in Hguard. change (2 ^ 64) with 18446744073709551616 in *.
      replace (offset + bytes) with ((offset + bytes - 18446744073709551616)
                                     + 1 * 18446744073709551616) in Hguard by lia.
      rewrite Z.mod_add in Hguard by lia. rewrite Z.mod_small in Hguard by lia.
      destruct (offset + bytes - 18446744073709551616 >? sz) eqn:E.
      + apply Z.gtb_lt in E. lia.
      + lia. }
  split; [exact Hn|]. split; [reflexivity|].
  assert (Hn0 : 0 <= n <= sz - offset) by (subst n; lia).
  unfold rk3308bs_addr_start, rk3308bs_addr_len. rewrite Hn.
  unfold rounddown, roundup, RK3308BS_NBYTES, RK3308BS_NO_SECURE_OFFSET, u32, u64.
  change (2 ^ 32) with 4294967296. change (2 ^ 64) with 18446744073709551616.
  change (4 - 1) with 3.
  assert (H1 : (offset - offset mod 4) mod 4294967296 = 4 * (offset / 4)).
  { rewrite Z.mod_small; Z.div_mod_to_equations; lia. }
  rewrite H1. replace (4 * (offset / 4) / 4) with (offset / 4)
    by (Z.div_mod_to_equations; lia).
  assert (H2 : (offset / 4) mod 4294967296 = offset / 4).
  { rewrite Z.mod_small; Z.div_mod_to_equations; lia. }
  rewrite H2.
  assert (H3 : (offset + n) mod 18446744073709551616 = offset + n)
    by (rewrite Z.mod_small; lia).
  rewrite H3.
  assert (H4 : (offset + n + 3) mod 18446744073709551616 = offset + n + 3)
    by (rewrite Z.mod_small; lia).
  rewrite H4.
  assert (H5 : ((offset + n + 3) / 4 * 4) mod 18446744073709551616
               = (offset + n + 3) / 4 * 4).
  { rewrite Z.mod_small; Z.div_mod_to_equations; lia. }
  rewrite H5. rewrite Z.div_mul by lia.
  assert (H6 : ((offset + n + 3) / 4) mod 4294967296 = (offset + n + 3) / 4).
  { rewrite Z.mod_small; Z.div_mod_to_equations; lia. }
  rewrite H6. split.
  - rewrite Z.mod_small; Z.div_mod_to_equations; lia.
  - rewrite Z.mod_small; Z.div_mod_to_equations; lia.
Qed.

(** ** Successful reads of the word engine *)

Lemma rk3308bs_shape_success sz offset bytes v0 v l :
  rk3308bs_shape sz offset bytes v0 (Returned 0) v l ->
  0 <= offset < sz -> sz < 2 ^ 32 -> 0 <= bytes < 2 ^ 64 ->
  let n := Z.min bytes (sz - offset) in
  let cnt := (offset + n + 3) / 4 - offset / 4 in
  exists r1 r2 r3 ws d,
    l = acquired r1 r2 r3 ++ [EvKzalloc (4 * cnt) true]
        ++ word_cycles (offset / 4 + 224) ws
        ++ [EvMemcpy d; EvKfree] ++ released /\
    length ws = Z.to_nat cnt /\
    d = firstn (Z.to_nat n) (skipn (Z.to_nat (offset mod 4)) (concat (map le_bytes ws))) /\
    Z.of_nat (length d) = n /\
    (forall j, v j = if (j <? length d)%nat then nth j d 0 else v0 j).
Proof.
  intros H Ho Hs Hb n cnt.
  inversion H; subst;
    try match goal with Hr : ?r < 0 |- _ => exfalso; lia end;
    try match goal with Hr : 0 <> 0 |- _ => exfalso; apply Hr; reflexivity end.
  match goal with
  | Hg : rk3308bs_addr_offset _ + _ <= _ |- _ =>
      pose proof (rk3308bs_window sz offset bytes Ho Hs Hb Hg) as (Hn & Hao & Hst & Hlen);
      rename Hg into Hguard
  end.
  fold n in Hn, Hlen. fold cnt in Hlen.
  match goal with Hw : length ws = _ |- _ => rename Hw into Hws end.
  match goal with Hw : forall j, v j = _ |- _ => rename Hw into Hv end.
  rewrite Hn, Hao in Hv, Hguard. rewrite Hlen in Hws, Hguard.
  exists r1, r2, r3, ws. eexists. rewrite rk3308bs_alloc_eq, Hst, Hlen, Hn, Hao.
  split; [reflexivity|]. split; [exact Hws|].
  split; [reflexivity|]. split; [|exact Hv].
  rewrite length_firstn, length_skipn, concat_le_bytes_length, Hws.
  assert (Hao4 : 0 <= offset mod 4 < 4) by (apply Z.mod_pos_bound; lia).
  assert (0 <= n) by (subst n; lia). lia.
Qed.

Lemma rk3308bs_read_success {HW : Type} {P : Platform HW}
    (otp : rockchip_otp) (offset bytes : Z) (s : state HW) :
  0 <= offset < size (data otp) -> size (data otp) < 2 ^ 32 -> 0 <= bytes < 2 ^ 64 ->
  let x := rk3308bs_otp_read otp offset bytes s in
  result_of x = Returned 0 ->
  let n := Z.min bytes (size (data otp) - offset) in
  let cnt := (offset + n + 3) / 4 - offset / 4 in
  exists r1 r2 r3 ws d,
    essential (events_of x)
    = acquired r1 r2 r3 ++ [EvKzalloc (4 * cnt) true]
      ++ word_cycles (offset / 4 + 224) ws
      ++ [EvMemcpy d; EvKfree] ++ released /\
    length ws = Z.to_nat cnt /\
    d = firstn (Z.to_nat n) (skipn (Z.to_nat (offset mod 4)) (concat (map le_bytes ws))) /\
    Z.of_nat (length d) = n /\
    (forall j, val (state_of x) j = if (j <? length d)%nat then nth j d 0 else val s j).
Proof.
  intros Ho Hs Hb x Hx. destruct x as [[o s'] e] eqn:E. subst x.
  unfold result_of in Hx; simpl in Hx. subst o.
  apply rk3308bs_otp_read_shape in E.
  apply (rk3308bs_shape_success _ _ _ _ _ _ E Ho Hs Hb).
Qed.

(** Projections of the log of a successful read. *)
Lemma success_log_projections r1 r2 r3 sz a ws d :
  let l := acquired r1 r2 r3 ++ [EvKzalloc sz true] ++ word_cycles a ws
           ++ [EvMemcpy d; EvKfree] ++ released in
  writes_to OTPC_ACCESS_ADDR l = map (advance a) (seq 0 (length ws)) /\
  reads_of OTPC_RD_DATA l = ws /\
  memcpys l = [d] /\ stores l = [] /\ allocs l = [(sz, true)].
Proof.
  intros l. subst l. unfold acquired, released.
  rewrite !writes_to_app, !reads_of_app, !memcpys_app, !stores_app, !allocs_app.
  rewrite word_cycles_addrs, word_cycles_reads, word_cycles_memcpys,
    word_cycles_stores, word_cycles_allocs.
  simpl. rewrite !app_nil_r. repeat split; reflexivity.
Qed.

(** ** Out-of-range requests *)

Lemma rk3308bs_shape_alloc_failure sz offset bytes v0 o v l :
  rk3308bs_shape sz offset bytes v0 o v l ->
  In false (map snd (allocs l)) -> o = Returned (- ENOMEM).
Proof.
  intros H. destruct H; unfold acquired, released;
    rewrite ?allocs_app, ?word_cycles_allocs; simpl; intros Hin;
    try contradiction; try reflexivity;
    repeat match goal with Hx : _ \/ _ |- _ => destruct Hx end;
    try contradiction; try discriminate.
Qed.

(** ** Successful reads of the byte engine *)

Lemma user_addr_field x :
  0 <= x < 2 ^ 16 -> Z.land (Z.lor x OTPC_USER_ADDR_MASK) 0xFFFF = x.
Proof.
  intros Hx. rewrite Z.land_lor_distr_l.
  change (Z.land OTPC_USER_ADDR_MASK 0xFFFF) with 0. rewrite Z.lor_0_r.
  change 0xFFFF with (Z.ones 16). rewrite Z.land_ones by lia.
  apply Z.mod_small. exact Hx.
Qed.

Lemma px30_log_projections r1 r2 r3 offset bs tail :
  let l := acquired r1 r2 r3 ++ [user_mode_on] ++ user_cycles offset 0 bs
           ++ tail ++ [user_mode_off] ++ released in
  (tail = [] \/ tail = user_abort (advance offset (length bs))) ->
  writes_to OTPC_USER_ADDR l
    = map (fun k => Z.lor (advance offset k) OTPC_USER_ADDR_MASK)
          (seq 0 (length bs + length tail / 3)) /\
  readbs_of OTPC_USER_Q l = bs /\
  stores l = combine (seq 0 (length bs)) bs.
Proof.
  intros l Ht. subst l. unfold acquired, released, user_mode_on, user_mode_off.
  rewrite !writes_to_app, !readbs_of_app, !stores_app.
  rewrite user_cycles_addrs, user_cycles_readbs, user_cycles_stores.
  destruct Ht as [-> | ->]; simpl.
  - rewrite !app_nil_r, Nat.add_0_r. repeat split; reflexivity.
  - rewrite !app_nil_r. repeat split; try reflexivity.
    rewrite seq_app, map_app. reflexivity.
Qed.

Lemma px30_read_success {HW : Type} {P : Platform HW}
    (otp : rockchip_otp) (offset bytes : Z) (s : state HW) :
  let x := px30_otp_read otp offset bytes s in
  result_of x = 0 ->
  exists r1 r2 r3 bs,
    essential (events_of x)
    = acquired r1 r2 r3 ++ [user_mode_on] ++ user_cycles offset 0 bs
      ++ [] ++ [user_mode_off] ++ released /\
    length bs = Z.to_nat bytes /\
    (forall j, val (state_of x) j
               = if (j <? length bs)%nat then nth j bs 0 else val s j).
Proof.
  intros x Hx. destruct x as [[r s'] e] eqn:E. subst x.
  unfold result_of in Hx. cbn [fst] in Hx. subst r.
  apply px30_otp_read_shape in E. unfold events_of, state_of. cbn [fst snd].
  inversion E; subst;
    try match goal with Hq : 0 < 0 |- _ => exfalso; lia end;
    try match goal with Hq : 0 <> 0 |- _ => exfalso; apply Hq; reflexivity end.
  exists r1, r2, r3, bs. repeat split; auto.
Qed.

(** ** The power-mode walk of the word engine *)

Lemma writes_to_all_writes addr e :
  writes_to addr e = map fst (filter (fun p => snd p =? addr) (all_writes e)).
Proof.
  unfold writes_to, all_writes. induction e as [|x e IH]; [reflexivity|].
  destruct x; simpl; try exact IH.
  destruct (addr0 =? addr); simpl; rewrite IH; reflexivity.
Qed.

Lemma quiet_not_read_access x : quiet x = true -> is_read_access x = false.
Proof.
  destruct x; try reflexivity. simpl. intros H.
  destruct (addr =? OTPC_MODE_CTRL) eqn:E; [|reflexivity].
  apply Z.eqb_eq in E. subst addr.
  destruct (v =? OTPC_READ_ACCESS) eqn:E2; [|reflexivity].
  apply Z.eqb_eq in E2. subst v. discriminate H.
Qed.

Lemma quiet_not_disable x : quiet x = true -> is_clk_disable x = false.
Proof. destruct x; try reflexivity. discriminate. Qed.

Lemma read_access_guarded_true e : read_access_guarded true e = true.
Proof.
  induction e as [|x e IH]; [reflexivity|]. simpl.
  destruct (is_read_access x); simpl; exact IH.
Qed.

Lemma read_access_guarded_quiet b e1 e2 :
  forallb quiet e1 = true ->
  read_access_guarded b (e1 ++ e2)
  = read_access_guarded (b || existsb activation_evidence e1) e2.
Proof.
  revert b. induction e1 as [|x e1 IH]; intros b H.
  - simpl. rewrite orb_false_r. reflexivity.
  - simpl in H. apply andb_prop in H. destruct H as [Hx He].
    simpl. rewrite (quiet_not_read_access x Hx), IH by exact He.
    rewrite orb_assoc. reflexivity.
Qed.

Lemma all_writes_evidence e :
  In (OTPC_STB2ACT_IRQ_ST, OTPC_IRQ_ST) (all_writes e) ->
  existsb activation_evidence e = true.
Proof.
  unfold all_writes. induction e as [|x e IH]; simpl; [contradiction|].
  intros H. apply in_app_or in H. destruct H as [H|H].
  - destruct x; simpl in H; try contradiction.
    destruct H as [H|[]]. inversion H; subst. reflexivity.
  - rewrite (IH H). apply orb_true_r.
Qed.

Lemma all_writes_in v a e : In (v, a) (all_writes e) -> In (EvWritel v a) e.
Proof.
  unfold all_writes. induction e as [|x e IH]; simpl; [contradiction|].
  intros H. apply in_app_or in H. destruct H as [H|H]; [|right; auto].
  destruct x; simpl in H; try contradiction.
  destruct H as [H|[]]. inversion H; subst. left. reflexivity.
Qed.

Lemma existsb_evidence_app e1 e2 :
  existsb activation_evidence (e1 ++ e2)
  = existsb activation_evidence e1 || existsb activation_evidence e2.
Proof. apply existsb_app. Qed.

Section ModeWalk.

Context {HW : Type} {P : Platform HW}.
Implicit Types s : state HW.

Lemma rockchip_otp_reset_writes s r s' e :
  rockchip_otp_reset s = (r, s', e) -> all_writes e = [].
Proof. unfold rockchip_otp_reset. intros H. walk; reflexivity. Qed.

End ModeWalk.

Section ModeWalk2.

Context {HW : Type} {P : Platform HW}.
Implicit Types s : state HW.

(** What [rk3308bs_otp_active] writes to the mode register, and what its
    success leaves in the log. *)
Lemma rk3308bs_otp_active_mode s r s' e :
  rk3308bs_otp_active s = (r, s', e) ->
  Forall (fun v => v = OTPC_STANDBY \/ v = OTPC_ACTIVE) (writes_to OTPC_MODE_CTRL e) /\
  (r = 0 -> existsb activation_evidence e = true).
Proof.
  unfold rk3308bs_otp_active, rk3308bs_otp_active_from_standby. intros H. walk.
  all: rewrite writes_to_all_writes, ?all_writes_app.
  all: repeat match goal with
         | Hr : ?x = 0 \/ ?x = - ETIMEDOUT |- _ => destruct Hr as [-> | ->]
         end.
  all: try discriminate.
  all: split.
  all: try (repeat match goal with
                   | Hw : all_writes ?l = _ |- context [all_writes ?l] => rewrite Hw
                   end;
            simpl; repeat constructor; auto; fail).
  all: try (intros Hr; discriminate Hr).
  all: intros _; apply existsb_exists.
  - exists (EvWritel OTPC_STB2ACT_IRQ_ST OTPC_IRQ_ST). split; [|reflexivity].
    match goal with
    | Hw : all_writes ?l = (if 0 =? 0 then [(OTPC_STB2ACT_IRQ_ST, _)] else []) |- _ =>
        assert (Hin : In (EvWritel OTPC_STB2ACT_IRQ_ST OTPC_IRQ_ST) l)
          by (apply all_writes_in; rewrite Hw; left; reflexivity)
    end.
    rewrite !in_app_iff. tauto.
  - exists (EvWritel OTPC_STB2ACT_IRQ_ST OTPC_IRQ_ST). split; [|reflexivity].
    match goal with
    | Hw : all_writes ?l = (if 0 =? 0 then [(OTPC_STB2ACT_IRQ_ST, _)] else []) |- _ =>
        assert (Hin : In (EvWritel OTPC_STB2ACT_IRQ_ST OTPC_IRQ_ST) l)
          by (apply all_writes_in; rewrite Hw; left; reflexivity)
    end.
    rewrite !in_app_iff. tauto.
  - match goal with |- context [EvReadl OTPC_MODE_CTRL ?a] =>
      exists (EvReadl OTPC_MODE_CTRL a) end.
    split; [left; reflexivity|].
    cbn [activation_evidence].
    repeat match goal with Hq : (_ =? _) = false |- _ => rewrite Hq; clear Hq end.
    reflexivity.
Qed.


End ModeWalk2.

Lemma quiet_no_read_access e : forallb quiet e = true -> no_read_access e = true.
Proof.
  unfold no_read_access. induction e as [|x e IH]; simpl; [reflexivity|].
  intros H. apply andb_prop in H. destruct H as [Hx He].
  rewrite (quiet_not_read_access x Hx), IH by exact He. reflexivity.
Qed.

Lemma quiet_no_disable e : forallb quiet e = true -> no_disable e = true.
Proof.
  unfold no_disable. induction e as [|x e IH]; simpl; [reflexivity|].
  intros H. apply andb_prop in H. destruct H as [Hx He].
  rewrite (quiet_not_disable x Hx), IH by exact He. reflexivity.
Qed.

Lemma no_disable_essential e : no_disable e = no_disable (essential e).
Proof.
  unfold no_disable, essential. induction e as [|x e IH]; [reflexivity|].
  simpl. destruct (quiet x) eqn:E; simpl.
  - rewrite (quiet_not_disable x E). exact IH.
  - rewrite IH. reflexivity.
Qed.

Lemma no_disable_app e1 e2 : no_disable (e1 ++ e2) = no_disable e1 && no_disable e2.
Proof. apply forallb_app. Qed.

Lemma word_cycles_no_disable a ws : no_disable (word_cycles a ws) = true.
Proof. revert a. induction ws as [|w ws IH]; intros a; simpl; auto. Qed.

Lemma allocs_quiet e : forallb quiet e = true -> allocs e = [].
Proof. intros H. rewrite allocs_essential, essential_quiet by exact H. reflexivity. Qed.

Lemma read_access_guarded_skip b e1 e2 :
  no_read_access e1 = true ->
  read_access_guarded b (e1 ++ e2)
  = read_access_guarded (b || existsb activation_evidence e1) e2.
Proof.
  unfold no_read_access. revert b. induction e1 as [|x e1 IH]; intros b H.
  - simpl. rewrite orb_false_r. reflexivity.
  - simpl in H. apply andb_prop in H. destruct H as [Hx He].
    apply negb_true_iff in Hx. simpl. rewrite Hx, IH by exact He.
    rewrite orb_assoc. reflexivity.
Qed.

Lemma peel_prefix (a l tail : list event) :
  no_disable a = true ->
  (exists pre, l = pre ++ tail /\ no_disable pre = true) ->
  exists pre, a ++ l = pre ++ tail /\ no_disable pre = true.
Proof.
  intros Ha (pre & -> & Hp). exists (a ++ pre). split.
  - rewrite app_assoc. reflexivity.
  - rewrite no_disable_app, Ha, Hp. reflexivity.
Qed.

Section ModeWalk3.

Context {HW : Type} {P : Platform HW}.
Implicit Types s : state HW.

Lemma rk3308bs_otp_read_loop_no_disable n addr i buf r0 s x s' e :
  - 2 ^ 31 <= i < 2 ^ 31 ->
  rk3308bs_otp_read_loop n addr i buf r0 s = (x, s', e) ->
  no_disable e = true.
Proof.
  intros Hi H. apply rk3308bs_otp_read_loop_spec in H; [|exact Hi].
  destruct H as (_ & ws & Hx). rewrite no_disable_essential.
  destruct x as [r buf'| r |].
  - destruct Hx as (_ & -> & _). apply word_cycles_no_disable.
  - destruct Hx as (_ & _ & ->). rewrite no_disable_app, word_cycles_no_disable.
    reflexivity.
  - destruct Hx as (_ & ->). apply word_cycles_no_disable.
Qed.

Lemma rk3308bs_otp_read_mode_walk otp offset bytes s o s' e :
  rk3308bs_otp_read otp offset bytes s = (o, s', e) ->
  read_access_guarded false e = true /\
  (allocs e = [] ->
   Forall (fun v => v = OTPC_STANDBY \/ v = OTPC_ACTIVE) (writes_to OTPC_MODE_CTRL e)) /\
  (allocs e <> [] -> o <> Fault ->
   exists s1 pre,
     e = pre ++ [EvKfree] ++ events_of (rk3308bs_otp_standby s1) ++ released /\
     no_disable pre = true).
Proof.
  unfold rk3308bs_otp_read, rk3308bs_read_end, rk3308bs_opt_pclk_phy,
    rk3308bs_opt_pclk, rk3308bs_otp_clk.
  intros H. walk.
  all: repeat match goal with
         | Hq : rockchip_otp_reset _ = _ |- _ =>
             pose proof (rockchip_otp_reset_writes _ _ _ _ Hq);
             apply rockchip_otp_reset_quiet in Hq; destruct Hq as (_ & ?)
         | Hq : rk3308bs_otp_active _ = _ |- _ =>
             pose proof (rk3308bs_otp_active_mode _ _ _ _ Hq) as (? & ?);
             apply rk3308bs_otp_active_quiet in Hq; destruct Hq as (_ & ? & _)
         | Hq : rk3308bs_otp_read_loop _ _ _ _ _ _ = _ |- _ =>
             apply rk3308bs_otp_read_loop_no_disable in Hq;
             [| split; [apply Z.leb_le | apply Z.ltb_lt]; reflexivity]
         | Hq : negb (_ =? 0) = false |- _ =>
             apply negb_false_iff in Hq; apply Z.eqb_eq in Hq; subst
         end.
  all: try match goal with
       | Hq : rk3308bs_otp_standby _ = _ |- _ =>
           pose proof (rk3308bs_otp_standby_quiet _ _ _ _ Hq) as (_ & ? & _)
       end.
  all: split; [|split].
  (* every read-access write follows the activation *)
  all: try (match goal with |- read_access_guarded _ _ = true => idtac end;
            repeat (rewrite read_access_guarded_skip
                      by first [reflexivity | apply quiet_no_read_access; assumption]);
            first
              [ reflexivity
              | match goal with
                | |- read_access_guarded ?b ?l = true =>
                    replace b with true; [apply read_access_guarded_true|]
                end;
                symmetry;
                match goal with
                | Hev : 0 = 0 -> existsb activation_evidence ?x = true |- _ =>
                    rewrite (Hev eq_refl)
                end;
                repeat match goal with
                       | |- context [existsb activation_evidence ?l] =>
                           destruct (existsb activation_evidence l)
                       end;
                reflexivity ]).
  (* before the allocation only the activation writes the mode register *)
  all: try (match goal with |- allocs _ = [] -> _ => idtac end;
            intros Hal;
            first
              [ exfalso; revert Hal; rewrite ?allocs_app;
                repeat match goal with
                       | Hq : forallb quiet ?l = true |- _ =>
                           rewrite (allocs_quiet l Hq); clear Hq
                       end;
                simpl; discriminate
              | rewrite ?writes_to_app;
                repeat match goal with
                       | Hq : all_writes ?l = [] |- _ =>
                           rewrite (writes_to_all_writes _ l), Hq; clear Hq
                       end;
                simpl; rewrite ?app_nil_r; first [assumption | constructor] ]).
  (* after the allocation the walk-down precedes the release *)
  all: try (match goal with |- allocs _ <> [] -> _ => idtac end;
            intros Hal Hf;
            first
              [ exfalso; apply Hf; reflexivity
              | exfalso; apply Hal; rewrite ?allocs_app;
                repeat match goal with
                       | Hq : forallb quiet ?l = true |- _ =>
                           rewrite (allocs_quiet l Hq); clear Hq
                       end;
                reflexivity
              | match goal with
                | Hq : rk3308bs_otp_standby ?s1 = _ |- _ => exists s1; rewrite Hq
                end;
                unfold events_of; cbn [snd];
                repeat first
                  [ (exists []; split; reflexivity)
                  | apply peel_prefix;
                    [ first [ reflexivity
                            | apply quiet_no_disable; assumption
                            | assumption ] | ] ] ]).
Qed.

End ModeWalk3.

Section ModeWalk4.

Context {HW : Type} {P : Platform HW}.
Implicit Types s : state HW.


End ModeWalk4.

Section ModeWalk5.

Context {HW : Type} {P : Platform HW}.
Implicit Types s : state HW.


End ModeWalk5.

(** ** Time-outs inside the read loops *)

Lemma rk3308bs_shape_timeout sz offset bytes v0 o v l :
  rk3308bs_shape sz offset bytes v0 o v l ->
  existsb loop_timeout l = true ->
  o = Returned (- ETIMEDOUT) /\ v = v0 /\ memcpys l = [] /\ stores l = [] /\
  allocs l <> [].
Proof.
  intros H. destruct H; unfold acquired, released, word_abort;
    rewrite ?existsb_app, ?word_cycles_timeout; simpl;
    try discriminate.
  intros _. rewrite !memcpys_app, !stores_app, !allocs_app,
    word_cycles_memcpys, word_cycles_stores, word_cycles_allocs.
  simpl. repeat split; try reflexivity. discriminate.
Qed.

Lemma px30_shape_timeout offset n v0 r v l :
  px30_shape offset n v0 r v l ->
  existsb loop_timeout l = true ->
  r = - ETIMEDOUT /\
  exists r1 r2 r3 bs,
    l = acquired r1 r2 r3 ++ [user_mode_on] ++ user_cycles offset 0 bs
        ++ user_abort (advance offset (length bs)) ++ [user_mode_off] ++ released /\
    (length bs < n)%nat /\
    (forall j, v j = if (j <? length bs)%nat then nth j bs 0 else v0 j).
Proof.
  intros H. destruct H; unfold acquired, released, user_mode_on, user_mode_off;
    rewrite ?existsb_app, ?user_cycles_timeout; simpl;
    try discriminate.
  intros _. split; [reflexivity|]. exists r1, r2, r3, bs. repeat split; auto.
Qed.

(** ** The driver on the register model *)

(** Every request of up to 9 bytes, and of 128 and 1000 bytes, at every
    offset of the 0x80-byte array returns the requested cells, clamped at the
    end of the array. *)
Lemma word_engine_on_register_model :
  forallb (fun o => forallb (word_engine_reads_cells o) (seq 0 10 ++ [128; 1000])%nat)
          (seq 0 128) = true.
Proof. vm_compute. reflexivity. Qed.

(** Every request of up to 5 bytes inside the 0x40-byte array, and the
    request up to its end, at every offset returns the requested cells. *)
Lemma byte_engine_on_register_model :
  forallb (fun o => forallb (byte_engine_reads_cells o)
                      (seq 0 (Nat.min 6 (65 - o)) ++ [64 - o])%nat)
          (seq 0 64) = true.
Proof. vm_compute. reflexivity. Qed.

(** * The claims *)

(** C1 (word engine).  For a request with offset below the declared size, a
    call that succeeds has programmed the word addresses floor(offset/4)+224
    up to ceil((offset+n)/4)-1+224 in ascending order, n being the clamped
    length, has read one 32-bit word for each, and has copied to the caller
    the n bytes found at position offset mod 4 of the concatenated
    little-endian bytes of those words; the rest of the caller's buffer is
    untouched.  The essential log shows each data read right after its
    address was programmed. *)
Theorem C1_window_roundtrip :
  forall (HW : Type) (P : Platform HW) (otp : rockchip_otp) (offset bytes : Z)
         (s : state HW),
    0 <= offset < size (data otp) -> size (data otp) < 2 ^ 32 ->
    0 <= bytes < 2 ^ 64 ->
    let x := rk3308bs_otp_read otp offset bytes s in
    result_of x = Returned 0 ->
    let n := Z.min bytes (size (data otp) - offset) in
    let addr_start := offset / 4 + 224 in
    let addr_end := (offset + n + 3) / 4 - 1 + 224 in
    let words := reads_of OTPC_RD_DATA (events_of x) in
    let d := firstn (Z.to_nat n)
               (skipn (Z.to_nat (offset mod 4)) (concat (map le_bytes words))) in
    writes_to OTPC_ACCESS_ADDR (events_of x)
      = map (fun k => addr_start + Z.of_nat k)
            (seq 0 (Z.to_nat (addr_end - addr_start + 1))) /\
    length words = Z.to_nat (addr_end - addr_start + 1) /\
    memcpys (events_of x) = [d] /\
    Z.of_nat (length d) = n /\
    (forall j, (j < Z.to_nat n)%nat -> val (state_of x) j = nth j d 0) /\
    (forall j, (Z.to_nat n <= j)%nat -> val (state_of x) j = val s j) /\
    (exists r1 r2 r3,
        essential (events_of x)
        = acquired r1 r2 r3
          ++ [EvKzalloc (4 * (addr_end - addr_start + 1)) true]
          ++ word_cycles addr_start words
          ++ [EvMemcpy d; EvKfree] ++ released).
Proof.
  intros HW P otp offset bytes s Ho Hs Hb x Hx n addr_start addr_end words d.
  destruct (rk3308bs_read_success otp offset bytes s Ho Hs Hb Hx)
    as (r1 & r2 & r3 & ws & d' & Hess & Hlen & Hd & Hn & Hv).
  fold x in Hess, Hv. fold n in Hess, Hlen, Hd, Hn.
  assert (Hcnt : addr_end - addr_start + 1 = (offset + n + 3) / 4 - offset / 4)
    by (subst addr_end addr_start; lia).
  rewrite <- Hcnt in Hess, Hlen. fold addr_start in Hess.
  destruct (success_log_projections r1 r2 r3 (4 * (addr_end - addr_start + 1))
              addr_start ws d') as (Hw & Hr & Hm & _ & _).
  assert (Hwords : words = ws).
  { subst words. rewrite reads_of_rd_data_essential, Hess. exact Hr. }
  assert (Hdd : d = d') by (subst d; rewrite Hwords; symmetry; exact Hd).
  rewrite Hdd, Hwords.
  rewrite writes_to_access_addr_essential, memcpys_essential, Hess, Hw, Hm.
  assert (Hcnt0 : 0 <= (offset + n + 3) / 4 - offset / 4 < 2 ^ 30 + 1).
  { assert (0 <= n <= size (data otp) - offset) by (subst n; lia).
    change (2 ^ 32) with 4294967296 in *. change (2 ^ 30) with 1073741824.
    Z.div_mod_to_equations. lia. }
  split.
  { rewrite Hlen. apply map_ext_in. intros k Hk. apply in_seq in Hk.
    apply advance_small.
    - subst addr_start. Z.div_mod_to_equations. lia.
    - subst addr_start. change (2 ^ 32) with 4294967296 in *.
      change (2 ^ 30) with 1073741824 in *. Z.div_mod_to_equations. lia. }
  split; [exact Hlen|]. split; [reflexivity|]. split; [exact Hn|].
  split; [|split].
  - intros j Hj. rewrite Hv.
    replace (j <? length d')%nat with true; [reflexivity|].
    symmetry. apply Nat.ltb_lt. lia.
  - intros j Hj. rewrite Hv.
    replace (j <? length d')%nat with false; [reflexivity|].
    symmetry. apply Nat.ltb_ge. lia.
  - exists r1, r2, r3. reflexivity.
Qed.

(** The request of the spec's example, offset 1 and length 5: two words, at
    224 and 225, and the bytes of cells 1 to 5. *)
Lemma C1_window_roundtrip_witness :
  let x := rk3308bs_otp_read Mock.rk3308bs 1 5 (Mock.caller (Mock.device Mock.fuses 100)) in
  writes_to OTPC_ACCESS_ADDR (events_of x) = [224; 225] /\
  memcpys (events_of x)
    = [firstn 5 (skipn 1 (concat (map le_bytes (reads_of OTPC_RD_DATA (events_of x)))))] /\
  Mock.peek 5 (state_of x) = [2; 3; 4; 5; 6].
Proof.
  intros x.
  destruct (C1_window_roundtrip Mock.otpc Mock.mock_platform Mock.rk3308bs 1 5
              (Mock.caller (Mock.device Mock.fuses 100)))
    as (Ha & _ & Hm & _).
  - vm_compute. split; [discriminate|reflexivity].
  - reflexivity.
  - vm_compute. split; [discriminate|reflexivity].
  - vm_compute. reflexivity.
  - split; [exact Ha|]. split; [exact Hm|]. vm_compute. reflexivity.
Defined.

(** C2 (word engine).  For a request with offset below the declared size, a
    call that succeeds writes exactly min(length, size - offset) bytes into
    the caller's buffer, in one memcpy and with no other store: size - offset
    bytes when offset + length exceeds the size, length bytes otherwise.
    After the call the caller's buffer holds the copied bytes at the indices
    below that number and is unchanged from that index on. *)
Theorem C2_clamped_length :
  forall (HW : Type) (P : Platform HW) (otp : rockchip_otp) (offset bytes : Z)
         (s : state HW),
    0 <= offset < size (data otp) -> size (data otp) < 2 ^ 32 ->
    0 <= bytes < 2 ^ 64 ->
    let x := rk3308bs_otp_read otp offset bytes s in
    result_of x = Returned 0 ->
    exists d,
      memcpys (events_of x) = [d] /\ stores (events_of x) = [] /\
      Z.of_nat (length d) = Z.min bytes (size (data otp) - offset) /\
      (size (data otp) < offset + bytes ->
       Z.of_nat (length d) = size (data otp) - offset) /\
      (offset + bytes <= size (data otp) -> Z.of_nat (length d) = bytes) /\
      (forall j, val (state_of x) j
                 = if (j <? length d)%nat then nth j d 0 else val s j).
Proof.
  intros HW P otp offset bytes s Ho Hs Hb x Hx.
  destruct (rk3308bs_read_success otp offset bytes s Ho Hs Hb Hx)
    as (r1 & r2 & r3 & ws & d & Hess & Hlen & Hd & Hn & Hv).
  subst x. exists d. rewrite memcpys_essential, stores_essential, Hess.
  destruct (success_log_projections r1 r2 r3
              (4 * ((offset + Z.min bytes (size (data otp) - offset) + 3) / 4 - offset / 4))
              (offset / 4 + 224) ws d) as (_ & _ & Hm & Hst & _).
  rewrite Hm, Hst. repeat split; try reflexivity; try lia. exact Hv.
Qed.

Lemma C2_clamped_length_witness :
  let x := rk3308bs_otp_read Mock.rk3308bs 0x7E 4
             (Mock.caller (Mock.device Mock.fuses 100)) in
  exists d,
    memcpys (events_of x) = [d] /\
    Z.of_nat (length d) = 2 /\
    (forall j, val (state_of x) j
               = if (j <? length d)%nat then nth j d 0 else 0xEE) /\
    Mock.peek 4 (state_of x) = [127; 128; 0xEE; 0xEE].
Proof.
  intros x.
  destruct (C2_clamped_length Mock.otpc Mock.mock_platform Mock.rk3308bs 0x7E 4
              (Mock.caller (Mock.device Mock.fuses 100)))
    as (d & Hm & _ & Hl & _ & _ & Hv).
  - vm_compute. split; [discriminate|reflexivity].
  - reflexivity.
  - vm_compute. split; [discriminate|reflexivity].
  - vm_compute. reflexivity.
  - exists d. split; [exact Hm|]. split; [exact Hl|]. split; [exact Hv|].
    vm_compute. reflexivity.
Defined.




(** C4 (byte engine).  A call that succeeds on a request of N bytes at
    [offset] has run exactly N cycles: the i-th cycle writes offset+i (an
    [unsigned int]), or-ed with the address-enable mask, to the address
    register, pulses the enable register, reads one byte from the data
    register and stores it at index i of the caller's buffer.  When the
    range lies inside the 32-bit offset space the offsets are offset,
    offset+1, ..., offset+N-1, each one more than the one before; when it
    lies inside the 16-bit address field, the field holds offset+i itself. *)
Theorem C4_byte_cycles :
  forall (HW : Type) (P : Platform HW) (otp : rockchip_otp) (offset bytes : Z)
         (s : state HW),
    0 <= offset < 2 ^ 32 -> 0 <= bytes ->
    let x := px30_otp_read otp offset bytes s in
    result_of x = 0 ->
    let N := Z.to_nat bytes in
    let bs := readbs_of OTPC_USER_Q (events_of x) in
    writes_to OTPC_USER_ADDR (events_of x)
      = map (fun i => Z.lor (u32 (offset + Z.of_nat i)) OTPC_USER_ADDR_MASK) (seq 0 N) /\
    length bs = N /\
    stores (events_of x) = combine (seq 0 N) bs /\
    (forall i, (i < N)%nat -> val (state_of x) i = nth i bs 0) /\
    (forall i, (N <= i)%nat -> val (state_of x) i = val s i) /\
    (offset + bytes <= 2 ^ 32 ->
     writes_to OTPC_USER_ADDR (events_of x)
     = map (fun i => Z.lor (offset + Z.of_nat i) OTPC_USER_ADDR_MASK) (seq 0 N)) /\
    (offset + bytes <= 2 ^ 16 ->
     forall i, (i < N)%nat ->
       Z.land (nth i (writes_to OTPC_USER_ADDR (events_of x)) 0) 0xFFFF
       = offset + Z.of_nat i) /\
    (exists r1 r2 r3,
        essential (events_of x)
        = acquired r1 r2 r3 ++ [user_mode_on] ++ user_cycles offset 0 bs
          ++ [user_mode_off] ++ released).
Proof.
  intros HW P otp offset bytes s Ho Hb x Hx N bs.
  destruct (px30_read_success otp offset bytes s Hx)
    as (r1 & r2 & r3 & bs0 & Hess & Hlen & Hv).
  fold x in Hess, Hv.
  destruct (px30_log_projections r1 r2 r3 offset bs0 []) as (Hw & Hrb & Hst);
    [left; reflexivity|].
  rewrite <- Hess in Hw, Hrb, Hst.
  rewrite <- writes_to_user_addr_essential in Hw.
  rewrite <- readbs_of_essential in Hrb. rewrite <- stores_essential in Hst.
  change (length (@nil event) / 3)%nat with 0%nat in Hw.
  rewrite Nat.add_0_r, Hlen in Hw. fold N in Hw, Hlen.
  assert (Hbs : bs = bs0) by exact Hrb.
  assert (Hwr : writes_to OTPC_USER_ADDR (events_of x)
                = map (fun i => Z.lor (u32 (offset + Z.of_nat i)) OTPC_USER_ADDR_MASK)
                      (seq 0 N)).
  { rewrite Hw. apply map_ext. intros k. rewrite advance_u32 by exact Ho. reflexivity. }
  assert (Hwr32 : offset + bytes <= 2 ^ 32 ->
                  writes_to OTPC_USER_ADDR (events_of x)
                  = map (fun i => Z.lor (offset + Z.of_nat i) OTPC_USER_ADDR_MASK)
                        (seq 0 N)).
  { intros H32. rewrite Hwr. apply map_ext_in. intros k Hk. apply in_seq in Hk.
    unfold u32. rewrite Z.mod_small by lia. reflexivity. }
  rewrite Hbs. split; [exact Hwr|]. split; [exact Hlen|].
  split; [rewrite Hst, Hlen; reflexivity|].
  split; [|split; [|split; [|split]]].
  - intros i Hi. rewrite Hv.
    replace (i <? length bs0)%nat with true; [reflexivity|].
    symmetry. apply Nat.ltb_lt. lia.
  - intros i Hi. rewrite Hv.
    replace (i <? length bs0)%nat with false; [reflexivity|].
    symmetry. apply Nat.ltb_ge. lia.
  - exact Hwr32.
  - intros H16 i Hi.
    rewrite Hwr32 by (change (2 ^ 16) with 65536 in H16;
                      change (2 ^ 32) with 4294967296; lia).
    rewrite (nth_indep _ 0 (Z.lor (offset + Z.of_nat 0) OTPC_USER_ADDR_MASK))
      by (rewrite length_map, length_seq; exact Hi).
    rewrite (map_nth (fun i => Z.lor (offset + Z.of_nat i) OTPC_USER_ADDR_MASK)).
    rewrite seq_nth by exact Hi. apply user_addr_field. lia.
  - exists r1, r2, r3. exact Hess.
Qed.

Lemma C4_byte_cycles_witness :
  let x := px30_otp_read Mock.px30 3 4 (Mock.caller (Mock.device Mock.fuses 100)) in
  writes_to OTPC_USER_ADDR (events_of x)
    = map (fun i => Z.lor (3 + Z.of_nat i) OTPC_USER_ADDR_MASK) (seq 0 4) /\
  stores (events_of x) = combine (seq 0 4) (readbs_of OTPC_USER_Q (events_of x)) /\
  Mock.peek 4 (state_of x) = [4; 5; 6; 7].
Proof.
  intros x.
  destruct (C4_byte_cycles Mock.otpc Mock.mock_platform Mock.px30 3 4
              (Mock.caller (Mock.device Mock.fuses 100)))
    as (Hw & _ & Hs & _).
  - vm_compute. split; [discriminate|reflexivity].
  - discriminate.
  - vm_compute. reflexivity.
  - subst x. split; [|split; [exact Hs|vm_compute; reflexivity]].
    rewrite Hw. vm_compute. reflexivity.
Defined.




(** C6 (both read functions).  The clock events of a call are: the three
    enables in the order clk, pclk, pclk_phy, stopping at the first one that
    fails; the clocks enabled before a failing one are disabled in reverse
    order and the failing result is returned; after a full acquisition the
    three clocks are disabled in the order pclk_phy, pclk, clk on every path
    that returns.  No clock is left enabled when the call returns.  (The word
    engine does not touch the clocks at all when the offset is out of range,
    and does not return when it runs outside its scratch allocation.) *)
Theorem C6_clock_gate :
  forall (HW : Type) (P : Platform HW) (otp : rockchip_otp) (offset bytes : Z)
         (s : state HW),
    let a := px30_otp_read otp offset bytes s in
    let b := rk3308bs_otp_read otp offset bytes s in
    (gate_discipline (clk_events (events_of a)) = true /\
     enabled_after [] (events_of a) = [] /\
     (forall r, failed_enable (events_of a) = Some r -> result_of a = r)) /\
    (result_of b = Fault \/
     ((gate_discipline (clk_events (events_of b)) = true \/
       (size (data otp) <= offset /\ clk_events (events_of b) = [])) /\
      enabled_after [] (events_of b) = [] /\
      (forall r, failed_enable (events_of b) = Some r -> result_of b = Returned r))).
Proof.
  intros HW P otp offset bytes s a b. split.
  - destruct a as [[r s'] e] eqn:Ha. subst a.
    apply px30_otp_read_shape in Ha. apply px30_shape_gate in Ha.
    unfold result_of, events_of; simpl.
    rewrite clk_events_essential, enabled_after_essential, failed_enable_essential.
    exact Ha.
  - destruct b as [[o s'] e] eqn:Hb. subst b.
    apply rk3308bs_otp_read_shape in Hb. apply rk3308bs_shape_gate in Hb.
    unfold result_of, events_of; simpl.
    rewrite clk_events_essential, enabled_after_essential, failed_enable_essential.
    exact Hb.
Qed.

Lemma C6_clock_gate_witness :
  let dev := Mock.device Mock.fuses 100 in
  let bad := {| Mock.regs := Mock.regs dev; Mock.cells := Mock.cells dev;
                Mock.credit := Mock.credit dev;
                Mock.clk_rc := fun c => if clk_id_eqb c pclk_phy then -22 else 0;
                Mock.rst_rc := Mock.rst_rc dev; Mock.alloc_ok := true |} in
  result_of (px30_otp_read Mock.px30 0 4 (Mock.caller bad)) = -22 /\
  result_of (rk3308bs_otp_read Mock.rk3308bs 0 4 (Mock.caller bad)) = Returned (-22).
Proof.
  intros dev bad.
  pose proof (C6_clock_gate Mock.otpc Mock.mock_platform Mock.px30 0 4 (Mock.caller bad))
    as [(_ & _ & Ha) _].
  pose proof (C6_clock_gate Mock.otpc Mock.mock_platform Mock.rk3308bs 0 4 (Mock.caller bad))
    as [_ [Hb | (_ & _ & Hb)]].
  - split; [apply Ha; reflexivity|]. vm_compute in Hb. discriminate Hb.
  - split; [apply Ha; reflexivity | apply Hb; reflexivity].
Defined.

(** C7 (status poller, both engines).  A poll whose status reads never show
    a bit of the mask ends with -ETIMEDOUT after exactly OTPC_TIMEOUT = 10000
    time-units of waiting, spent one unit after each failed read but the
    last; a poll that sees a matching value returns 0 within that bound.
    There is no third result, and the routine is total. *)
Theorem C7_wait_status_bounded :
  forall (HW : Type) (P : Platform HW) (flag : Z) (s : state HW),
    let a := px30_otp_wait_status flag s in
    let b := rk3308bs_otp_wait_status flag s in
    let ra := reads_of OTPC_INT_STATUS (events_of a) in
    let rb := reads_of OTPC_IRQ_ST (events_of b) in
    ((result_of a = 0 \/ result_of a = - ETIMEDOUT) /\
     (forallb (fun v => negb (matches flag v)) ra = true ->
      result_of a = - ETIMEDOUT /\ elapsed (events_of a) = 10000) /\
     (existsb (matches flag) ra = true ->
      result_of a = 0 /\ elapsed (events_of a) <= 10000) /\
     Z.of_nat (length ra) = elapsed (events_of a) + 1 /\
     unit_delays (events_of a) = true) /\
    ((result_of b = 0 \/ result_of b = - ETIMEDOUT) /\
     (forallb (fun v => negb (matches flag v)) rb = true ->
      result_of b = - ETIMEDOUT /\ elapsed (events_of b) = 10000) /\
     (existsb (matches flag) rb = true ->
      result_of b = 0 /\ elapsed (events_of b) <= 10000) /\
     Z.of_nat (length rb) = elapsed (events_of b) + 1 /\
     unit_delays (events_of b) = true).
Proof.
  intros HW P flag s a b ra rb. split.
  - exact (wait_status_at_timing OTPC_INT_STATUS flag s).
  - exact (wait_status_at_timing OTPC_IRQ_ST flag s).
Qed.

(** A silent controller times both pollers out after 10000 units; a
    controller with the bit pending lets them succeed at once. *)
Lemma C7_wait_status_bounded_witness :
  let dead := Mock.caller (Mock.device Mock.fuses 0) in
  let live := Mock.caller (Mock.set_reg OTPC_IRQ_ST OTPC_RDM_IRQ_ST
                             (Mock.device Mock.fuses 0)) in
  (result_of (px30_otp_wait_status OTPC_USER_DONE dead) = - ETIMEDOUT /\
   elapsed (events_of (px30_otp_wait_status OTPC_USER_DONE dead)) = 10000) /\
  (result_of (rk3308bs_otp_wait_status OTPC_RDM_IRQ_ST dead) = - ETIMEDOUT /\
   elapsed (events_of (rk3308bs_otp_wait_status OTPC_RDM_IRQ_ST dead)) = 10000) /\
  (result_of (rk3308bs_otp_wait_status OTPC_RDM_IRQ_ST live) = 0 /\
   elapsed (events_of (rk3308bs_otp_wait_status OTPC_RDM_IRQ_ST live)) <= 10000).
Proof.
  intros dead live.
  pose proof (C7_wait_status_bounded Mock.otpc Mock.mock_platform OTPC_USER_DONE dead)
    as [(_ & Ha & _) _].
  pose proof (C7_wait_status_bounded Mock.otpc Mock.mock_platform OTPC_RDM_IRQ_ST dead)
    as [_ (_ & Hb & _)].
  pose proof (C7_wait_status_bounded Mock.otpc Mock.mock_platform OTPC_RDM_IRQ_ST live)
    as [_ (_ & _ & Hc & _)].
  split; [apply Ha; lazy; reflexivity|].
  split; [apply Hb; lazy; reflexivity|].
  apply Hc; lazy; reflexivity.
Defined.

(** C8 (status poller, both engines).  A wait that succeeds performs exactly
    one register write, of the tested mask to the status register it polled;
    a wait that times out performs no register write.  On a write-one-to-clear
    status register that write clears the bits of the mask and leaves every
    other pending bit as it was. *)
Theorem C8_wait_status_acknowledge :
  forall (HW : Type) (P : Platform HW) (flag : Z) (s : state HW),
    let a := px30_otp_wait_status flag s in
    let b := rk3308bs_otp_wait_status flag s in
    (result_of a = 0 -> all_writes (events_of a) = [(flag, OTPC_INT_STATUS)]) /\
    (result_of a <> 0 -> all_writes (events_of a) = []) /\
    (result_of b = 0 -> all_writes (events_of b) = [(flag, OTPC_IRQ_ST)]) /\
    (result_of b <> 0 -> all_writes (events_of b) = []) /\
    (forall (m : Mock.otpc) (st i : Z),
        st = OTPC_INT_STATUS \/ st = OTPC_IRQ_ST ->
        Z.testbit (Mock.regs (Mock.mock_writel flag st m) st) i =
        Z.testbit (Mock.regs m st) i && negb (Z.testbit flag i)).
Proof.
  intros HW P flag s a b.
  destruct (wait_status_at_writes OTPC_INT_STATUS flag s) as (Ha1 & Ha2 & _).
  destruct (wait_status_at_writes OTPC_IRQ_ST flag s) as (Hb1 & Hb2 & _).
  repeat split; auto.
  intros m st i Hst.
  assert (Hreg : Mock.regs (Mock.mock_writel flag st m) st
                 = Z.land (Mock.regs m st) (Z.lnot flag))
    by (destruct Hst as [-> | ->]; reflexivity).
  rewrite Hreg, Z.land_spec. destruct (Z.lt_ge_cases i 0) as [Hi|Hi].
  - rewrite !Z.testbit_neg_r by lia. reflexivity.
  - rewrite Z.lnot_spec by lia. reflexivity.
Qed.

Lemma C8_wait_status_acknowledge_witness :
  let dead := Mock.caller (Mock.device Mock.fuses 0) in
  let live := Mock.caller (Mock.set_reg OTPC_IRQ_ST 0x481 (Mock.device Mock.fuses 0)) in
  all_writes (events_of (rk3308bs_otp_wait_status OTPC_RDM_IRQ_ST live))
    = [(OTPC_RDM_IRQ_ST, OTPC_IRQ_ST)] /\
  all_writes (events_of (px30_otp_wait_status OTPC_USER_DONE dead)) = [] /\
  Z.testbit (Mock.regs (Mock.mock_writel OTPC_RDM_IRQ_ST OTPC_IRQ_ST (hw live)) OTPC_IRQ_ST) 7
    = true.
Proof.
  intros dead live.
  pose proof (C8_wait_status_acknowledge Mock.otpc Mock.mock_platform OTPC_RDM_IRQ_ST live)
    as (_ & _ & Hb & _ & Hw).
  pose proof (C8_wait_status_acknowledge Mock.otpc Mock.mock_platform OTPC_USER_DONE dead)
    as (_ & Ha & _).
  split; [apply Hb; lazy; reflexivity|].
  split; [apply Ha; lazy; discriminate|].
  rewrite Hw; [reflexivity | right; reflexivity].
Defined.

(** C9 (both engines).  When a status wait inside the read loop times out:
    the word engine returns -ETIMEDOUT with the caller's buffer exactly as it
    was (no memcpy, no store), after kfree, the walk-down routine and the
    three clock disables; the byte engine returns -ETIMEDOUT with the bytes
    of the completed cycles stored at the start of the caller's buffer and
    the rest of the buffer as it was, after clearing user mode and disabling
    the three clocks. *)
Theorem C9_loop_timeout :
  forall (HW : Type) (P : Platform HW) (otp : rockchip_otp) (offset bytes : Z)
         (s : state HW),
    let a := px30_otp_read otp offset bytes s in
    let b := rk3308bs_otp_read otp offset bytes s in
    (existsb loop_timeout (events_of b) = true ->
     result_of b = Returned (- ETIMEDOUT) /\
     val (state_of b) = val s /\
     memcpys (events_of b) = [] /\ stores (events_of b) = [] /\
     exists s1 pre,
       events_of b
       = pre ++ [EvKfree] ++ events_of (rk3308bs_otp_standby s1) ++ released /\
       no_disable pre = true) /\
    (existsb loop_timeout (events_of a) = true ->
     let bs := readbs_of OTPC_USER_Q (events_of a) in
     result_of a = - ETIMEDOUT /\
     (length bs < Z.to_nat bytes)%nat /\
     stores (events_of a) = combine (seq 0 (length bs)) bs /\
     (forall i, (i < length bs)%nat -> val (state_of a) i = nth i bs 0) /\
     (forall i, (length bs <= i)%nat -> val (state_of a) i = val s i) /\
     memcpys (events_of a) = [] /\
     exists r1 r2 r3,
       essential (events_of a)
       = acquired r1 r2 r3 ++ [user_mode_on] ++ user_cycles offset 0 bs
         ++ user_abort (advance offset (length bs))
         ++ [user_mode_off] ++ released).
Proof.
  intros HW P otp offset bytes s a b. split.
  - destruct b as [[o s'] e] eqn:E. subst b.
    unfold events_of, result_of, state_of. cbn [fst snd]. intros Ht.
    pose proof (rk3308bs_otp_read_mode_walk _ _ _ _ _ _ _ E) as (_ & _ & Hw).
    apply rk3308bs_otp_read_shape in E.
    rewrite loop_timeout_essential in Ht.
    destruct (rk3308bs_shape_timeout _ _ _ _ _ _ _ E Ht) as (-> & Hv & Hm & Hs & Ha).
    rewrite memcpys_essential, stores_essential.
    repeat split; auto.
    apply Hw; [rewrite allocs_essential; exact Ha | discriminate].
  - destruct a as [[r s'] e] eqn:E. subst a.
    unfold events_of, result_of, state_of. cbn [fst snd]. intros Ht.
    set (bs := readbs_of OTPC_USER_Q e).
    apply px30_otp_read_shape in E. rewrite loop_timeout_essential in Ht.
    destruct (px30_shape_timeout _ _ _ _ _ _ E Ht)
      as (-> & r1 & r2 & r3 & bs0 & Hess & Hlen & Hv).
    destruct (px30_log_projections r1 r2 r3 offset bs0
                (user_abort (advance offset (length bs0))))
      as (_ & Hrb & Hst); [right; reflexivity|].
    rewrite <- Hess in Hrb, Hst.
    rewrite <- readbs_of_essential in Hrb. rewrite <- stores_essential in Hst.
    assert (Hbs : bs = bs0) by exact Hrb.
    rewrite Hbs. split; [reflexivity|]. split; [exact Hlen|]. split; [exact Hst|].
    split; [|split; [|split]].
    + intros i Hi. rewrite Hv.
      replace (i <? length bs0)%nat with true; [reflexivity|].
      symmetry. apply Nat.ltb_lt. exact Hi.
    + intros i Hi. rewrite Hv.
      replace (i <? length bs0)%nat with false; [reflexivity|].
      symmetry. apply Nat.ltb_ge. exact Hi.
    + rewrite memcpys_essential, Hess. unfold acquired, released, user_abort,
        user_mode_on, user_mode_off.
      rewrite !memcpys_app.
      assert (Hc : forall o k l, memcpys (user_cycles o k l) = []).
      { intros o k l. revert o k. induction l as [|y l IH]; intros o k; simpl; auto. }
      rewrite Hc. reflexivity.
    + exists r1, r2, r3. exact Hess.
Qed.

(** A controller that stops responding after the second word (word engine)
    or the second byte (byte engine). *)
Lemma C9_loop_timeout_witness :
  let b := rk3308bs_otp_read Mock.rk3308bs 0 16 (Mock.caller (Mock.device Mock.fuses 4)) in
  let a := px30_otp_read Mock.px30 0 16 (Mock.caller (Mock.device Mock.fuses 3)) in
  (result_of b = Returned (- ETIMEDOUT) /\ val (state_of b) = (fun _ => 0xEE)) /\
  (result_of a = - ETIMEDOUT /\
   stores (events_of a) = combine (seq 0 (length (readbs_of OTPC_USER_Q (events_of a))))
                            (readbs_of OTPC_USER_Q (events_of a)) /\
   Mock.peek 4 (state_of a) = [1; 2; 0xEE; 0xEE]).
Proof.
  intros b a.
  destruct (C9_loop_timeout Mock.otpc Mock.mock_platform Mock.rk3308bs 0 16
              (Mock.caller (Mock.device Mock.fuses 4))) as (Hb & _).
  destruct (C9_loop_timeout Mock.otpc Mock.mock_platform Mock.px30 0 16
              (Mock.caller (Mock.device Mock.fuses 3))) as (_ & Ha).
  split.
  - destruct Hb as (Hr & Hv & _); [lazy; reflexivity|]. split; [exact Hr|exact Hv].
  - destruct Ha as (Hr & _ & Hs & _); [lazy; reflexivity|].
    split; [exact Hr|]. split; [exact Hs|]. lazy. reflexivity.
Defined.

(** C10 (word engine).  A request whose offset is not below the declared
    size returns -ENOMEM at once: nothing is logged (no clock enabled, no
    reset pulse, no register access, no allocation) and the state, platform
    included, is unchanged.  -ENOMEM is also what every call returns whose
    scratch allocation fails, so the result alone does not tell the two
    apart. *)
Theorem C10_out_of_range_enomem :
  forall (HW : Type) (P : Platform HW) (otp : rockchip_otp) (offset bytes : Z)
         (s : state HW),
    size (data otp) <= offset ->
    rk3308bs_otp_read otp offset bytes s = (Returned (- ENOMEM), s, []) /\
    (forall offset' bytes' (s1 : state HW),
        In false (map snd (allocs (events_of (rk3308bs_otp_read otp offset' bytes' s1)))) ->
        result_of (rk3308bs_otp_read otp offset' bytes' s1) = Returned (- ENOMEM)).
Proof.
  intros HW P otp offset bytes s Hsz. split.
  - unfold rk3308bs_otp_read.
    replace (offset >=? size (data otp)) with true
      by (symmetry; apply Z.geb_le; exact Hsz).
    reflexivity.
  - intros offset' bytes' s1.
    destruct (rk3308bs_otp_read otp offset' bytes' s1) as [[o s'] e] eqn:E.
    apply rk3308bs_otp_read_shape in E. unfold events_of, result_of; simpl.
    rewrite allocs_essential. eapply rk3308bs_shape_alloc_failure; eassumption.
Qed.

Lemma C10_out_of_range_enomem_witness :
  let s := Mock.caller (Mock.device Mock.fuses 100) in
  let nomem := {| Mock.regs := Mock.regs (hw s); Mock.cells := Mock.fuses;
                  Mock.credit := 100%nat; Mock.clk_rc := fun _ => 0;
                  Mock.rst_rc := (0, 0); Mock.alloc_ok := false |} in
  rk3308bs_otp_read Mock.rk3308bs 0x80 4 s = (Returned (-12), s, []) /\
  result_of (rk3308bs_otp_read Mock.rk3308bs 0 4 (Mock.caller nomem)) = Returned (-12).
Proof.
  intros s nomem.
  destruct (C10_out_of_range_enomem Mock.otpc Mock.mock_platform Mock.rk3308bs 0x80 4 s)
    as (H1 & H2).
  - vm_compute. discriminate.
  - split; [exact H1|]. apply H2. vm_compute. left. reflexivity.
Defined.

(** * Further properties *)

(** ** The caller's buffer, the scratch buffer and the window *)

Lemma scratch_discipline_app e1 : forall st e2,
  scratch_discipline st (e1 ++ e2)
  = match scratch_discipline st e1 with
    | Some st' => scratch_discipline st' e2
    | None => None
    end.
Proof.
  induction e1 as [|x e1 IH]; intros st e2; [reflexivity|].
  destruct x; cbn [app scratch_discipline]; try apply IH;
    try (destruct st; try reflexivity; apply IH).
  destruct (addr =? OTPC_RD_DATA); [destruct st|]; try reflexivity; apply IH.
Qed.

Lemma scratch_discipline_essential e : forall st,
  scratch_discipline st e = scratch_discipline st (essential e).
Proof.
  unfold essential. induction e as [|x e IH]; intros st; [reflexivity|].
  cbn [filter]. destruct (quiet x) eqn:E; cbn [negb].
  - destruct x; try discriminate; cbn [scratch_discipline]; try apply IH.
    destruct (addr =? OTPC_RD_DATA) eqn:Ea; [|apply IH].
    apply Z.eqb_eq in Ea. subst addr. discriminate E.
  - destruct x; cbn [scratch_discipline]; rewrite ?IH; try reflexivity;
      destruct st; rewrite ?IH; reflexivity.
Qed.

Lemma word_cycles_scratch a ws :
  scratch_discipline ScratchHeld (word_cycles a ws) = Some ScratchHeld.
Proof. revert a. induction ws as [|w ws IH]; intros a; [reflexivity|]. simpl. apply IH. Qed.

Lemma user_cycles_memcpys o b bs : memcpys (user_cycles o b bs) = [].
Proof. revert o b. induction bs as [|x bs IH]; intros o b; simpl; auto. Qed.

(** The ways through the word engine, projected on the caller's buffer. *)
Lemma rk3308bs_shape_buffer sz offset bytes v0 o v l :
  rk3308bs_shape sz offset bytes v0 o v l ->
  stores l = [] /\
  ((o = Returned 0 /\
    exists d, memcpys l = [d] /\
      forall j, v j = if (j <? length d)%nat then nth j d 0 else v0 j) \/
   (o <> Returned 0 /\ memcpys l = [] /\ forall j, v j = v0 j)).
Proof.
  intros H. destruct H; unfold acquired, released, word_abort;
    rewrite ?stores_app, ?memcpys_app, ?word_cycles_stores, ?word_cycles_memcpys;
    cbn [stores memcpys flat_map app]; (split; [reflexivity|]).
  1-8: right; split; [|split; [reflexivity|reflexivity]].
  1-8: try discriminate.
  1-4: intros Hq; inversion Hq; lia.
  left. split; [reflexivity|]. exists d. split; [reflexivity|assumption].
Qed.

Lemma px30_shape_buffer offset n v0 r v l :
  px30_shape offset n v0 r v l ->
  let bs := readbs_of OTPC_USER_Q l in
  (length bs <= n)%nat /\
  stores l = combine (seq 0 (length bs)) bs /\
  memcpys l = [] /\
  (forall j, v j = if (j <? length bs)%nat then nth j bs 0 else v0 j) /\
  (r = 0 -> length bs = n).
Proof.
  intros H bs. subst bs.
  destruct H; unfold acquired, released, user_abort, user_mode_on, user_mode_off;
    rewrite ?stores_app, ?memcpys_app, ?readbs_of_app, ?user_cycles_stores,
      ?user_cycles_memcpys, ?user_cycles_readbs;
    cbn [stores memcpys readbs_of flat_map app length]; rewrite ?app_nil_r.
  1-4: split; [lia|]; split; [reflexivity|]; split; [reflexivity|];
       split; [reflexivity|]; intros Hr; subst; exfalso; lia.
  - split; [lia|]. repeat split; auto.
  - split; [lia|]. split; [reflexivity|]. split; [reflexivity|].
    split; [assumption|]. unfold ETIMEDOUT. intros Hr; discriminate Hr.
Qed.

Lemma rk3308bs_shape_scratch sz offset bytes v0 o v l :
  rk3308bs_shape sz offset bytes v0 o v l ->
  (exists final,
     scratch_discipline NoScratch l = Some final /\
     (o <> Fault -> final = NoScratch \/ final = ScratchFreed)) /\
  (allocs l = [] \/
   exists ok, allocs l = [(4 * rk3308bs_addr_len sz offset bytes, ok)]).
Proof.
  intros H.
  destruct H; unfold acquired, released, word_abort;
    rewrite ?allocs_app, ?word_cycles_allocs, <- ?rk3308bs_alloc_eq;
    cbn [allocs flat_map app].
  1-5: split; [exists NoScratch; split; [reflexivity|auto] | left; reflexivity].
  - split; [exists ScratchFreed; split; [reflexivity|auto]|].
    right. exists false. reflexivity.
  - split; [|right; exists true; reflexivity].
    exists ScratchFreed. split; [|auto].
    cbn [scratch_discipline]. rewrite scratch_discipline_app, word_cycles_scratch.
    reflexivity.
  - split; [|right; exists true; reflexivity].
    exists ScratchHeld. split; [|intros Hf; contradiction Hf; reflexivity].
    cbn [scratch_discipline]. apply word_cycles_scratch.
  - split; [|right; exists true; reflexivity].
    exists ScratchFreed. split; [|auto].
    cbn [scratch_discipline]. rewrite scratch_discipline_app, word_cycles_scratch.
    reflexivity.
Qed.

(** The window of a request that does not wrap the 64-bit sum. *)
Lemma rk3308bs_window_nowrap sz offset bytes :
  0 <= offset < sz -> sz < 2 ^ 32 -> 0 <= bytes -> offset + bytes < 2 ^ 64 ->
  let n := Z.min bytes (sz - offset) in
  rk3308bs_bytes sz offset bytes = n /\
  rk3308bs_addr_offset offset = offset mod 4 /\
  rk3308bs_addr_start offset = offset / 4 + 224 /\
  rk3308bs_addr_len sz offset bytes = (offset + n + 3) / 4 - offset / 4.
Proof.
  intros Ho Hs Hb Hw n.
  change (2 ^ 32) with 4294967296 in *. change (2 ^ 64) with 18446744073709551616 in *.
  assert (Hn : rk3308bs_bytes sz offset bytes = n).
  { unfold rk3308bs_bytes in *. subst n.
    unfold u64 in *. change (2 ^ 64) with 18446744073709551616 in *.
    rewrite Z.mod_small in * by lia.
    destruct (offset + bytes >? sz) eqn:E.
    + apply Z.gtb_lt in E. unfold u32. change (2 ^ 32) with 4294967296.
      rewrite Z.mod_small by lia. lia.
    + rewrite Z.gtb_ltb in E. apply Z.ltb_ge in E. lia. }
  split; [exact Hn|]. split; [reflexivity|].
  assert (Hn0 : 0 <= n <= sz - offset) by (subst n; lia).
  unfold rk3308bs_addr_start, rk3308bs_addr_len. rewrite Hn.
  unfold rounddown, roundup, RK3308BS_NBYTES, RK3308BS_NO_SECURE_OFFSET, u32, u64.
  change (2 ^ 32) with 4294967296. change (2 ^ 64) with 18446744073709551616.
  change (4 - 1) with 3.
  assert (H1 : (offset - offset mod 4) mod 4294967296 = 4 * (offset / 4)).
  { rewrite Z.mod_small; Z.div_mod_to_equations; lia. }
  rewrite H1. replace (4 * (offset / 4) / 4) with (offset / 4)
    by (Z.div_mod_to_equations; lia).
  assert (H2 : (offset / 4) mod 4294967296 = offset / 4).
  { rewrite Z.mod_small; Z.div_mod_to_equations; lia. }
  rewrite H2.
  assert (H3 : (offset + n) mod 18446744073709551616 = offset + n)
    by (rewrite Z.mod_small; lia).
  rewrite H3.
  assert (H4 : (offset + n + 3) mod 18446744073709551616 = offset + n + 3)
    by (rewrite Z.mod_small; lia).
  rewrite H4.
  assert (H5 : ((offset + n + 3) / 4 * 4) mod 18446744073709551616
               = (offset + n + 3) / 4 * 4).
  { rewrite Z.mod_small; Z.div_mod_to_equations; lia. }
  rewrite H5. rewrite Z.div_mul by lia.
  assert (H6 : ((offset + n + 3) / 4) mod 4294967296 = (offset + n + 3) / 4).
  { rewrite Z.mod_small; Z.div_mod_to_equations; lia. }
  rewrite H6. split.
  - rewrite Z.mod_small; Z.div_mod_to_equations; lia.
  - rewrite Z.mod_small; Z.div_mod_to_equations; lia.
Qed.

Lemma advance_seq a k :
  0 <= a -> a + Z.of_nat k <= 2 ^ 32 ->
  map (advance a) (seq 0 k) = map (fun i => a + Z.of_nat i) (seq 0 k).
Proof.
  intros Ha Hk. apply map_ext_in. intros i Hi. apply in_seq in Hi.
  apply advance_small; lia.
Qed.

(** The word addresses a log programs, for a window of [len] words from
    [a]: consecutive from [a], at most [len] of them. *)
Lemma rk3308bs_shape_addresses sz offset bytes v0 o v l :
  rk3308bs_shape sz offset bytes v0 o v l ->
  let a := rk3308bs_addr_start offset in
  let len := rk3308bs_addr_len sz offset bytes in
  0 <= a -> a + len <= 2 ^ 32 ->
  exists k : nat,
    Z.of_nat k <= len /\
    writes_to OTPC_ACCESS_ADDR l = map (fun i => a + Z.of_nat i) (seq 0 k).
Proof.
  intros H a len Ha Hlen. subst a len.
  assert (Hal : 0 <= rk3308bs_addr_len sz offset bytes) by apply u32_range.
  destruct H; unfold acquired, released, word_abort;
    rewrite ?writes_to_app, ?word_cycles_addrs;
    cbn [writes_to flat_map app]; rewrite ?app_nil_r.
  1-6: exists 0%nat; split; [lia|reflexivity].
  - exists (S (length ws)). split; [lia|].
    change (OTPC_REPR_RD_TRANS_NUM =? OTPC_ACCESS_ADDR) with false.
    change (OTPC_ACCESS_ADDR =? OTPC_ACCESS_ADDR) with true.
    change (OTPC_MODE_CTRL =? OTPC_ACCESS_ADDR) with false.
    cbn [app]. rewrite seq_S, map_app. cbn [map Nat.add].
    rewrite advance_seq by lia. rewrite advance_small by lia. reflexivity.
  - exists (length ws). split; [lia|]. apply advance_seq; lia.
  - exists (length ws). split; [lia|]. apply advance_seq; lia.
Qed.

(** X1 (word engine).  All or nothing: a call of rk3308bs_otp_read that
    returns either returns 0 after exactly one copy to the caller's buffer,
    or returns another value and leaves the caller's buffer as it was; it
    never stores single bytes.  (Nothing is said of a call that leaves its
    scratch buffer.) *)
Theorem X1_word_engine_all_or_nothing :
  forall (HW : Type) (P : Platform HW) (otp : rockchip_otp) (offset bytes : Z)
         (s : state HW),
    let x := rk3308bs_otp_read otp offset bytes s in
    match result_of x with
    | Fault => True
    | Returned r =>
        stores (events_of x) = [] /\
        ((r = 0 /\
          exists d, memcpys (events_of x) = [d] /\
            forall j, val (state_of x) j
                      = if (j <? length d)%nat then nth j d 0 else val s j) \/
         (r <> 0 /\ memcpys (events_of x) = [] /\
          forall j, val (state_of x) j = val s j))
    end.
Proof.
  intros HW P otp offset bytes s x. destruct x as [[o s'] e] eqn:Hx. subst x.
  apply rk3308bs_otp_read_shape in Hx. apply rk3308bs_shape_buffer in Hx.
  unfold result_of, state_of, events_of. cbn [fst snd].
  rewrite stores_essential, memcpys_essential.
  destruct o as [r|]; [|exact I].
  destruct Hx as (Hst & [(Ho & Hd)|(Ho & Hm & Hv)]).
  - inversion Ho; subst. split; [exact Hst|]. left. split; [reflexivity|exact Hd].
  - split; [exact Hst|]. right. split; [|split; assumption].
    intros Hr. apply Ho. rewrite Hr. reflexivity.
Qed.

(** X2 (byte engine).  On every path px30_otp_read stores the bytes it read
    from the data port, one by one, at the indices 0, 1, 2, ... of the
    caller's buffer: never more than the requested number, never at another
    index, never by a block copy; a call that returns 0 stored the requested
    number. *)
Theorem X2_byte_engine_prefix :
  forall (HW : Type) (P : Platform HW) (otp : rockchip_otp) (offset bytes : Z)
         (s : state HW),
    let x := px30_otp_read otp offset bytes s in
    let bs := readbs_of OTPC_USER_Q (events_of x) in
    (length bs <= Z.to_nat bytes)%nat /\
    stores (events_of x) = combine (seq 0 (length bs)) bs /\
    memcpys (events_of x) = [] /\
    (forall j, val (state_of x) j
               = if (j <? length bs)%nat then nth j bs 0 else val s j) /\
    (result_of x = 0 -> length bs = Z.to_nat bytes).
Proof.
  intros HW P otp offset bytes s x. destruct x as [[r s'] e] eqn:Hx. subst x.
  apply px30_otp_read_shape in Hx. apply px30_shape_buffer in Hx.
  unfold result_of, state_of, events_of. cbn [fst snd].
  rewrite stores_essential, memcpys_essential, readbs_of_essential. exact Hx.
Qed.

(** X3 (word engine).  The scratch buffer: kzalloc is called at most once,
    for four bytes per word of the window; data words are read and the copy
    to the caller is made only while the buffer is held; kfree is called
    exactly once after the kzalloc (also after a refused one) and before the
    first clock is disabled, and never otherwise, on every path that
    returns. *)
Theorem X3_scratch_discipline :
  forall (HW : Type) (P : Platform HW) (otp : rockchip_otp) (offset bytes : Z)
         (s : state HW),
    let x := rk3308bs_otp_read otp offset bytes s in
    (exists final,
       scratch_discipline NoScratch (events_of x) = Some final /\
       (result_of x <> Fault -> final = NoScratch \/ final = ScratchFreed)) /\
    (allocs (events_of x) = [] \/
     exists ok, allocs (events_of x)
                = [(4 * rk3308bs_addr_len (size (data otp)) offset bytes, ok)]).
Proof.
  intros HW P otp offset bytes s x. destruct x as [[o s'] e] eqn:Hx. subst x.
  apply rk3308bs_otp_read_shape in Hx. apply rk3308bs_shape_scratch in Hx.
  unfold result_of, events_of. cbn [fst snd].
  rewrite scratch_discipline_essential, allocs_essential. exact Hx.
Qed.

(** X4 (word engine).  For a request below the declared size whose end does
    not wrap the 64-bit sum, every word address programmed, on every path
    (success, time-out, anything else), lies in the window of the request:
    the addresses are floor(offset/4)+224, +1, +2, ... and stay below
    ceil((offset+n)/4)+224, n being the clamped length.  So no address below
    the non-secure offset 224 and none past the last word of the declared
    array is ever programmed. *)
Theorem X4_word_addresses_confined :
  forall (HW : Type) (P : Platform HW) (otp : rockchip_otp) (offset bytes : Z)
         (s : state HW),
    0 <= offset < size (data otp) -> size (data otp) < 2 ^ 32 ->
    0 <= bytes -> offset + bytes < 2 ^ 64 ->
    let x := rk3308bs_otp_read otp offset bytes s in
    let n := Z.min bytes (size (data otp) - offset) in
    let addrs := writes_to OTPC_ACCESS_ADDR (events_of x) in
    addrs = map (fun i => offset / 4 + 224 + Z.of_nat i) (seq 0 (length addrs)) /\
    Z.of_nat (length addrs) <= (offset + n + 3) / 4 - offset / 4 /\
    Forall (fun a => 224 <= a < 224 + (size (data otp) + 3) / 4) addrs.
Proof.
  intros HW P otp offset bytes s Ho Hs Hb Hw x n addrs.
  destruct x as [[o s'] e] eqn:Hx. subst x addrs.
  apply rk3308bs_otp_read_shape in Hx.
  destruct (rk3308bs_window_nowrap _ _ _ Ho Hs Hb Hw) as (Hn & _ & Hst & Hlen).
  fold n in Hn, Hlen.
  assert (Hn0 : 0 <= n <= size (data otp) - offset) by (subst n; lia).
  apply rk3308bs_shape_addresses in Hx.
  2:{ rewrite Hst. Z.div_mod_to_equations; lia. }
  2:{ rewrite Hst, Hlen. change (2 ^ 32) with 4294967296 in *.
      Z.div_mod_to_equations; lia. }
  destruct Hx as (k & Hk & Hw').
  unfold events_of. cbn [snd]. rewrite writes_to_access_addr_essential, Hw'.
  rewrite Hst, Hlen in *. rewrite length_map, length_seq.
  split; [reflexivity|]. split; [exact Hk|].
  apply Forall_forall. intros a Ha. apply in_map_iff in Ha.
  destruct Ha as (i & <- & Hi). apply in_seq in Hi.
  Z.div_mod_to_equations; lia.
Qed.

Lemma X4_word_addresses_confined_witness :
  let x := rk3308bs_otp_read Mock.rk3308bs 126 1000
             (Mock.caller (Mock.device Mock.fuses 2)) in
  writes_to OTPC_ACCESS_ADDR (events_of x) = [255] /\
  result_of x = Returned (- ETIMEDOUT).
Proof.
  intros x.
  destruct (X4_word_addresses_confined Mock.otpc Mock.mock_platform Mock.rk3308bs 126 1000
              (Mock.caller (Mock.device Mock.fuses 2))) as (H & _ & _).
  - vm_compute. split; [discriminate|reflexivity].
  - reflexivity.
  - discriminate.
  - reflexivity.
  - fold x in H. split; [|reflexivity].
    rewrite H. reflexivity.
Defined.

(** ** Memory safety of the word engine *)

Section WordEngineSafety.

Context {HW : Type} {P : Platform HW}.
Implicit Types s : state HW.

(** The word loop keeps the length of the scratch buffer. *)
Lemma rk3308bs_otp_read_loop_length n : forall addr i buf r0 s r buf' s' e,
  rk3308bs_otp_read_loop n addr i buf r0 s = (LoopDone r buf', s', e) ->
  length buf' = length buf.
Proof.
  induction n as [|n IH]; intros addr i buf r0 s r buf' s' e H; simpl in H.
  - walk. match goal with Hq : LoopDone _ _ = LoopDone _ _ |- _ => inversion Hq end.
    reflexivity.
  - walk; try discriminate.
    match goal with Hl : rk3308bs_otp_read_loop _ _ _ _ _ _ = _ |- _ =>
      apply IH in Hl; rewrite Hl end.
    eapply splice_length; eassumption.
Qed.

(** A loop whose stores all fit in the scratch buffer, with an index that
    stays inside [int], never leaves the buffer. *)
Lemma rk3308bs_otp_read_loop_safe n : forall addr i buf r0 s x s' e,
  0 <= i -> i + 4 * Z.of_nat n <= Z.of_nat (length buf) ->
  i + 4 * Z.of_nat n < 2 ^ 31 ->
  rk3308bs_otp_read_loop n addr i buf r0 s = (x, s', e) ->
  x <> LoopFault.
Proof.
  induction n as [|n IH]; intros addr i buf r0 s x s' e Hi Hlen Hmax H; simpl in H.
  - walk. discriminate.
  - walk; try discriminate.
    + match goal with Hs : splice _ _ _ = Some _ |- _ =>
        pose proof (splice_length _ _ _ _ Hs) as Hl1 end.
      match goal with Hl : rk3308bs_otp_read_loop _ _ _ _ _ _ = _ |- _ =>
        apply IH in Hl; [exact Hl| | |] end.
      all: change RK3308BS_NBYTES with 4.
      all: assert (Hs32 : s32 (i + 4) = i + 4)
             by (unfold s32; rewrite Z.mod_small by lia; lia).
      all: rewrite Hs32, ?Hl1; lia.
    + exfalso.
      match goal with Hs : splice _ _ _ = None |- _ => unfold splice in Hs;
        rewrite le_bytes_length in Hs end.
      replace (0 <=? i) with true in * by (symmetry; apply Z.leb_le; lia).
      replace (i + Z.of_nat 4 <=? Z.of_nat (length buf)) with true in *
        by (symmetry; apply Z.leb_le; lia).
      discriminate.
Qed.

End WordEngineSafety.

(** X5 (word engine).  Memory safety of the scratch buffer: for a request
    below the declared size whose end does not wrap the 64-bit sum, with a
    declared size below 2^31 - 3, rk3308bs_otp_read never stores a word
    outside its scratch allocation and never copies from outside it: the
    call returns. *)
Theorem X5_word_engine_memory_safe :
  forall (HW : Type) (P : Platform HW) (otp : rockchip_otp) (offset bytes : Z)
         (s : state HW),
    0 <= offset < size (data otp) -> size (data otp) < 2 ^ 31 - 3 ->
    0 <= bytes -> offset + bytes < 2 ^ 64 ->
    exists r, result_of (rk3308bs_otp_read otp offset bytes s) = Returned r.
Proof.
  intros HW P otp offset bytes s Ho Hs Hb Hw.
  assert (Hs' : size (data otp) < 2 ^ 32) by (change (2 ^ 31) with 2147483648 in Hs;
                                              change (2 ^ 32) with 4294967296; lia).
  destruct (rk3308bs_window_nowrap _ _ _ Ho Hs' Hb Hw) as (Hn & Hao & Hst & Hlen).
  set (n := Z.min bytes (size (data otp) - offset)) in *.
  assert (Hn0 : 0 <= n <= size (data otp) - offset) by (subst n; lia).
  pose proof (rk3308bs_alloc_eq (size (data otp)) offset bytes) as Halloc.
  assert (Hcnt : 0 <= rk3308bs_addr_len (size (data otp)) offset bytes
                 /\ 4 * rk3308bs_addr_len (size (data otp)) offset bytes < 2 ^ 31
                 /\ offset mod 4 + n
                    <= 4 * rk3308bs_addr_len (size (data otp)) offset bytes).
  { rewrite Hlen. change (2 ^ 31) with 2147483648 in *.
    Z.div_mod_to_equations; lia. }
  destruct Hcnt as (Hc0 & Hc1 & Hc2).
  destruct (rk3308bs_otp_read otp offset bytes s) as [[o s'] e] eqn:H.
  unfold result_of. cbn [fst].
  destruct o as [r|]; [exists r; reflexivity|exfalso].
  revert H.
  unfold rk3308bs_otp_read, rk3308bs_read_end, rk3308bs_opt_pclk_phy,
    rk3308bs_opt_pclk, rk3308bs_otp_clk.
  fold (rk3308bs_bytes (size (data otp)) offset bytes).
  fold (rk3308bs_addr_len (size (data otp)) offset bytes).
  fold (rk3308bs_addr_start offset).
  fold (rk3308bs_addr_offset offset).
  fold (rk3308bs_alloc (size (data otp)) offset bytes).
  intros H. walk; try discriminate.
  - (* the copy to the caller *)
    match goal with Hl : rk3308bs_otp_read_loop _ _ _ _ _ _ = _ |- _ =>
      apply rk3308bs_otp_read_loop_length in Hl; rename Hl into Hl1 end.
    rewrite repeat_length in Hl1.
    match goal with Hg : (_ <=? _) = false |- _ => apply Z.leb_gt in Hg;
      rewrite Hl1, Hn, Hao, Halloc in Hg; lia end.
  - (* a store of the loop *)
    match goal with Hl : rk3308bs_otp_read_loop _ _ _ _ _ _ = _ |- _ =>
      apply rk3308bs_otp_read_loop_safe in Hl; [apply Hl; reflexivity| | |] end.
    + lia.
    + rewrite repeat_length, Halloc. lia.
    + lia.
Qed.

Lemma X5_word_engine_memory_safe_witness :
  exists r, result_of (rk3308bs_otp_read Mock.rk3308bs 126 1000
                         (Mock.caller (Mock.device Mock.fuses 100))) = Returned r.
Proof.
  apply (X5_word_engine_memory_safe Mock.otpc Mock.mock_platform Mock.rk3308bs 126 1000
           (Mock.caller (Mock.device Mock.fuses 100))).
  - vm_compute. split; [discriminate|reflexivity].
  - reflexivity.
  - discriminate.
  - reflexivity.
Defined.

(** ** The gate and the waiting time *)

Section WaitLog.

Context {HW : Type} {P : Platform HW}.
Implicit Types s : state HW.

(** The full log of a wait: the poll, then the acknowledgement if the poll
    succeeded. *)
Lemma wait_status_at_log addr flag s r s' e :
  wait_status_at addr flag s = (r, s', e) ->
  val s' = val s /\
  exists vs vlast,
    Z.of_nat (length vs) <= OTPC_TIMEOUT /\
    ((r = 0 /\ e = poll_log addr 1 vs vlast ++ [EvWritel flag addr]) \/
     (r = - ETIMEDOUT /\ e = poll_log addr 1 vs vlast)).
Proof.
  intros H. apply wait_status_at_spec in H.
  destruct H as (Hv & vs & vlast & _ & Hres). split; [exact Hv|].
  exists vs, vlast.
  destruct Hres as [(-> & _ & Hlen & ->)|(-> & _ & Hlen & ->)].
  - split; [exact Hlen|]. left. auto.
  - split; [lia|]. right. auto.
Qed.

Lemma px30_otp_wait_status_log flag s r s' e :
  px30_otp_wait_status flag s = (r, s', e) ->
  val s' = val s /\
  exists vs vlast,
    Z.of_nat (length vs) <= OTPC_TIMEOUT /\
    ((r = 0 /\ e = poll_log OTPC_INT_STATUS 1 vs vlast ++ [EvWritel flag OTPC_INT_STATUS]) \/
     (r = - ETIMEDOUT /\ e = poll_log OTPC_INT_STATUS 1 vs vlast)).
Proof. apply wait_status_at_log. Qed.

Lemma rk3308bs_otp_wait_status_log flag s r s' e :
  rk3308bs_otp_wait_status flag s = (r, s', e) ->
  val s' = val s /\
  exists vs vlast,
    Z.of_nat (length vs) <= OTPC_TIMEOUT /\
    ((r = 0 /\ e = poll_log OTPC_IRQ_ST 1 vs vlast ++ [EvWritel flag OTPC_IRQ_ST]) \/
     (r = - ETIMEDOUT /\ e = poll_log OTPC_IRQ_ST 1 vs vlast)).
Proof. apply wait_status_at_log. Qed.

End WaitLog.

(** Take a routine apart as [walk] does, keeping the full log of every
    wait. *)
Ltac walk_log_step :=
  match goal with
  | H : px30_otp_wait_status _ _ = _ |- _ =>
      apply px30_otp_wait_status_log in H;
      destruct H as (? & ? & ? & ? & [(? & ?)|(? & ?)])
  | H : rk3308bs_otp_wait_status _ _ = _ |- _ =>
      apply rk3308bs_otp_wait_status_log in H;
      destruct H as (? & ? & ? & ? & [(? & ?)|(? & ?)])
  | _ => walk_step
  end.

Ltac walk_log := repeat (walk_log_step; subst).

(** Close a branch taken against the sign of a wait's result. *)
Ltac absurd_sign :=
  exfalso;
  match goal with
  | Hq : (0 <? 0) = true |- _ => discriminate Hq
  | Hq : (- ETIMEDOUT <? 0) = false |- _ => discriminate Hq
  end.

Lemma elapsed_cons x l :
  elapsed (x :: l) = match x with EvUdelay us => us | _ => 0 end + elapsed l.
Proof. destruct x; reflexivity. Qed.

Lemma elapsed_nil : elapsed [] = 0.
Proof. reflexivity. Qed.

Lemma poll_log_calm addr d vs vlast : forallb calm (poll_log addr d vs vlast) = true.
Proof.
  unfold poll_log. rewrite forallb_app. apply andb_true_intro. split; [|reflexivity].
  induction vs as [|v vs IH]; [reflexivity|]. simpl. exact IH.
Qed.

(** Close a goal [forallb calm (...) = true] over a concatenation. *)
Ltac calm_tac :=
  repeat (rewrite forallb_app || rewrite poll_log_calm
          || (progress cbn [app forallb calm andb]));
  repeat match goal with
         | Hq : forallb calm _ = true |- _ => rewrite Hq; clear Hq
         end;
  reflexivity.

(** Close a goal bounding [elapsed] of a concatenation. *)
Ltac elapsed_tac :=
  repeat (rewrite elapsed_app || rewrite elapsed_cons || rewrite elapsed_nil
          || rewrite poll_log_elapsed);
  unfold OTPC_TIMEOUT in *; lia.

Lemma inside_gate_calm e1 : forall e2 on,
  forallb calm e1 = true -> all_enabled on = true ->
  inside_gate on ResetPulsed (e1 ++ e2) = inside_gate on ResetPulsed e2.
Proof.
  induction e1 as [|x e1 IH]; intros e2 on Hc Hon; [reflexivity|].
  cbn [forallb] in Hc. apply andb_prop in Hc. destruct Hc as [Hx Hc].
  destruct x; try discriminate Hx; cbn [app inside_gate]; rewrite ?Hon;
    cbn [andb]; apply IH; assumption.
Qed.

Section Tame.

Context {HW : Type} {P : Platform HW}.
Implicit Types s : state HW.

(** The reset pulse: the three logs it can leave. *)
Lemma rockchip_otp_reset_log s r s' e :
  rockchip_otp_reset s = (r, s', e) ->
  (r <> 0 /\ e = [EvResetAssert r; EvDevErr "failed to assert otp phy %d"]) \/
  (r <> 0 /\ e = [EvResetAssert 0; EvUdelay 2; EvResetDeassert r;
                  EvDevErr "failed to deassert otp phy %d"]) \/
  (r = 0 /\ e = [EvResetAssert 0; EvUdelay 2; EvResetDeassert 0]).
Proof.
  unfold rockchip_otp_reset. intros H. walk.
  all: repeat match goal with
         | Hq : negb (_ =? 0) = true |- _ =>
             apply negb_true_iff in Hq; apply Z.eqb_neq in Hq
         | Hq : negb (_ =? 0) = false |- _ =>
             apply negb_false_iff in Hq; apply Z.eqb_eq in Hq; subst
         end.
  - left. split; [assumption|reflexivity].
  - right; left. split; [assumption|reflexivity].
  - right; right. split; reflexivity.
Qed.

Lemma px30_otp_ecc_enable_tame enable s r s' e :
  px30_otp_ecc_enable enable s = (r, s', e) ->
  forallb calm e = true /\ 0 <= elapsed e <= OTPC_TIMEOUT.
Proof.
  unfold px30_otp_ecc_enable. intros H. walk_log; (split; [calm_tac|elapsed_tac]).
Qed.

Lemma rk3308bs_otp_active_tame s r s' e :
  rk3308bs_otp_active s = (r, s', e) ->
  forallb calm e = true /\ 0 <= elapsed e <= 2 * OTPC_TIMEOUT.
Proof.
  unfold rk3308bs_otp_active, rk3308bs_otp_active_from_standby. intros H.
  walk_log; (split; [calm_tac|elapsed_tac]).
Qed.

Lemma rk3308bs_otp_standby_tame s r s' e :
  rk3308bs_otp_standby s = (r, s', e) ->
  forallb calm e = true /\ 0 <= elapsed e <= 2 * OTPC_TIMEOUT.
Proof.
  unfold rk3308bs_otp_standby, rk3308bs_otp_standby_from_standby. intros H.
  walk_log; (split; [calm_tac|elapsed_tac]).
Qed.

Lemma px30_otp_read_loop_tame n : forall offset buf r0 s r s' e,
  px30_otp_read_loop n offset buf r0 s = (r, s', e) ->
  forallb calm e = true /\ 0 <= elapsed e <= OTPC_TIMEOUT * Z.of_nat n.
Proof.
  induction n as [|n IH]; intros offset buf r0 s r s' e H; simpl in H.
  - walk_log. split; [reflexivity|]. elapsed_tac.
  - walk_log; try absurd_sign.
    all: try match goal with Hl : px30_otp_read_loop _ _ _ _ _ = _ |- _ =>
               apply IH in Hl; destruct Hl as (Hc & He) end.
    all: split; [calm_tac|elapsed_tac].
Qed.

Lemma rk3308bs_otp_read_loop_tame n : forall addr i buf r0 s x s' e,
  rk3308bs_otp_read_loop n addr i buf r0 s = (x, s', e) ->
  forallb calm e = true /\ 0 <= elapsed e <= OTPC_TIMEOUT * Z.of_nat n.
Proof.
  induction n as [|n IH]; intros addr i buf r0 s x s' e H; simpl in H.
  - walk_log. split; [reflexivity|]. elapsed_tac.
  - walk_log; try absurd_sign.
    all: try match goal with Hl : rk3308bs_otp_read_loop _ _ _ _ _ _ = _ |- _ =>
               apply IH in Hl; destruct Hl as (Hc & He) end.
    all: split; [calm_tac|elapsed_tac].
Qed.

End Tame.

(** Evaluate [inside_gate] along a log of explicit events and calm
    sub-logs. *)
Ltac gate_walk :=
  repeat match goal with
         | Hq : (_ <? 0) = _ |- _ => rewrite ?Hq
         end;
  repeat (progress cbn [app inside_gate all_enabled existsb clk_id_eqb orb andb
                        remove_clk Z.eqb Z.leb Z.compare Pos.compare Pos.compare_cont]
          || (rewrite inside_gate_calm by (first [assumption | reflexivity | calm_tac]))
          || match goal with
             | Hq : (?r <? 0) = _ |- context [?r <? 0] => rewrite Hq
             | Hq : (?r =? 0) = _ |- context [?r =? 0] => rewrite Hq
             end).

Ltac norm_results :=
  repeat match goal with
         | Hq : negb (_ =? 0) = true |- _ => apply negb_true_iff in Hq
         | Hq : negb (_ =? 0) = false |- _ =>
             apply negb_false_iff in Hq; apply Z.eqb_eq in Hq; subst
         | Hq : negb ?b = true |- _ => apply negb_true_iff in Hq; subst b
         | Hq : negb ?b = false |- _ => apply negb_false_iff in Hq; subst b
         end;
  try (exfalso; match goal with Hq : (0 =? 0) = false |- _ => discriminate Hq end).

Section Gate.

Context {HW : Type} {P : Platform HW}.
Implicit Types s : state HW.

Lemma px30_otp_read_inside_gate otp offset bytes s r s' e :
  px30_otp_read otp offset bytes s = (r, s', e) ->
  inside_gate [] ResetIdle e = true.
Proof.
  unfold px30_otp_read, px30_read_end, px30_opt_pclk_phy, px30_opt_pclk, px30_otp_clk,
    rockchip_otp_reset.
  intros H. walk.
  all: norm_results.
  all: repeat match goal with
         | Hq : px30_otp_ecc_enable _ _ = _ |- _ =>
             apply px30_otp_ecc_enable_tame in Hq; destruct Hq as (? & _)
         | Hq : px30_otp_read_loop _ _ _ _ _ = _ |- _ =>
             apply px30_otp_read_loop_tame in Hq; destruct Hq as (? & _)
         end.
  all: gate_walk; reflexivity.
Qed.

Lemma rk3308bs_otp_read_inside_gate otp offset bytes s o s' e :
  rk3308bs_otp_read otp offset bytes s = (o, s', e) ->
  inside_gate [] ResetIdle e = true.
Proof.
  unfold rk3308bs_otp_read, rk3308bs_read_end, rk3308bs_opt_pclk_phy,
    rk3308bs_opt_pclk, rk3308bs_otp_clk, rockchip_otp_reset.
  intros H. walk.
  all: norm_results.
  all: repeat match goal with
         | Hq : rk3308bs_otp_active _ = _ |- _ =>
             apply rk3308bs_otp_active_tame in Hq; destruct Hq as (? & _)
         | Hq : rk3308bs_otp_standby _ = _ |- _ =>
             apply rk3308bs_otp_standby_tame in Hq; destruct Hq as (? & _)
         | Hq : rk3308bs_otp_read_loop _ _ _ _ _ _ = _ |- _ =>
             apply rk3308bs_otp_read_loop_tame in Hq; destruct Hq as (? & _)
         end.
  all: gate_walk; reflexivity.
Qed.

Lemma px30_otp_read_elapsed otp offset bytes s r s' e :
  px30_otp_read otp offset bytes s = (r, s', e) ->
  0 <= elapsed e <= 7 + OTPC_TIMEOUT * (1 + Z.of_nat (Z.to_nat bytes)).
Proof.
  unfold px30_otp_read, px30_read_end, px30_opt_pclk_phy, px30_opt_pclk, px30_otp_clk,
    rockchip_otp_reset.
  intros H. walk.
  all: repeat match goal with
         | Hq : px30_otp_ecc_enable _ _ = _ |- _ =>
             apply px30_otp_ecc_enable_tame in Hq; destruct Hq as (_ & ?)
         | Hq : px30_otp_read_loop _ _ _ _ _ = _ |- _ =>
             apply px30_otp_read_loop_tame in Hq; destruct Hq as (_ & ?)
         end.
  all: elapsed_tac.
Qed.

Lemma rk3308bs_otp_read_elapsed otp offset bytes s o s' e :
  rk3308bs_otp_read otp offset bytes s = (o, s', e) ->
  0 <= elapsed e
  <= 2 + OTPC_TIMEOUT * (4 + rk3308bs_addr_len (size (data otp)) offset bytes).
Proof.
  assert (Hal : 0 <= rk3308bs_addr_len (size (data otp)) offset bytes)
    by apply u32_range.
  revert Hal.
  unfold rk3308bs_otp_read, rk3308bs_read_end, rk3308bs_opt_pclk_phy,
    rk3308bs_opt_pclk, rk3308bs_otp_clk, rockchip_otp_reset.
  fold (rk3308bs_bytes (size (data otp)) offset bytes).
  fold (rk3308bs_addr_len (size (data otp)) offset bytes).
  intros Hal H. walk.
  all: repeat match goal with
         | Hq : rk3308bs_otp_active _ = _ |- _ =>
             apply rk3308bs_otp_active_tame in Hq; destruct Hq as (_ & ?)
         | Hq : rk3308bs_otp_standby _ = _ |- _ =>
             apply rk3308bs_otp_standby_tame in Hq; destruct Hq as (_ & ?)
         | Hq : rk3308bs_otp_read_loop _ _ _ _ _ _ = _ |- _ =>
             apply rk3308bs_otp_read_loop_tame in Hq; destruct Hq as (_ & ?)
         end.
  all: rewrite ?Z2Nat.id in * by assumption.
  all: elapsed_tac.
Qed.

End Gate.

(** X6 (both read functions).  The register window is used only inside the
    gate: on every path of px30_otp_read and rk3308bs_otp_read, every readl,
    readb and writel comes while clk, pclk and pclk_phy are all enabled and
    after the PHY reset line was asserted, held for two time-units and
    deasserted, each step with result 0; the reset line itself is driven
    only while the three clocks are enabled.  A failed clock enable or a
    failed reset step is followed by no register access at all. *)
Theorem X6_register_access_inside_gate :
  forall (HW : Type) (P : Platform HW) (otp : rockchip_otp) (offset bytes : Z)
         (s : state HW),
    inside_gate [] ResetIdle (events_of (px30_otp_read otp offset bytes s)) = true /\
    inside_gate [] ResetIdle (events_of (rk3308bs_otp_read otp offset bytes s)) = true.
Proof.
  intros HW P otp offset bytes s. split.
  - destruct (px30_otp_read otp offset bytes s) as [[r s'] e] eqn:H.
    exact (px30_otp_read_inside_gate _ _ _ _ _ _ _ H).
  - destruct (rk3308bs_otp_read otp offset bytes s) as [[o s'] e] eqn:H.
    exact (rk3308bs_otp_read_inside_gate _ _ _ _ _ _ _ H).
Qed.

(** X7 (both read functions).  Bounded busy-waiting: the time spent in
    udelay by one call of px30_otp_read is at most 7 time-units (the reset
    hold of 2 and the settle delay of 5) plus OTPC_TIMEOUT for the ECC
    command and for each requested byte; by one call of rk3308bs_otp_read at
    most 2 time-units plus OTPC_TIMEOUT for each of the two steps up to
    active, the two steps down to deep-standby and each word of the
    window. *)
Theorem X7_busy_wait_bounded :
  forall (HW : Type) (P : Platform HW) (otp : rockchip_otp) (offset bytes : Z)
         (s : state HW),
    0 <= elapsed (events_of (px30_otp_read otp offset bytes s))
      <= 7 + OTPC_TIMEOUT * (1 + Z.of_nat (Z.to_nat bytes)) /\
    0 <= elapsed (events_of (rk3308bs_otp_read otp offset bytes s))
      <= 2 + OTPC_TIMEOUT * (4 + rk3308bs_addr_len (size (data otp)) offset bytes).
Proof.
  intros HW P otp offset bytes s. split.
  - destruct (px30_otp_read otp offset bytes s) as [[r s'] e] eqn:H.
    exact (px30_otp_read_elapsed _ _ _ _ _ _ _ H).
  - destruct (rk3308bs_otp_read otp offset bytes s) as [[o s'] e] eqn:H.
    exact (rk3308bs_otp_read_elapsed _ _ _ _ _ _ _ H).
Qed.

(** ** User mode and the activation walk *)

Lemma run_monitor_app {St : Type} (step : St -> event -> option St) e1 : forall st e2,
  run_monitor step st (e1 ++ e2)
  = match run_monitor step st e1 with
    | Some st' => run_monitor step st' e2
    | None => None
    end.
Proof.
  induction e1 as [|x e1 IH]; intros st e2; [reflexivity|].
  cbn [app run_monitor]. destruct (step st x); [apply IH|reflexivity].
Qed.

Lemma run_monitor_transparent {St : Type} (step : St -> event -> option St) st e :
  Forall (fun x => step st x = Some st) e -> run_monitor step st e = Some st.
Proof.
  induction 1 as [|x e Hx _ IH]; [reflexivity|].
  cbn [run_monitor]. rewrite Hx. exact IH.
Qed.

Lemma poll_log_forall (Q : event -> Prop) addr d vs vlast :
  (forall v, Q (EvReadl addr v)) -> Q (EvUdelay d) ->
  Forall Q (poll_log addr d vs vlast).
Proof.
  intros Hr Hd. unfold poll_log. apply Forall_app. split.
  - induction vs as [|v vs IH]; [constructor|].
    cbn [flat_map app]. constructor; [apply Hr|]. constructor; [exact Hd|exact IH].
  - constructor; [apply Hr|constructor].
Qed.

Lemma user_poll ph vs vlast :
  user_mode_discipline ph (poll_log OTPC_INT_STATUS 1 vs vlast) = Some ph.
Proof.
  apply run_monitor_transparent. apply poll_log_forall.
  - intros v. reflexivity.
  - destruct ph as [| | |[]|]; reflexivity.
Qed.

Lemma user_cycle_write v a :
  a = OTPC_USER_ADDR \/ a = OTPC_USER_ENABLE ->
  user_step (UserOn true) (EvWritel v a) = Some (UserOn true).
Proof. intros [-> | ->]; reflexivity. Qed.

Section UserMode.

Context {HW : Type} {P : Platform HW}.
Implicit Types s : state HW.

Lemma px30_otp_read_loop_user n : forall offset buf r0 s r s' e,
  px30_otp_read_loop n offset buf r0 s = (r, s', e) ->
  user_mode_discipline (UserOn true) e = Some (UserOn true).
Proof.
  unfold user_mode_discipline.
  induction n as [|n IH]; intros offset buf r0 s r s' e H; simpl in H.
  - walk_log. reflexivity.
  - walk_log; try absurd_sign.
    all: try match goal with Hl : px30_otp_read_loop _ _ _ _ _ = _ |- _ =>
               apply IH in Hl end.
    all: repeat (rewrite run_monitor_app
                 || (progress cbn [run_monitor])
                 || (rewrite user_cycle_write by auto)
                 || (progress fold user_mode_discipline; rewrite user_poll;
                     unfold user_mode_discipline)).
    all: try assumption; reflexivity.
Qed.

End UserMode.

(** Evaluate the user-mode monitor along a log of explicit events, polls
    and loops. *)
Ltac user_walk :=
  unfold user_mode_discipline;
  repeat first
    [ rewrite run_monitor_app
    | progress fold user_mode_discipline; rewrite user_poll; unfold user_mode_discipline
    | match goal with
      | Hl : run_monitor user_step ?st ?e = _ |- context [run_monitor user_step ?st ?e] =>
          rewrite Hl
      end
    | progress cbn [run_monitor]
    | match goal with
      | |- context [user_step ?st ?x] =>
          let v := eval cbv in (user_step st x) in
          change (user_step st x) with v
      end
    | progress cbv beta iota ].

Section UserMode2.

Context {HW : Type} {P : Platform HW}.
Implicit Types s : state HW.

Lemma px30_otp_read_user_mode otp offset bytes s r s' e :
  px30_otp_read otp offset bytes s = (r, s', e) ->
  exists final,
    user_mode_discipline UserIdle e = Some final /\
    match final with
    | UserIdle | EccCommanded _ => r <> 0
    | UserOff => True
    | _ => False
    end.
Proof.
  unfold px30_otp_read, px30_read_end, px30_opt_pclk_phy, px30_opt_pclk, px30_otp_clk,
    rockchip_otp_reset, px30_otp_ecc_enable.
  intros H. walk_log; try absurd_sign.
  all: norm_results.
  all: try match goal with
       | Hq : px30_otp_read_loop _ _ _ _ _ = _ |- _ =>
           apply px30_otp_read_loop_user in Hq; unfold user_mode_discipline in Hq
       end.
  all: repeat match goal with
         | Hq : (_ <? 0) = true |- _ => apply Z.ltb_lt in Hq
         | Hq : (_ =? 0) = false |- _ => apply Z.eqb_neq in Hq
         end.
  all: eexists; split; [user_walk; reflexivity|]; cbv beta iota; try exact I.
  all: try lia; try assumption.
  all: unfold ETIMEDOUT; lia.
Qed.

(** The activation walk of the word engine, by the mode it finds. *)
Lemma rk3308bs_otp_active_walk s r s' e :
  rk3308bs_otp_active s = (r, s', e) ->
  val s' = val s /\
  exists mode rest,
    e = EvReadl OTPC_MODE_CTRL mode :: rest /\
    ((mode = OTPC_DEEP_STANDBY /\
      ((r = 0 /\
        all_writes e = [(OTPC_STANDBY, OTPC_MODE_CTRL); (OTPC_DP2STB_IRQ_ST, OTPC_IRQ_ST);
                        (OTPC_ACTIVE, OTPC_MODE_CTRL); (OTPC_STB2ACT_IRQ_ST, OTPC_IRQ_ST)]) \/
       (r = - ETIMEDOUT /\
        (all_writes e = [(OTPC_STANDBY, OTPC_MODE_CTRL)] \/
         all_writes e = [(OTPC_STANDBY, OTPC_MODE_CTRL); (OTPC_DP2STB_IRQ_ST, OTPC_IRQ_ST);
                         (OTPC_ACTIVE, OTPC_MODE_CTRL)])))) \/
     (mode = OTPC_STANDBY /\
      ((r = 0 /\
        all_writes e = [(OTPC_ACTIVE, OTPC_MODE_CTRL); (OTPC_STB2ACT_IRQ_ST, OTPC_IRQ_ST)]) \/
       (r = - ETIMEDOUT /\ all_writes e = [(OTPC_ACTIVE, OTPC_MODE_CTRL)]))) \/
     (mode <> OTPC_DEEP_STANDBY /\ mode <> OTPC_STANDBY /\ r = 0 /\ all_writes e = [])).
Proof.
  unfold rk3308bs_otp_active, rk3308bs_otp_active_from_standby. intros H.
  walk_log; try absurd_sign; try discriminate.
  all: repeat match goal with
         | Hq : (_ =? _) = true |- _ => apply Z.eqb_eq in Hq; subst
         | Hq : (_ =? _) = false |- _ => apply Z.eqb_neq in Hq
         end.
  all: (split; [congruence|]).
  all: eexists; eexists; (split; [reflexivity|]).
  all: rewrite ?all_writes_app, ?poll_log_all_writes; cbn [all_writes flat_map app].
  all: first
         [ left; split; [reflexivity|];
           first [ left; split; reflexivity
                 | right; split; [reflexivity|];
                   first [left; reflexivity | right; reflexivity] ]
         | right; left; split; [reflexivity|];
           first [left; split; reflexivity | right; split; reflexivity]
         | right; right; repeat split; assumption ].
Qed.

End UserMode2.

(** X8 (byte engine).  On every path of px30_otp_read the log follows the
    protocol of user mode: the ECC-disable command is the only SBPI command
    written and it is written once; user mode is switched on only after that
    command was acknowledged, and is followed by a delay of five time-units
    before the first cycle; addresses, read triggers, data-port reads and
    stores to the caller come only between the switch-on and the switch-off;
    user mode is switched off before the first clock is disabled.  A call
    that ends before user mode was switched on does not return 0. *)
Theorem X8_user_mode_bracket :
  forall (HW : Type) (P : Platform HW) (otp : rockchip_otp) (offset bytes : Z)
         (s : state HW),
    let x := px30_otp_read otp offset bytes s in
    exists final,
      user_mode_discipline UserIdle (events_of x) = Some final /\
      match final with
      | UserIdle | EccCommanded _ => result_of x <> 0
      | UserOff => True
      | _ => False
      end.
Proof.
  intros HW P otp offset bytes s x. destruct x as [[r s'] e] eqn:H. subst x.
  exact (px30_otp_read_user_mode _ _ _ _ _ _ _ H).
Qed.


(** ** The probe *)

Section ProbeFacts.

Context {PD : Type} {PP : ProbePlatform PD}.

(** The five acquisitions between the allocation and the registration, and
    the registration itself: the log is a prefix of the successful steps
    followed, on failure, by the failed step. *)
Lemma acquire_inv service ev rest (st st' : probe_state PD) r l :
  acquire service ev rest st = (r, st', l) ->
  (exists n d, service (pd st) = (ErrPtr n, d) /\ r = Z.neg n /\
               st' = {| pd := d; config := config st |} /\ l = [ev (ErrPtr n)]) \/
  (exists d l', service (pd st) = (ValidPtr, d) /\
                rest {| pd := d; config := config st |} = (r, st', l') /\
                l = ev ValidPtr :: l').
Proof.
  unfold acquire. destruct (service (pd st)) as [p d]. destruct p as [|n].
  - destruct (rest {| pd := d; config := config st |}) as [[r1 st1] l1] eqn:E.
    intros H. inversion H; subst. right. exists d, l1. auto.
  - intros H. inversion H; subst. left. exists n, d. auto.
Qed.

Lemma rockchip_otp_probe_shape (st : probe_state PD) r st' l :
  rockchip_otp_probe st = (r, st', l) ->
  (r = - EINVAL /\ st' = st /\ l = [PrDevErr "failed to get match data"] /\
   (pd_of_match_device rockchip_otp_match (pd st) = None \/
    exists m, pd_of_match_device rockchip_otp_match (pd st) = Some m /\
              match_data m = None)) \/
  (exists m d0,
     pd_of_match_device rockchip_otp_match (pd st) = Some m /\
     match_data m = Some d0 /\
     let cfg := registered_config (config st) (effective_data (pd st) d0) in
     ((r = 0 /\ l = probe_steps cfg /\ config st' = cfg) \/
      (exists (k : nat) ev code,
         (k <= 6)%nat /\
         l = firstn k (probe_steps cfg) ++ [ev] /\
         same_step ev (nth k (probe_steps cfg) PrSetDrvdata) = true /\
         probe_failure ev = Some code /\ r = code /\ code < 0 /\
         config st' = if Nat.eqb k 6 then cfg else config st))).
Proof.
  unfold rockchip_otp_probe.
  destruct (pd_of_match_device rockchip_otp_match (pd st)) as [m|] eqn:Em.
  2:{ intros H. inversion H; subst. left. repeat split; auto. }
  destruct (match_data m) as [d0|] eqn:Ed.
  2:{ intros H. inversion H; subst. left. repeat split; auto.
      right. exists m. auto. }
  fold (effective_data (pd st) d0).
  intros H. right. exists m, d0. split; [reflexivity|]. split; [exact Ed|].
  cbv zeta.
  set (cfg := registered_config (config st) (effective_data (pd st) d0)).
  destruct (pd_devm_kzalloc (pd st)) as [ok d] eqn:Ek.
  destruct ok; cbn [negb] in H.
  2:{ inversion H; subst. right. exists 0%nat, (PrKzalloc false), (- ENOMEM).
      repeat split; auto; try lia; try reflexivity. }
  destruct (acquire pd_devm_ioremap_resource PrIoremap _ _) as [[r1 st1] l1] eqn:E1.
  inversion H; subst. clear H.
  (* one acquisition after the other *)
  apply acquire_inv in E1. cbn [pd config] in E1.
  destruct E1 as [(n & d1 & _ & -> & -> & ->)|(d1 & l2 & _ & E2 & ->)].
  { right. exists 1%nat, (PrIoremap (ErrPtr n)), (Z.neg n).
    repeat split; auto; try lia; try reflexivity. }
  apply acquire_inv in E2. cbn [pd config] in E2.
  destruct E2 as [(n & d2 & _ & -> & -> & ->)|(d2 & l3 & _ & E3 & ->)].
  { right. exists 2%nat, (PrClkGet "clk_otp" (ErrPtr n)), (Z.neg n).
    repeat split; auto; try lia; try reflexivity. }
  apply acquire_inv in E3. cbn [pd config] in E3.
  destruct E3 as [(n & d3 & _ & -> & -> & ->)|(d3 & l4 & _ & E4 & ->)].
  { right. exists 3%nat, (PrClkGet "pclk_otp" (ErrPtr n)), (Z.neg n).
    repeat split; auto; try lia; try reflexivity. }
  apply acquire_inv in E4. cbn [pd config] in E4.
  destruct E4 as [(n & d4 & _ & -> & -> & ->)|(d4 & l5 & _ & E5 & ->)].
  { right. exists 4%nat, (PrClkGet "pclk_otp_phy" (ErrPtr n)), (Z.neg n).
    repeat split; auto; try lia; try reflexivity. }
  apply acquire_inv in E5. cbn [pd config] in E5.
  destruct E5 as [(n & d5 & _ & -> & -> & ->)|(d5 & l6 & _ & E6 & ->)].
  { right. exists 5%nat, (PrResetGet "otp_phy" (ErrPtr n)), (Z.neg n).
    repeat split; auto; try lia; try reflexivity. }
  cbn [pd config] in E6. fold cfg in E6. unfold registered_config in cfg.
  fold cfg in E6.
  destruct (pd_nvmem_register cfg d5) as [nv d6].
  destruct nv as [|n]; inversion E6; subst.
  - left. repeat split; auto.
  - right. exists 6%nat, (PrNvmemRegister cfg (ErrPtr n)), (Z.neg n).
    repeat split; auto; try lia.
Qed.

End ProbeFacts.

(** X10 (rockchip_otp_probe).  The probe returns 0 exactly when the device
    matched an entry with data and the allocation, the register window, the
    clocks clk_otp, pclk_otp and pclk_otp_phy, the reset line otp_phy and the
    registration succeeded, in this order.  Otherwise it stops at the first
    step that fails and returns its code, which is negative: -EINVAL without
    a match or with a match without data (nothing else is done), -ENOMEM for
    the allocation, the PTR_ERR of the failed service for the others; no
    later step is attempted, and the global otp_config is modified only once
    every resource was acquired. *)
Theorem X10_probe_first_failure :
  forall (PD : Type) (PP : ProbePlatform PD) (st : probe_state PD),
    let x := rockchip_otp_probe st in
    let r := fst (fst x) in
    let st' := snd (fst x) in
    let l := snd x in
    (r = - EINVAL /\ st' = st /\ l = [PrDevErr "failed to get match data"] /\
     (pd_of_match_device rockchip_otp_match (pd st) = None \/
      exists m, pd_of_match_device rockchip_otp_match (pd st) = Some m /\
                match_data m = None)) \/
    (exists m d0,
       pd_of_match_device rockchip_otp_match (pd st) = Some m /\
       match_data m = Some d0 /\
       let cfg := registered_config (config st) (effective_data (pd st) d0) in
       ((r = 0 /\ l = probe_steps cfg /\ config st' = cfg) \/
        (exists (k : nat) ev code,
           (k <= 6)%nat /\
           l = firstn k (probe_steps cfg) ++ [ev] /\
           same_step ev (nth k (probe_steps cfg) PrSetDrvdata) = true /\
           probe_failure ev = Some code /\ r = code /\ code < 0 /\
           config st' = if Nat.eqb k 6 then cfg else config st))).
Proof.
  intros PD PP st x r st' l. subst r st' l.
  destruct x as [[r st'] l] eqn:H. subst x. cbn [fst snd].
  exact (rockchip_otp_probe_shape _ _ _ _ H).
Qed.



(** ** Error codes and messages *)

Lemma service_results_app e1 e2 :
  service_results (e1 ++ e2) = service_results e1 ++ service_results e2.
Proof. apply flat_map_app. Qed.

Lemma reported_app e1 e2 : reported (e1 ++ e2) = reported e1 || reported e2.
Proof. apply existsb_app. Qed.

Lemma service_results_calm e : forallb calm e = true -> service_results e = [].
Proof.
  induction e as [|x e IH]; [reflexivity|]. cbn [forallb]. intros H.
  apply andb_prop in H. destruct H as [Hx He].
  destruct x; try discriminate Hx; cbn [service_results flat_map app]; apply IH; exact He.
Qed.

Lemma poll_log_reported addr d vs vlast : reported (poll_log addr d vs vlast) = false.
Proof.
  unfold poll_log. rewrite reported_app. cbn [reported existsb orb].
  rewrite orb_false_r. induction vs as [|v vs IH]; [reflexivity|]. exact IH.
Qed.

(** Reduce [reported] over a concatenation of explicit events, polls and
    sub-logs with a known answer. *)
Ltac reported_tac :=
  repeat (rewrite reported_app || rewrite poll_log_reported);
  repeat match goal with
         | Hq : reported ?e = _ |- context [reported ?e] => rewrite Hq
         end;
  cbn [reported existsb orb app].

Section Diagnostics.

Context {HW : Type} {P : Platform HW}.
Implicit Types s : state HW.

Lemma px30_otp_read_loop_reported n : forall offset buf r0 s r s' e,
  px30_otp_read_loop n offset buf r0 s = (r, s', e) ->
  (reported e = false /\ (r = r0 \/ r = 0)) \/
  (reported e = true /\ r = - ETIMEDOUT).
Proof.
  induction n as [|n IH]; intros offset buf r0 s r s' e H; simpl in H.
  - walk_log. left. split; [reflexivity|]. left. reflexivity.
  - walk_log; try absurd_sign.
    all: try match goal with Hl : px30_otp_read_loop _ _ _ _ _ = _ |- _ =>
               apply IH in Hl; destruct Hl as [(Hq & Hr)|(Hq & Hr)] end.
    all: first
           [ left; split; [reported_tac; reflexivity|]; right; destruct Hr; assumption
           | right; split; [reported_tac; reflexivity|]; first [reflexivity | exact Hr] ].
Qed.

Lemma rk3308bs_otp_read_loop_reported n : forall addr i buf r0 s x s' e,
  rk3308bs_otp_read_loop n addr i buf r0 s = (x, s', e) ->
  match x with
  | LoopDone r _ => reported e = false /\ (r = r0 \/ r = 0)
  | LoopAbort r => reported e = true /\ r = - ETIMEDOUT
  | LoopFault => True
  end.
Proof.
  induction n as [|n IH]; intros addr i buf r0 s x s' e H; simpl in H.
  - walk_log. split; [reflexivity|]. left. reflexivity.
  - walk_log; try absurd_sign.
    all: try exact I.
    all: try match goal with Hl : rk3308bs_otp_read_loop _ _ _ _ _ _ = _ |- _ =>
               apply IH in Hl; destruct x as [r buf'| r |]; [| |exact I];
               destruct Hl as (Hq & Hr) end.
    all: split;
      first [ reported_tac; reflexivity | reflexivity | exact Hr
            | right; destruct Hr; assumption ].
Qed.

Lemma rk3308bs_otp_active_reported s r s' e :
  rk3308bs_otp_active s = (r, s', e) ->
  r = 0 \/ (r = - ETIMEDOUT /\ reported e = true).
Proof.
  unfold rk3308bs_otp_active, rk3308bs_otp_active_from_standby. intros H.
  walk_log; try absurd_sign; try discriminate.
  all: first [ left; reflexivity
             | right; split; [reflexivity|]; reported_tac; reflexivity ].
Qed.

Lemma px30_otp_read_errors otp offset bytes s r s' e :
  px30_otp_read otp offset bytes s = (r, s', e) ->
  reported e = negb (r =? 0) /\
  (r = 0 \/ r = - ETIMEDOUT \/ In r (service_results e)).
Proof.
  unfold px30_otp_read, px30_read_end, px30_opt_pclk_phy, px30_opt_pclk, px30_otp_clk,
    rockchip_otp_reset, px30_otp_ecc_enable.
  intros H. walk_log; try absurd_sign.
  all: norm_results.
  all: try match goal with
       | Hq : px30_otp_read_loop _ _ _ _ _ = _ |- _ =>
           apply px30_otp_read_loop_reported in Hq;
           destruct Hq as [(Hq & [Hr | Hr])|(Hq & Hr)]; subst
       end.
  all: repeat match goal with
         | Hq : (_ <? 0) = true |- _ => apply Z.ltb_lt in Hq
         | Hq : (_ <? 0) = false |- _ => apply Z.ltb_ge in Hq
         end.
  all: split;
    [ reported_tac;
      match goal with
      | |- _ = negb (?r =? 0) =>
          first [ reflexivity
                | replace (r =? 0) with false
                    by (symmetry; apply Z.eqb_neq; first [assumption | lia]);
                  rewrite ?orb_true_r; reflexivity ]
      end
    | rewrite ?service_results_app; cbn [service_results flat_map app];
      rewrite ?in_app_iff; cbn [In]; auto 10 ].
Qed.

Lemma rk3308bs_otp_read_errors otp offset bytes s o s' e :
  rk3308bs_otp_read otp offset bytes s = (o, s', e) ->
  match o with
  | Fault => True
  | Returned r =>
      (r = 0 \/ r = - ETIMEDOUT \/ r = - ENOMEM \/ In r (service_results e)) /\
      (r <> 0 -> r <> - ENOMEM -> reported e = true)
  end.
Proof.
  unfold rk3308bs_otp_read, rk3308bs_read_end, rk3308bs_opt_pclk_phy,
    rk3308bs_opt_pclk, rk3308bs_otp_clk, rockchip_otp_reset.
  intros H. walk_log; try absurd_sign.
  all: norm_results.
  all: try exact I.
  all: repeat match goal with
         | Hq : rk3308bs_otp_read_loop _ _ _ _ _ _ = _ |- _ =>
             apply rk3308bs_otp_read_loop_reported in Hq; cbv beta iota in Hq;
             destruct Hq as (Hq & Hr)
         | Hq : rk3308bs_otp_active _ = _ |- _ =>
             apply rk3308bs_otp_active_reported in Hq
         | Hq : (_ <? 0) = true |- _ => apply Z.ltb_lt in Hq
         | Hq : (_ <? 0) = false |- _ => apply Z.ltb_ge in Hq
         | Hq : (_ =? 0) = false |- _ => apply Z.eqb_neq in Hq
         end.
  all: repeat match goal with
         | Hq : _ = 0 \/ (_ = - ETIMEDOUT /\ _) |- _ => destruct Hq as [Hq | (Hq & ?)]
         | Hq : _ = _ \/ _ = 0 |- _ => destruct Hq as [Hq | Hq]
         end; subst.
  all: try match goal with Hq : 0 <> 0 |- _ => contradiction Hq; reflexivity end.
  all: split;
    [ rewrite ?service_results_app; cbn [service_results flat_map app];
      rewrite ?in_app_iff; cbn [In]; auto 10
    | intros Hnz Hne; reported_tac;
      first [ reflexivity
            | contradiction Hnz; reflexivity
            | contradiction Hne; reflexivity
            | rewrite ?orb_true_r; reflexivity ] ].
Qed.

End Diagnostics.

(** X12 (both read functions).  Error codes and messages.  px30_otp_read
    logs an error message exactly when it does not return 0, and what it
    returns is 0, -ETIMEDOUT or a result that the clock framework or the
    reset controller returned during this call, unchanged.
    rk3308bs_otp_read returns 0, -ETIMEDOUT, -ENOMEM or such a result;
    whenever it returns anything but 0 and -ENOMEM it has logged an error
    message. *)
Theorem X12_error_codes :
  forall (HW : Type) (P : Platform HW) (otp : rockchip_otp) (offset bytes : Z)
         (s : state HW),
    let a := px30_otp_read otp offset bytes s in
    let b := rk3308bs_otp_read otp offset bytes s in
    (reported (events_of a) = negb (result_of a =? 0) /\
     (result_of a = 0 \/ result_of a = - ETIMEDOUT \/
      In (result_of a) (service_results (events_of a)))) /\
    match result_of b with
    | Fault => True
    | Returned r =>
        (r = 0 \/ r = - ETIMEDOUT \/ r = - ENOMEM \/
         In r (service_results (events_of b))) /\
        (r <> 0 -> r <> - ENOMEM -> reported (events_of b) = true)
    end.
Proof.
  intros HW P otp offset bytes s a b. split.
  - destruct a as [[r s'] e] eqn:H. subst a.
    exact (px30_otp_read_errors _ _ _ _ _ _ _ H).
  - destruct b as [[o s'] e] eqn:H. subst b.
    exact (rk3308bs_otp_read_errors _ _ _ _ _ _ _ H).
Qed.

(** The result of the walk-down at read_end is dropped: on a controller
    that signals the activation and the one word read but no longer the
    walk-down, the read returns 0 although a time-out was logged. *)
Lemma walk_down_failure_is_dropped :
  let x := rk3308bs_otp_read Mock.rk3308bs 0 4 (Mock.caller (Mock.device Mock.fuses 3)) in
  result_of x = Returned 0 /\ reported (events_of x) = true /\
  Mock.peek 4 (state_of x) = [1; 2; 3; 4].
Proof. lazy. repeat split; reflexivity. Qed.

(** ** Register write traces *)

(** Reduce [all_writes] over a concatenation of explicit events, polls and
    sub-logs with known writes. *)
Lemma all_writes_cons x l :
  all_writes (x :: l)
  = match x with EvWritel v a => [(v, a)] | _ => [] end ++ all_writes l.
Proof. reflexivity. Qed.

Lemma all_writes_nil : all_writes [] = [].
Proof. reflexivity. Qed.

Ltac writes_tac :=
  repeat (rewrite all_writes_app || rewrite poll_log_all_writes
          || rewrite all_writes_cons || rewrite all_writes_nil);
  repeat match goal with
         | Hq : all_writes ?e = _ |- context [all_writes ?e] => rewrite Hq
         end;
  cbn [app]; rewrite ?app_nil_r.

Section Traces.

Context {HW : Type} {P : Platform HW}.
Implicit Types s : state HW.

Lemma px30_otp_ecc_enable_writes enable s r s' e :
  px30_otp_ecc_enable enable s = (r, s', e) ->
  val s' = val s /\
  ((r = 0 /\ reported e = false /\
    all_writes e
    = sbpi_ecc_writes (if enable then SBPI_ECC_ENABLE else SBPI_ECC_DISABLE)
      ++ [(OTPC_SBPI_DONE, OTPC_INT_STATUS)]) \/
   (r = - ETIMEDOUT /\ reported e = true /\
    all_writes e
    = sbpi_ecc_writes (if enable then SBPI_ECC_ENABLE else SBPI_ECC_DISABLE))).
Proof.
  unfold px30_otp_ecc_enable. intros H. walk_log; try absurd_sign.
  all: (split; [congruence|]).
  all: first [ left; split; [reflexivity|]; split; [reported_tac; reflexivity|];
               writes_tac; reflexivity
             | right; split; [reflexivity|]; split; [reported_tac; reflexivity|];
               writes_tac; reflexivity ].
Qed.

Lemma px30_otp_read_loop_writes n : forall offset buf r0 s r s' e,
  px30_otp_read_loop n offset buf r0 s = (r, s', e) ->
  reported e = false ->
  all_writes e = user_cycle_writes offset n.
Proof.
  induction n as [|n IH]; intros offset buf r0 s r s' e H; simpl in H.
  - walk_log. reflexivity.
  - walk_log; try absurd_sign.
    all: reported_tac; intros Hq; try discriminate Hq.
    match goal with Hl : px30_otp_read_loop _ _ _ _ _ = _ |- _ =>
      pose proof (IH _ _ _ _ _ _ _ Hl Hq) as Hw end.
    writes_tac. reflexivity.
Qed.

Lemma rk3308bs_otp_read_loop_writes n : forall addr i buf r0 s r buf' s' e,
  rk3308bs_otp_read_loop n addr i buf r0 s = (LoopDone r buf', s', e) ->
  all_writes e = word_cycle_writes addr n.
Proof.
  induction n as [|n IH]; intros addr i buf r0 s r buf' s' e H; simpl in H.
  - walk_log. reflexivity.
  - walk_log; try absurd_sign; try discriminate.
    match goal with Hl : rk3308bs_otp_read_loop _ _ _ _ _ _ = _ |- _ =>
      pose proof (IH _ _ _ _ _ _ _ _ _ Hl) as Hw end.
    writes_tac. reflexivity.
Qed.

Lemma rk3308bs_otp_standby_walk s r s' e :
  rk3308bs_otp_standby s = (r, s', e) -> In (all_writes e) walk_down_writes.
Proof.
  unfold rk3308bs_otp_standby, rk3308bs_otp_standby_from_standby. intros H.
  walk_log; try absurd_sign; try discriminate.
  all: writes_tac; unfold walk_down_writes; cbn [In]; auto 10.
Qed.

Lemma rk3308bs_otp_active_up s r s' e :
  rk3308bs_otp_active s = (r, s', e) -> r = 0 -> In (all_writes e) walk_up_writes.
Proof.
  intros H Hr. apply rk3308bs_otp_active_walk in H.
  destruct H as (_ & mode & rest & _ & H). unfold walk_up_writes. cbn [In].
  unfold ETIMEDOUT in H.
  destruct H as [(_ & [(_ & ->)|(Hx & _)])|[(_ & [(_ & ->)|(Hx & _)])|(_ & _ & _ & ->)]];
    auto; exfalso; lia.
Qed.

Lemma px30_otp_read_trace otp offset bytes s s' e :
  px30_otp_read otp offset bytes s = (0, s', e) ->
  all_writes e
  = sbpi_ecc_writes SBPI_ECC_DISABLE
    ++ [(OTPC_SBPI_DONE, OTPC_INT_STATUS);
        (Z.lor OTPC_USE_USER OTPC_USE_USER_MASK, OTPC_USER_CTRL)]
    ++ user_cycle_writes offset (Z.to_nat bytes)
    ++ [(Z.lor 0x0 OTPC_USE_USER_MASK, OTPC_USER_CTRL)].
Proof.
  unfold px30_otp_read, px30_read_end, px30_opt_pclk_phy, px30_opt_pclk, px30_otp_clk,
    rockchip_otp_reset.
  intros H. walk; try absurd_sign.
  all: norm_results.
  all: repeat match goal with
         | Hq : px30_otp_ecc_enable _ _ = _ |- _ =>
             apply px30_otp_ecc_enable_writes in Hq;
             destruct Hq as (_ & [(? & _ & Hecc)|(? & _ & Hecc)]); subst
         end.
  all: try absurd_sign.
  all: try match goal with
       | Hq : px30_otp_read_loop _ _ _ _ _ = _ |- _ =>
           pose proof (px30_otp_read_loop_reported _ _ _ _ _ _ _ _ Hq)
             as [(Hrep & _)|(_ & Hr)];
           [ pose proof (px30_otp_read_loop_writes _ _ _ _ _ _ _ _ Hq Hrep) as Hloop
           | exfalso; unfold ETIMEDOUT in Hr; discriminate Hr ]
       end.
  all: writes_tac; rewrite <- ?app_assoc; reflexivity.
Qed.

Lemma rk3308bs_otp_read_trace otp offset bytes s s' e :
  0 <= offset < size (data otp) -> size (data otp) < 2 ^ 32 -> 0 <= bytes < 2 ^ 64 ->
  rk3308bs_otp_read otp offset bytes s = (Returned 0, s', e) ->
  let n := Z.min bytes (size (data otp) - offset) in
  let cnt := (offset + n + 3) / 4 - offset / 4 in
  exists up down,
    In up walk_up_writes /\ In down walk_down_writes /\
    all_writes e = up ++ word_cycle_writes (offset / 4 + 224) (Z.to_nat cnt) ++ down.
Proof.
  intros Ho Hs Hb H n cnt. revert H.
  unfold rk3308bs_otp_read, rk3308bs_read_end, rk3308bs_opt_pclk_phy,
    rk3308bs_opt_pclk, rk3308bs_otp_clk, rockchip_otp_reset.
  fold (rk3308bs_bytes (size (data otp)) offset bytes).
  fold (rk3308bs_addr_len (size (data otp)) offset bytes).
  fold (rk3308bs_addr_start offset).
  fold (rk3308bs_addr_offset offset).
  fold (rk3308bs_alloc (size (data otp)) offset bytes).
  intros H. walk; try discriminate.
  all: norm_results.
  all: repeat match goal with
         | Hq : Returned _ = Returned _ |- _ => inversion Hq; subst; clear Hq
         end.
  all: try absurd_sign.
  all: try (exfalso; unfold ENOMEM in *; lia).
  all: try (exfalso; match goal with Hq : 0 <> 0 |- _ => apply Hq; reflexivity
                                | Hq : (_ >=? _) = true |- _ => apply Z.geb_le in Hq; lia
                     end).
  all: match goal with
       | Hl : rk3308bs_otp_read_loop _ _ _ _ _ _ = (LoopAbort _, _, _) |- _ =>
           exfalso; apply rk3308bs_otp_read_loop_reported in Hl;
           destruct Hl as (_ & Hl); unfold ETIMEDOUT in Hl; discriminate Hl
       | _ => idtac
       end.
  match goal with
  | Ha : rk3308bs_otp_active _ = _, Hl : rk3308bs_otp_read_loop _ _ _ _ _ _ = _,
    Hd : rk3308bs_otp_standby _ = _, Hg : (_ <=? _) = true |- _ =>
      pose proof (rk3308bs_otp_active_up _ _ _ _ Ha eq_refl) as Hup;
      pose proof (rk3308bs_otp_read_loop_writes _ _ _ _ _ _ _ _ _ _ Hl) as Hloop;
      pose proof (rk3308bs_otp_read_loop_length _ _ _ _ _ _ _ _ _ _ Hl) as Hlen;
      pose proof (rk3308bs_otp_standby_walk _ _ _ _ Hd) as Hdown;
      apply Z.leb_le in Hg; rename Hg into Hguard
  end.
  rewrite Hlen, repeat_length, rk3308bs_alloc_eq in Hguard.
  assert (Hal : 0 <= rk3308bs_addr_len (size (data otp)) offset bytes)
    by apply u32_range.
  rewrite Z2Nat.id in Hguard by lia.
  destruct (rk3308bs_window _ _ _ Ho Hs Hb Hguard) as (_ & _ & Hst & Hcnt).
  fold n in Hcnt. fold cnt in Hcnt. rewrite Hst, Hcnt in Hloop.
  eexists. eexists. split; [exact Hup|]. split; [exact Hdown|].
  writes_tac. reflexivity.
Qed.

End Traces.

(** X13 (byte engine).  The register writes of a call of px30_otp_read that
    returns 0 are, in this order and with nothing else: the SBPI command
    that disables ECC (DAP address, command-valid count, command word 0,
    command word 1 = SBPI_ECC_DISABLE, SBPI enable), the acknowledgement of
    the SBPI completion, the switch to user mode, then for each requested
    byte its address with the mask bits, the read trigger and the
    acknowledgement of the user completion, and last the switch out of user
    mode. *)
Theorem X13_byte_engine_write_trace :
  forall (HW : Type) (P : Platform HW) (otp : rockchip_otp) (offset bytes : Z)
         (s : state HW),
    let x := px30_otp_read otp offset bytes s in
    result_of x = 0 ->
    all_writes (events_of x)
    = sbpi_ecc_writes SBPI_ECC_DISABLE
      ++ [(OTPC_SBPI_DONE, OTPC_INT_STATUS);
          (Z.lor OTPC_USE_USER OTPC_USE_USER_MASK, OTPC_USER_CTRL)]
      ++ user_cycle_writes offset (Z.to_nat bytes)
      ++ [(Z.lor 0x0 OTPC_USE_USER_MASK, OTPC_USER_CTRL)].
Proof.
  intros HW P otp offset bytes s x Hr. destruct x as [[r s'] e] eqn:H. subst x.
  unfold result_of in Hr. cbn [fst] in Hr. subst r.
  exact (px30_otp_read_trace _ _ _ _ _ _ H).
Qed.

Lemma X13_byte_engine_write_trace_witness :
  let x := px30_otp_read Mock.px30 5 2 (Mock.caller (Mock.device Mock.fuses 100)) in
  all_writes (events_of x)
  = [(0xFF000200, 0x20); (0xFFFF0001, 0x24); (0xFA, 0x1000); (0x09, 0x1004);
     (0x10001, 0x20); (0x2, 0x304); (0x10001, 0x100);
     (0xFFFF0005, 0x104); (0x10001, 0x108); (0x4, 0x304);
     (0xFFFF0006, 0x104); (0x10001, 0x108); (0x4, 0x304);
     (0x10000, 0x100)].
Proof.
  intros x. subst x.
  rewrite (X13_byte_engine_write_trace Mock.otpc Mock.mock_platform Mock.px30 5 2
             (Mock.caller (Mock.device Mock.fuses 100)))
    by (vm_compute; reflexivity).
  reflexivity.
Defined.

(** X14 (word engine).  The register writes of a call of rk3308bs_otp_read
    that returns 0, for a request below the declared size, are, in this
    order and with nothing else: the writes of the walk up to active (none,
    or active and its acknowledgement, or standby, its acknowledgement,
    active and its acknowledgement), then for each word of the window the
    transfer count 1, the word address, read-access to the mode register and
    the acknowledgement of the read status, and last the writes of the walk
    down to deep-standby as far as it got. *)
Theorem X14_word_engine_write_trace :
  forall (HW : Type) (P : Platform HW) (otp : rockchip_otp) (offset bytes : Z)
         (s : state HW),
    0 <= offset < size (data otp) -> size (data otp) < 2 ^ 32 ->
    0 <= bytes < 2 ^ 64 ->
    let x := rk3308bs_otp_read otp offset bytes s in
    result_of x = Returned 0 ->
    let n := Z.min bytes (size (data otp) - offset) in
    let cnt := (offset + n + 3) / 4 - offset / 4 in
    exists up down,
      In up walk_up_writes /\ In down walk_down_writes /\
      all_writes (events_of x)
      = up ++ word_cycle_writes (offset / 4 + 224) (Z.to_nat cnt) ++ down.
Proof.
  intros HW P otp offset bytes s Ho Hs Hb x Hr. destruct x as [[o s'] e] eqn:H.
  subst x. unfold result_of in Hr. cbn [fst] in Hr. subst o.
  exact (rk3308bs_otp_read_trace _ _ _ _ _ _ Ho Hs Hb H).
Qed.

Lemma X14_word_engine_write_trace_witness :
  let x := rk3308bs_otp_read Mock.rk3308bs 6 3
             (Mock.caller (Mock.device Mock.fuses 100)) in
  exists up down,
    In up walk_up_writes /\ In down walk_down_writes /\
    all_writes (events_of x) = up ++ word_cycle_writes 225 2 ++ down.
Proof.
  intros x.
  apply (X14_word_engine_write_trace Mock.otpc Mock.mock_platform Mock.rk3308bs 6 3
           (Mock.caller (Mock.device Mock.fuses 100))).
  - vm_compute. split; [discriminate|reflexivity].
  - reflexivity.
  - vm_compute. split; [discriminate|reflexivity].
  - reflexivity.
Defined.
